(** * Session-aware request dispatch of the Stitch JavaScript SDK

    A shallow embedding of [src/client.js]: the current client
    ([StitchClient], methods [_do], [authenticate], [doSessionPost],
    [logout]) and the legacy client ([BaasClient], methods [_doAuthed],
    [_refreshToken], [_setAccessToken], [_clearAuth], [auth]).

    The calls built on the two dispatchers follow: [login], [userProfile]
    and the [authUrl] of the current client; [checkStatus],
    [executePipeline], [_setAuth], [authWithLocal], the stages of
    [Collection] and the resource tree of [Admin] of the legacy one.

    Promise chains are written in a small monad that threads the world (the
    token store and the scripted service) and collects the trace of what the
    dispatcher did: every dispatch entry, every use of the token store,
    every refresh and every request handed to the transport. *)

From Stdlib Require Import String List ZArith Bool Lia.
From stdpp Require Import base option gmap strings.
Import ListNotations.

Local Open Scope string_scope.
Local Open Scope Z_scope.
Local Open Scope list_scope.

(** ** JavaScript values *)

(** A decoded JSON value. A number is kept as the text that JavaScript's
    [ToString] gives for it, which is all the dispatcher can observe. *)
#[local] Unset Elimination Schemes.
Inductive json : Type :=
| JNull
| JBool (b : bool)
| JNum (repr : string)
| JStr (s : string)
| JArr (items : list json)
| JObj (fields : list (string * json)).
#[local] Set Elimination Schemes.

(** A JavaScript value that may be [undefined] ([None]). *)
Definition jsval : Type := option json.

Definition undefined : jsval := None.

(** [ToBoolean]. *)
Definition truthy (v : jsval) : bool :=
  match v with
  | None => false
  | Some JNull => false
  | Some (JBool b) => b
  | Some (JNum r) => negb (String.eqb r "0" || String.eqb r "NaN")
  | Some (JStr s) => negb (String.eqb s "")
  | Some (JArr _) => true
  | Some (JObj _) => true
  end.

(** [ToString] on a decoded JSON value: an array joins its elements with a
    comma, [null] elements giving the empty text; a plain object gives
    [[object Object]]. *)
Fixpoint js_toString (j : json) : string :=
  match j with
  | JNull => "null"
  | JBool true => "true"
  | JBool false => "false"
  | JNum r => r
  | JStr s => s
  | JArr items =>
      (fix join (l : list json) : string :=
         match l with
         | [] => ""
         | x :: rest =>
             let here := match x with JNull => "" | _ => js_toString x end in
             match rest with
             | [] => here
             | _ :: _ => here +:+ "," +:+ join rest
             end
         end) items
  | JObj _ => "[object Object]"
  end.

(** Text of a value inside a template literal or a string concatenation. *)
Definition to_text (v : jsval) : string :=
  match v with
  | None => "undefined"
  | Some j => js_toString j
  end.

Fixpoint assoc {V : Type} (k : string) (o : list (string * V)) : option V :=
  match o with
  | [] => None
  | (k', v) :: rest => if String.eqb k' k then Some v else assoc k rest
  end.

(** [o[k] = v] on an object: an existing key keeps its place. *)
Fixpoint set_key {V : Type} (k : string) (v : V) (o : list (string * V))
  : list (string * V) :=
  match o with
  | [] => [(k, v)]
  | (k', v') :: rest =>
      if String.eqb k' k then (k, v) :: rest else (k', v') :: set_key k v rest
  end.

Fixpoint remove_key {V : Type} (k : string) (o : list (string * V))
  : list (string * V) :=
  match o with
  | [] => []
  | (k', v') :: rest =>
      if String.eqb k' k then remove_key k rest else (k', v') :: remove_key k rest
  end.

(** [Object.assign(target, source)]. *)
Definition assign {V : Type} (target source : list (string * V))
  : list (string * V) :=
  fold_left (fun t kv => set_key (fst kv) (snd kv) t) source target.

(** ** Errors, responses and the transport *)

Record Response : Type := {
  status : Z;
  statusText : string;
  contentType : option string;   (* response.headers.get('Content-Type') *)
  payload : option json          (* what response.json() resolves with; None: it rejects *)
}.

Inductive Err : Type :=
| StitchError (message code : jsval) (response : option Response) (decoded : jsval)
| Error (message : string) (response : option Response)
| TypeError
| SyntaxError
| InvalidCharacterError
| TransportFailure (reason : string).

Record FetchArgs : Type := {
  fa_method : string;
  fa_headers : list (string * string);
  fa_body : option string
}.

Record Request : Type := {
  url : string;
  init : FetchArgs
}.

(** What the external transport does with one request. *)
Inductive FetchResult : Type :=
| Responds (r : Response)
| Fails (reason : string).

(** The world of one dispatch chain: the token store and the service, given
    as the script of its answers to the successive requests. *)
Record World (S : Type) : Type := {
  store : S;
  net : nat -> FetchResult;
  sent : nat
}.
Arguments store {S} _.
Arguments net {S} _ _.
Arguments sent {S} _.

Definition with_store {S : Type} (s : S) (w : World S) : World S :=
  {| store := s; net := net w; sent := sent w |}.

Definition next_request {S : Type} (w : World S) : World S :=
  {| store := store w; net := net w; sent := Datatypes.S (sent w) |}.

(** ** The trace *)

Inductive Origin : Type := Primary | Renewal.

(** Why a refresh was asked for: the access token had expired before the
    request went out, or the service answered with an invalid session. *)
Inductive Trigger : Type := Proactive | Reactive.

Inductive AuthOp : Type :=
| AuthedId | IsAccessTokenExpired | GetAccessToken | GetRefreshToken | Clear.

(** [C] is what a dispatch entry records: its arguments. *)
Inductive Event (C : Type) : Type :=
| Enter (call : C)
| Store (op : AuthOp)
| Refresh (why : Trigger)
| Fetch (who : Origin) (req : Request)
| Provider (providerType : string).
Arguments Enter {C} _.
Arguments Store {C} _.
Arguments Refresh {C} _.
Arguments Fetch {C} _ _.
Arguments Provider {C} _.

Definition is_refresh {C : Type} (e : Event C) : bool :=
  match e with Refresh _ => true | _ => false end.

Definition is_proactive {C : Type} (e : Event C) : bool :=
  match e with Refresh Proactive => true | _ => false end.

Definition is_reactive {C : Type} (e : Event C) : bool :=
  match e with Refresh Reactive => true | _ => false end.

Definition is_primary {C : Type} (e : Event C) : bool :=
  match e with Fetch Primary _ => true | _ => false end.

Definition is_fetch {C : Type} (e : Event C) : bool :=
  match e with Fetch _ _ => true | _ => false end.

Definition is_enter {C : Type} (e : Event C) : bool :=
  match e with Enter _ => true | _ => false end.

Definition is_store {C : Type} (e : Event C) : bool :=
  match e with Store _ => true | _ => false end.

Definition count {C : Type} (p : Event C -> bool) (t : list (Event C)) : nat :=
  length (List.filter p t).

Definition entries {C : Type} (t : list (Event C)) : list C :=
  flat_map (fun e => match e with Enter c => [c] | _ => [] end) t.

(** ** Promises *)

(** How a promise settles. [Pending] is the model running out of fuel. *)
Inductive Outcome (T : Type) : Type :=
| Resolved (v : T)
| Rejected (e : Err)
| Pending.
Arguments Resolved {T} _.
Arguments Rejected {T} _.
Arguments Pending {T}.

Section Promise.
Context {S C : Type}.

Definition M (T : Type) : Type :=
  World S -> Outcome T * World S * list (Event C).

Definition ret {T : Type} (v : T) : M T :=
  fun w => (Resolved v, w, []).

Definition reject {T : Type} (e : Err) : M T :=
  fun w => (Rejected e, w, []).

Definition pending {T : Type} : M T :=
  fun w => (Pending, w, []).

Definition after {T : Type} (t : list (Event C))
    (r : Outcome T * World S * list (Event C)) : Outcome T * World S * list (Event C) :=
  (fst (fst r), snd (fst r), t ++ snd r).

Definition outcome {T : Type} (r : Outcome T * World S * list (Event C)) : Outcome T :=
  fst (fst r).

Definition final {T : Type} (r : Outcome T * World S * list (Event C)) : World S :=
  snd (fst r).

Definition trace {T : Type} (r : Outcome T * World S * list (Event C)) : list (Event C) :=
  snd r.

(** [m.then(k)]. *)
Definition bind {T U : Type} (m : M T) (k : T -> M U) : M U :=
  fun w =>
    match m w with
    | (Resolved v, w1, t1) => after t1 (k v w1)
    | (Rejected e, w1, t1) => (Rejected e, w1, t1)
    | (Pending, w1, t1) => (Pending, w1, t1)
    end.

Definition emit (e : Event C) : M unit :=
  fun w => (Resolved tt, w, [e]).

Definition read {T : Type} (f : S -> T) : M T :=
  fun w => (Resolved (f (store w)), w, []).

Definition write (f : S -> S) : M unit :=
  fun w => (Resolved tt, with_store (f (store w)) w, []).

(** [fetch(url, init)]: the request goes out and the service's next
    scripted answer comes back. *)
Definition fetch (who : Origin) (u : string) (a : FetchArgs) : M Response :=
  fun w =>
    let req := {| url := u; init := a |} in
    match net w (sent w) with
    | Responds r => (Resolved r, next_request w, [Fetch who req])
    | Fails reason => (Rejected (TransportFailure reason), next_request w, [Fetch who req])
    end.

(** [response.json()]. *)
Definition response_json (r : Response) : M json :=
  match payload r with
  | Some j => ret j
  | None => reject SyntaxError
  end.
End Promise.

Notation "'await' x <- m 'then' k" := (bind m (fun x => k))
  (at level 10, x name, m at level 100, k at level 200).
Notation "'wait' m 'then' k" := (bind m (fun _ => k))
  (at level 10, m at level 100, k at level 200).

(** [k in j]: a [TypeError] on anything that is not an object. *)
Definition has_property (k : string) (j : json) : option bool :=
  match j with
  | JObj fields => Some (match assoc k fields with Some _ => true | None => false end)
  | JArr _ => Some false
  | _ => None
  end.

(** [j[k]] for a key that no prototype defines: a [TypeError] on [null]. *)
Definition property (k : string) (j : json) : option jsval :=
  match j with
  | JNull => None
  | JObj fields => Some (assoc k fields)
  | _ => Some undefined
  end.

Definition property_or_undefined (k : string) (j : json) : jsval :=
  match property k j with Some v => v | None => undefined end.

(** [v === s] for a string [s]. *)
Definition strict_eq_string (v : jsval) (s : string) : bool :=
  match v with
  | Some (JStr s') => String.eqb s' s
  | _ => false
  end.

(** [v == s] for a string [s] that is not the text of a number: a string
    compares as such, an array or an object through its [ToString], and a
    number, a boolean, [null] and [undefined] are never equal to it. *)
Definition loose_eq_string (v : jsval) (s : string) : bool :=
  match v with
  | Some (JStr s') => String.eqb s' s
  | Some (JArr items) => String.eqb (js_toString (JArr items)) s
  | Some (JObj fields) => String.eqb (js_toString (JObj fields)) s
  | _ => false
  end.

Definition is_2xx (r : Response) : bool :=
  (200 <=? status r) && (status r <? 300).

(** ** The current client: [StitchClient] *)

Module Stitch.

(** The API versions that the client declares ([const v2 = 2], [const v3 =
    3]) and that key [rootURLsByAPIVersion]. *)
Inductive ApiVersion : Type := v2 | v3.

(** The options object as the caller passes it: a key may be missing. *)
Record RawOptions : Type := {
  raw_refreshOnFailure : option bool;
  raw_useRefreshToken : option bool;
  raw_apiVersion : option ApiVersion;
  raw_apiType : option string;
  raw_noAuth : bool;
  raw_headers : option (list (string * string));
  raw_body : option string;
  raw_queryParams : option (list (string * string))
}.

(** The options object after [Object.assign({}, defaults, options)]. *)
Record Options : Type := {
  refreshOnFailure : bool;
  useRefreshToken : bool;
  apiVersion : ApiVersion;
  apiType : string;
  noAuth : bool;
  headers : option (list (string * string));
  body : option string;
  queryParams : option (list (string * string))
}.

Definition no_options : RawOptions :=
  {| raw_refreshOnFailure := None; raw_useRefreshToken := None;
     raw_apiVersion := None; raw_apiType := None; raw_noAuth := false;
     raw_headers := None; raw_body := None; raw_queryParams := None |}.

Definition assign_defaults (o : RawOptions) : Options :=
  {| refreshOnFailure := default true (raw_refreshOnFailure o);
     useRefreshToken := default false (raw_useRefreshToken o);
     apiVersion := default v2 (raw_apiVersion o);
     apiType := default "app" (raw_apiType o);
     noAuth := raw_noAuth o;
     headers := raw_headers o;
     body := raw_body o;
     queryParams := raw_queryParams o |}.

(** A merged options object passed on as the [options] argument. *)
Definition as_raw (o : Options) : RawOptions :=
  {| raw_refreshOnFailure := Some (refreshOnFailure o);
     raw_useRefreshToken := Some (useRefreshToken o);
     raw_apiVersion := Some (apiVersion o);
     raw_apiType := Some (apiType o);
     raw_noAuth := noAuth o;
     raw_headers := headers o;
     raw_body := body o;
     raw_queryParams := queryParams o |}.

(** [options.refreshOnFailure = b]. *)
Definition set_refreshOnFailure (b : bool) (o : Options) : Options :=
  {| refreshOnFailure := b;
     useRefreshToken := useRefreshToken o;
     apiVersion := apiVersion o;
     apiType := apiType o;
     noAuth := noAuth o;
     headers := headers o;
     body := body o;
     queryParams := queryParams o |}.

(** One dispatch entry: [_do(resource, method, options)], options merged. *)
Record Call : Type := {
  call_resource : string;
  call_method : string;
  call_options : Options
}.

(** What every run of [_do(resource, method, options)] is shown to
    satisfy, [o] being the merged options and [t] the trace: the entries
    are the first one and then copies of it with [refreshOnFailure] off;
    a reactive refresh happens at most once, and never with
    [refreshOnFailure] off; every entry after the first follows a refresh;
    no proactive refresh happens under [useRefreshToken] or [noAuth];
    every entry sends at most one request. *)
Record sound_run (resource method : string) (o : Options) (t : list (Event Call))
  : Prop := {
  run_entries :
    entries t = [] \/
    exists n,
      entries t
      = {| call_resource := resource; call_method := method; call_options := o |}
        :: repeat {| call_resource := resource; call_method := method;
                     call_options := set_refreshOnFailure false o |} n;
  run_reactive :
    (count is_reactive t <= if refreshOnFailure o then 1 else 0)%nat;
  run_depth :
    (length (entries t) <= 1 + count is_refresh t)%nat;
  run_proactive :
    useRefreshToken o || noAuth o = true -> count is_proactive t = 0%nat;
  run_primary :
    (count is_primary t <= length (entries t))%nat
}.

(** The [Auth] object of [./auth], which is not part of the sources: the
    dispatcher is stated for any implementation of what it calls on it.
    [auth_refreshToken] and [auth_provider] work on the whole world and
    report the requests they sent. *)
Class Auth (A : Type) : Type := {
  auth_authedId : A -> jsval;
  auth_getAccessToken : A -> jsval;
  auth_getRefreshToken : A -> jsval;
  auth_isAccessTokenExpired : A -> bool;
  auth_clear : A -> A;
  auth_refreshToken : World A -> Outcome unit * World A * list Request;
  auth_provider : string -> jsval -> World A -> Outcome unit * World A * list Request
}.

(** What [client.js] imports from [./errors], [./common] and
    [query-string], and the arguments of the constructor. *)
Record Imports : Type := {
  ErrInvalidSession : string;
  ErrUnauthorized : string;
  JSONTYPE : string;
  makeFetchArgs : string -> option string -> FetchArgs;
  stringify : list (string * string) -> string;
  baseUrl : string;
  clientAppID : option string
}.

Section Client.
Context {A : Type} `{Auth A}.
Variable I : Imports.

Local Abbreviation Task := (@M A Call).

Definition has_clientAppID : bool :=
  match clientAppID I with
  | Some s => negb (String.eqb s "")
  | None => false
  end.

Definition appID : string := default "" (clientAppID I).

(** [this.rootURLsByAPIVersion[v][t]]. *)
Definition rootURLsByAPIVersion (v : ApiVersion) (t : string) : option string :=
  match v with
  | v2 =>
      if String.eqb t "public" then Some (baseUrl I +:+ "/api/public/v2.0")
      else if String.eqb t "client" then Some (baseUrl I +:+ "/api/client/v2.0")
      else if String.eqb t "private" then Some (baseUrl I +:+ "/api/private/v2.0")
      else if String.eqb t "app" then
        Some (if has_clientAppID
              then baseUrl I +:+ "/api/client/v2.0/app/" +:+ appID
              else baseUrl I +:+ "/api/public/v2.0")
      else None
  | v3 =>
      if String.eqb t "public" then Some (baseUrl I +:+ "/api/public/v3.0")
      else if String.eqb t "client" then Some (baseUrl I +:+ "/api/client/v3.0")
      else if String.eqb t "app" then
        Some (if has_clientAppID
              then baseUrl I +:+ "/api/client/v3.0/app/" +:+ appID
              else baseUrl I +:+ "/api/admin/v3.0")
      else None
  end.

(** The calls on [this.auth], each left in the trace. *)
Definition authedId : Task jsval :=
  wait emit (Store AuthedId) then read auth_authedId.

Definition isAccessTokenExpired : Task bool :=
  wait emit (Store IsAccessTokenExpired) then read auth_isAccessTokenExpired.

Definition getAccessToken : Task jsval :=
  wait emit (Store GetAccessToken) then read auth_getAccessToken.

Definition getRefreshToken : Task jsval :=
  wait emit (Store GetRefreshToken) then read auth_getRefreshToken.

Definition clear : Task unit :=
  wait emit (Store Clear) then write auth_clear.

Definition renewals (reqs : list Request) : list (Event Call) :=
  map (Fetch Renewal) reqs.

(** A call on the world of [this.auth], its requests left in the trace. *)
Definition on_auth {T : Type}
    (f : World A -> Outcome T * World A * list Request) : Task T :=
  fun w => let r := f w in (fst (fst r), snd (fst r), renewals (snd r)).

Definition refreshToken (why : Trigger) : Task unit :=
  wait emit (Refresh why) then on_auth auth_refreshToken.

Definition with_headers (h : list (string * string)) (a : FetchArgs) : FetchArgs :=
  {| fa_method := fa_method a; fa_headers := h; fa_body := fa_body a |}.

(** The request that [_do] builds, before the credential is attached. *)
Definition shaped_args (method : string) (options : Options) : FetchArgs :=
  let fetchArgs := makeFetchArgs I method (body options) in
  match headers options with
  | Some h => with_headers (assign (fa_headers fetchArgs) h) fetchArgs
  | None => fetchArgs
  end.

Definition target_url (resource : string) (options : Options) : string :=
  let appURL := rootURLsByAPIVersion (apiVersion options) (apiType options) in
  let url := default "undefined" appURL +:+ resource in
  match queryParams options with
  | Some q => url +:+ "?" +:+ stringify I q
  | None => url
  end.

(** ['errorCode' in json && json.errorCode === ErrInvalidSession]. *)
Definition invalid_session (j : json) : option bool :=
  match has_property "errorCode" j with
  | Some true =>
      Some (strict_eq_string (property_or_undefined "errorCode" j) (ErrInvalidSession I))
  | Some false => Some false
  | None => None
  end.

(** [new StitchError(json.error, json.errorCode)] with [response] and
    [json] set on it. *)
Definition service_error (response : Response) (j : json) : Err :=
  StitchError (property_or_undefined "error" j) (property_or_undefined "errorCode" j)
              (Some response) (Some j).

(** The handler of the response, the argument of [fetch(...).then]. *)
Definition classify (again : Task Response) (options : Options)
    (response : Response) : Task Response :=
  if is_2xx response then ret response
  else if bool_decide (contentType response = Some (JSONTYPE I)) then
    await j <- response_json response then
    match invalid_session j with
    | None => reject TypeError
    | Some true =>
        if negb (refreshOnFailure options) then
          wait clear then reject (service_error response j)
        else
          wait refreshToken Reactive then again
    | Some false => reject (service_error response j)
    end
  else reject (Error (statusText response) (Some response)).

(** The credential step of [_do]. *)
Definition authorize (options : Options) (fetchArgs : FetchArgs) : Task FetchArgs :=
  if negb (noAuth options) then
    await token <-
      (if useRefreshToken options then getRefreshToken else getAccessToken) then
    ret (with_headers
           (set_key "Authorization" ("Bearer " +:+ to_text token) (fa_headers fetchArgs))
           fetchArgs)
  else ret fetchArgs.

(** The second half of [_do]: build the request, send it, classify. *)
Definition send (again : Task Response) (resource method : string)
    (options : Options) : Task Response :=
  await fetchArgs <- authorize options (shaped_args method options) then
  await response <- fetch Primary (target_url resource options) fetchArgs then
  classify again options response.

Definition must_auth_first : Err :=
  StitchError (Some (JStr "Must auth first")) (Some (JStr (ErrUnauthorized I)))
              None undefined.

(** [_do(resource, method, options)]. The recursion of the source is not
    structural, so it is cut by [fuel]; each entry is left in the trace. *)
Fixpoint _do (fuel : nat) (resource method : string) (raw : RawOptions)
  : Task Response :=
  match fuel with
  | O => pending
  | Datatypes.S fuel' =>
      let options := assign_defaults raw in
      let again :=
        _do fuel' resource method (as_raw (set_refreshOnFailure false options)) in
      wait emit (Enter {| call_resource := resource; call_method := method;
                          call_options := options |}) then
      if negb (noAuth options) then
        await id <- authedId then
        if negb (truthy id) then reject must_auth_first
        else if negb (useRefreshToken options) then
          await expired <- isAccessTokenExpired then
          if expired then (wait refreshToken Proactive then again)
          else send again resource method options
        else send again resource method options
      else send again resource method options
  end.

(** *** The shape of a run *)

Definition entry (resource method : string) (options : Options) : Event Call :=
  Enter {| call_resource := resource; call_method := method;
           call_options := options |}.

(** The entry goes on to its request: no identity is asked for or one is
    there, and the access token is not renewed first. *)
Definition sends_primary (options : Options) (s : A) : bool :=
  noAuth options
  || (truthy (auth_authedId s)
      && (useRefreshToken options || negb (auth_isAccessTokenExpired s))).

(** The token store as the guard of such an entry uses it. *)
Definition guard_trace (options : Options) : list (Event Call) :=
  if noAuth options then []
  else if useRefreshToken options then [Store AuthedId]
  else [Store AuthedId; Store IsAccessTokenExpired].

Definition credential_trace (options : Options) : list (Event Call) :=
  if noAuth options then []
  else [Store (if useRefreshToken options then GetRefreshToken else GetAccessToken)].

Definition bearer (options : Options) (s : A) : string :=
  "Bearer " +:+ to_text (if useRefreshToken options then auth_getRefreshToken s
                         else auth_getAccessToken s).

(** The request that goes out. *)
Definition request (resource method : string) (options : Options) (s : A) : Request :=
  let fetchArgs := shaped_args method options in
  {| url := target_url resource options;
     init := if noAuth options then fetchArgs
             else with_headers
                    (set_key "Authorization" (bearer options s) (fa_headers fetchArgs))
                    fetchArgs |}.

(** [r] is a structured invalid-session error with decoded body [j]. *)
Definition invalid_session_error (r : Response) (j : json) : Prop :=
  is_2xx r = false /\ contentType r = Some (JSONTYPE I)
  /\ payload r = Some j /\ invalid_session j = Some true.

(** The same, as a test. *)
Definition signals_invalid_session (r : Response) : bool :=
  negb (is_2xx r)
  && bool_decide (contentType r = Some (JSONTYPE I))
  && match payload r with
     | Some j => match invalid_session j with Some true => true | _ => false end
     | None => false
     end.

(** The answer [r] makes a call under [options] refresh and retry. *)
Definition retries (options : Options) (r : Response) : bool :=
  refreshOnFailure options && signals_invalid_session r.

(** [r] is a structured error of another code, with decoded body [j]. *)
Definition other_service_error (r : Response) (j : json) : Prop :=
  is_2xx r = false /\ contentType r = Some (JSONTYPE I)
  /\ payload r = Some j /\ invalid_session j = Some false.

(** [r] is an error without a structured body. *)
Definition unstructured_error (r : Response) : Prop :=
  is_2xx r = false /\ contentType r <> Some (JSONTYPE I).

Definition session_options : RawOptions :=
  {| raw_refreshOnFailure := Some false; raw_useRefreshToken := Some true;
     raw_apiVersion := None; raw_apiType := None; raw_noAuth := false;
     raw_headers := None; raw_body := None; raw_queryParams := None |}.

(** [doSessionPost()]. *)
Definition doSessionPost (fuel : nat) : Task json :=
  await response <- _do fuel "/auth/session" "POST" session_options then
  response_json response.

(** [logout()]. *)
Definition logout (fuel : nat) : Task unit :=
  wait _do fuel "/auth/session" "DELETE" session_options then clear.

(** [authenticate(providerType, options)]. *)
Definition authenticate (providerType : string) (options : jsval) : Task jsval :=
  await token <- getAccessToken then
  if truthy token then authedId
  else
    wait emit (Provider providerType) then
    wait on_auth (auth_provider providerType options) then
    authedId.
End Client.
End Stitch.

(** ** The legacy client: [BaasClient] *)

Module Baas.

Definition USER_AUTH_KEY : string := "_baas_ua".
Definition REFRESH_TOKEN_KEY : string := "_baas_rt".

(** One dispatch entry:
    [_doAuthed(resource, method, body, refreshOnFailure, useRefreshToken)],
    with the two defaults filled in. *)
Record Call : Type := {
  call_resource : string;
  call_method : string;
  call_body : option string;
  call_refreshOnFailure : bool;
  call_useRefreshToken : bool
}.

(** [btoa(JSON.stringify(j))] and [JSON.parse(atob(s))], which the
    browser provides; [None]: it throws. [btoa] throws an
    [InvalidCharacterError] on a text with a character above U+00FF;
    [JSON.parse] throws a [SyntaxError]. *)
Record Codec : Type := {
  encode : json -> option string;
  decode : string -> option json
}.

(** [currAuth['accessToken'] = token] in strict mode, as [JSON.stringify]
    then sees it: an [undefined] token is dropped, and so is a property
    set on an array; [None] is the [TypeError] on anything else. *)
Definition assign_accessToken (token : jsval) (currAuth : json) : option json :=
  match currAuth with
  | JObj fields =>
      Some (JObj (match token with
                  | Some t => set_key "accessToken" t fields
                  | None => remove_key "accessToken" fields
                  end))
  | JArr items => Some (JArr items)
  | _ => None
  end.

Section Client.
Variable codec : Codec.
Variable appUrl : string.

(** [localStorage]. *)
Local Abbreviation Task := (@M (gmap string string) Call).

(** [_clearAuth()]. *)
Definition _clearAuth : Task unit :=
  write (fun localStorage : gmap string string =>
           delete REFRESH_TOKEN_KEY (delete USER_AUTH_KEY localStorage)).

(** [auth()]: [null] when nothing is stored. A stored text that does not
    decode makes it throw, which is kept as a rejection. *)
Definition auth : Task json :=
  await item <- read (fun localStorage : gmap string string =>
                        localStorage !! USER_AUTH_KEY) then
  match item with
  | None => ret JNull
  | Some s =>
      match decode codec s with
      | Some j => ret j
      | None => reject SyntaxError
      end
  end.

(** [authedId()]. *)
Definition authedId : Task jsval :=
  await a <- auth then
  match a with
  | JNull => ret (Some JNull)
  | _ =>
      match property_or_undefined "user" a with
      | None | Some JNull => reject TypeError
      | Some user => ret (property_or_undefined "_id" user)
      end
  end.

(** [_setAccessToken(token)]. [atob(null)] does not decode to JSON. When
    [btoa] throws, nothing is stored. *)
Definition _setAccessToken (token : jsval) : Task unit :=
  await item <- read (fun localStorage : gmap string string =>
                        localStorage !! USER_AUTH_KEY) then
  match item ≫= decode codec with
  | None => reject SyntaxError
  | Some currAuth =>
      match assign_accessToken token currAuth with
      | Some currAuth' =>
          match encode codec currAuth' with
          | Some text =>
              write (fun localStorage : gmap string string =>
                       <[USER_AUTH_KEY := text]> localStorage)
          | None => reject InvalidCharacterError
          end
      | None => reject TypeError
      end
  end.

(** ['errorCode' in json && json['errorCode'] == 'InvalidSession']. *)
Definition invalid_session (j : json) : option bool :=
  match has_property "errorCode" j with
  | Some true =>
      Some (loose_eq_string (property_or_undefined "errorCode" j) "InvalidSession")
  | Some false => Some false
  | None => None
  end.

Definition json_headers : list (string * string) :=
  [("Accept", "application/json"); ("Content-Type", "application/json")].

(** ['Bearer ' + localStorage.getItem(REFRESH_TOKEN_KEY)]. *)
Definition refresh_bearer : Task string :=
  await rt <- read (fun localStorage : gmap string string =>
                      localStorage !! REFRESH_TOKEN_KEY) then
  ret ("Bearer " +:+ default "null" rt).

(** The handler of the response in [_refreshToken]. *)
Definition renewed (response : Response) : Task unit :=
  if negb (status response =? 200) then
    if bool_decide (contentType response = Some "application/json") then
      await j <- response_json response then
      match invalid_session j with
      | None => reject TypeError
      | Some true => wait _clearAuth then reject (Error (js_toString j) None)
      | Some false => reject (Error (js_toString j) None)
      end
    else reject (Error (statusText response) (Some response))
  else
    await j <- response_json response then
    match property "accessToken" j with
    | None => reject TypeError
    | Some token => _setAccessToken token
    end.

(** [_refreshToken()]. *)
Definition _refreshToken : Task unit :=
  await bearer <- refresh_bearer then
  await response <-
    fetch Renewal (appUrl +:+ "/auth/newAccessToken")
          {| fa_method := "POST";
             fa_headers := json_headers ++ [("Authorization", bearer)];
             fa_body := None |} then
  renewed response.

(** [if (body) init['body'] = body]. *)
Definition init_body (body : option string) : option string :=
  match body with
  | Some s => if String.eqb s "" then None else Some s
  | None => None
  end.

(** The credential of [_doAuthed]:
    [useRefreshToken ? localStorage.getItem(REFRESH_TOKEN_KEY)
                     : this.auth()['accessToken']], after ['Bearer ']. *)
Definition authorization (useRefreshToken : bool) : Task string :=
  if useRefreshToken then refresh_bearer
  else
    await a <- auth then
    match property "accessToken" a with
    | None => reject TypeError
    | Some token => ret ("Bearer " +:+ to_text token)
    end.

(** The handler of the response, the argument of [fetch(...).then]. The
    handler of the decoded body returns nothing for an error that is
    not an invalid session, so the promise resolves with [undefined]
    ([None]). *)
Definition classify (again : Task (option Response)) (refreshOnFailure : bool)
    (response : Response) : Task (option Response) :=
  if is_2xx response then ret (Some response)
  else if bool_decide (contentType response = Some "application/json") then
    await j <- response_json response then
    match invalid_session j with
    | None => reject TypeError
    | Some true =>
        if negb refreshOnFailure then
          wait _clearAuth then reject (Error (js_toString j) None)
        else
          wait emit (Refresh Reactive) then
          wait _refreshToken then
          again
    | Some false => ret None
    end
  else reject (Error (statusText response) (Some response)).

(** [_doAuthed(resource, method, body, refreshOnFailure, useRefreshToken)];
    a missing argument is [None]. The recursion is cut by [fuel]; each
    entry and each call of [_refreshToken] is left in the trace. *)
Fixpoint _doAuthed (fuel : nat) (resource method : string) (body : option string)
    (refreshOnFailure useRefreshToken : option bool) : Task (option Response) :=
  match fuel with
  | O => pending
  | Datatypes.S fuel' =>
      let refreshOnFailure := default true refreshOnFailure in
      let useRefreshToken := default false useRefreshToken in
      wait emit (Enter {| call_resource := resource; call_method := method;
                          call_body := body;
                          call_refreshOnFailure := refreshOnFailure;
                          call_useRefreshToken := useRefreshToken |}) then
      await a <- auth then
      match a with
      | JNull => reject (Error "Must auth first" None)
      | _ =>
          await bearer <- authorization useRefreshToken then
          await response <-
            fetch Primary (appUrl +:+ resource)
                  {| fa_method := method;
                     fa_headers := json_headers ++ [("Authorization", bearer)];
                     fa_body := init_body body |} then
          classify (_doAuthed fuel' resource method body (Some false) None)
                   refreshOnFailure response
      end
  end.

(** [logout()]. *)
Definition logout (fuel : nat) : Task unit :=
  wait _doAuthed fuel "/auth" "DELETE" None (Some false) (Some true) then
  _clearAuth.

(** *** The shape of a run *)

Definition entry (resource method : string) (body : option string)
    (refreshOnFailure useRefreshToken : bool) : Event Call :=
  Enter {| call_resource := resource; call_method := method; call_body := body;
           call_refreshOnFailure := refreshOnFailure;
           call_useRefreshToken := useRefreshToken |}.

(** The stored session decodes to [a], which is not [null]. *)
Definition signed_in (localStorage : gmap string string) (a : json) : Prop :=
  (localStorage !! USER_AUTH_KEY) ≫= decode codec = Some a /\ a <> JNull.

(** Nothing is stored, or what is stored decodes to [null]. *)
Definition signed_out (localStorage : gmap string string) : Prop :=
  match localStorage !! USER_AUTH_KEY with
  | None => True
  | Some s => decode codec s = Some JNull
  end.

Definition cleared (localStorage : gmap string string) : gmap string string :=
  delete REFRESH_TOKEN_KEY (delete USER_AUTH_KEY localStorage).

Definition invalid_session_error (r : Response) (j : json) : Prop :=
  contentType r = Some "application/json"
  /\ payload r = Some j /\ invalid_session j = Some true.

Definition other_service_error (r : Response) (j : json) : Prop :=
  contentType r = Some "application/json"
  /\ payload r = Some j /\ invalid_session j = Some false.

(** [invalid_session_error], as a test. *)
Definition signals_invalid_session (r : Response) : bool :=
  bool_decide (contentType r = Some "application/json")
  && match payload r with
     | Some j => match invalid_session j with Some true => true | _ => false end
     | None => false
     end.

(** The answer [r] makes a call of [_doAuthed] refresh and retry. *)
Definition retries (refreshOnFailure : bool) (r : Response) : bool :=
  refreshOnFailure && negb (is_2xx r) && signals_invalid_session r.

Definition bearer (useRefreshToken : bool) (localStorage : gmap string string)
    (a : json) : string :=
  if useRefreshToken
  then "Bearer " +:+ default "null" (localStorage !! REFRESH_TOKEN_KEY)
  else "Bearer " +:+ to_text (property_or_undefined "accessToken" a).

(** The request that goes out. *)
Definition request (resource method : string) (body : option string)
    (useRefreshToken : bool) (localStorage : gmap string string) (a : json) : Request :=
  {| url := appUrl +:+ resource;
     init := {| fa_method := method;
                fa_headers :=
                  json_headers ++ [("Authorization", bearer useRefreshToken localStorage a)];
                fa_body := init_body body |} |}.

Definition renewal_request (localStorage : gmap string string) : Request :=
  {| url := appUrl +:+ "/auth/newAccessToken";
     init := {| fa_method := "POST";
                fa_headers :=
                  json_headers
                  ++ [("Authorization",
                       "Bearer " +:+ default "null" (localStorage !! REFRESH_TOKEN_KEY))];
                fa_body := None |} |}.
End Client.
End Baas.

(** ** A token store for the current client, after the specification *)

Module SpecAuth.
Import Stitch.

(** Modelled from the spec: the Session of the data model, which
    [./auth] keeps and which is not part of the sources. *)
Record Session : Type := {
  accessToken : option string;
  refreshToken : option string;
  userId : option string
}.

(** Modelled from the spec: the Token Store of [./auth], holding the
    session, absent when unauthenticated, next to the clock it compares
    expiry claims with. *)
Record TokenStore : Type := {
  session : option Session;
  now : Z
}.

Section Instance.
(** The expiry claim embedded in an access token, [None] when the token
    does not decode; the codec is an external collaborator. *)
Variable expiry_claim : string -> option Z.
Variable I : Imports.

(** Modelled from the spec: the contract of the Token Store, [get()],
    [set(session)] and [clear()], which [./auth] implements. *)
Definition get (s : TokenStore) : option Session := session s.

Definition set (v : Session) (s : TokenStore) : TokenStore :=
  {| session := Some v; now := now s |}.

Definition clear (s : TokenStore) : TokenStore :=
  {| session := None; now := now s |}.

Definition text (o : option string) : jsval := JStr <$> o.

(** A field of the session, missing when there is no session. *)
Definition field (f : Session -> option string) (s : TokenStore) : option string :=
  match get s with
  | Some v => f v
  | None => None
  end.

(** Modelled from the spec: [isAccessTokenExpired] decodes the expiry
    claim of the access token and compares it with the current time;
    an undecodable or missing token is treated as expired. *)
Definition isAccessTokenExpired (s : TokenStore) : bool :=
  match field accessToken s with
  | Some token =>
      match expiry_claim token with
      | Some expiry => expiry <=? now s
      | None => true
      end
  | None => true
  end.

Definition set_accessToken (token : option string) (s : TokenStore) : TokenStore :=
  match get s with
  | Some v => set {| accessToken := token; refreshToken := refreshToken v;
                     userId := userId v |} s
  | None => s
  end.

Definition token_of (j : json) : option string :=
  match property_or_undefined "accessToken" j with
  | Some (JStr t) => Some t
  | _ => None
  end.

Definition authUrl : string :=
  if has_clientAppID I
  then baseUrl I +:+ "/api/client/v2.0/app/" +:+ appID I +:+ "/auth"
  else baseUrl I +:+ "/api/admin/v3.0/auth".

Definition renewal_request (w : World TokenStore) : Request :=
  {| url := authUrl +:+ "/session";
     init := {| fa_method := "POST";
                fa_headers :=
                  [("Authorization",
                    "Bearer " +:+ to_text (text (field refreshToken (store w))))];
                fa_body := None |} |}.

(** Modelled from the spec: [refreshAccessToken] sends one request, with
    the refresh token as bearer, to the token-renewal endpoint. On
    success only the access token of the stored session is replaced; on
    an invalid-session answer the whole session is cleared before the
    error is passed on; any other failure is passed on unchanged. *)
Definition refreshAccessToken (w : World TokenStore)
  : Outcome unit * World TokenStore * list Request :=
  let w' := next_request w in
  match net w (sent w) with
  | Fails reason => (Rejected (TransportFailure reason), w', [renewal_request w])
  | Responds r =>
      if is_2xx r then
        match payload r with
        | Some j =>
            (Resolved tt, with_store (set_accessToken (token_of j) (store w')) w',
             [renewal_request w])
        | None => (Rejected SyntaxError, w', [renewal_request w])
        end
      else if bool_decide (contentType r = Some (JSONTYPE I)) then
        match payload r with
        | Some j =>
            match invalid_session I j with
            | Some true =>
                (Rejected (service_error r j), with_store (clear (store w')) w',
                 [renewal_request w])
            | Some false => (Rejected (service_error r j), w', [renewal_request w])
            | None => (Rejected TypeError, w', [renewal_request w])
            end
        | None => (Rejected SyntaxError, w', [renewal_request w])
        end
      else (Rejected (Error (statusText r) (Some r)), w', [renewal_request w])
  end.

(** Modelled from the spec: the authentication providers of [./auth] are
    outside its scope; here asking for one fails. *)
Definition no_provider (providerType : string) (options : jsval)
    (w : World TokenStore) : Outcome unit * World TokenStore * list Request :=
  (Rejected (StitchError (Some (JStr ("Invalid auth provider specified: " +:+ providerType)))
                         undefined None undefined), w, []).

#[export] Instance spec_auth : Auth TokenStore := {|
  auth_authedId := fun s => text (field userId s);
  auth_getAccessToken := fun s => text (field accessToken s);
  auth_getRefreshToken := fun s => text (field refreshToken s);
  auth_isAccessTokenExpired := isAccessTokenExpired;
  auth_clear := clear;
  auth_refreshToken := refreshAccessToken;
  auth_provider := no_provider
|}.
End Instance.
End SpecAuth.

(** ** Concrete clients, services and sessions *)

Module Fixtures.
Import Stitch.

Definition imports : Imports :=
  {| ErrInvalidSession := "InvalidSession";
     ErrUnauthorized := "Unauthorized";
     JSONTYPE := "application/json";
     makeFetchArgs := fun method body =>
       {| fa_method := method;
          fa_headers := [("Accept", "application/json");
                         ("Content-Type", "application/json")];
          fa_body := body |};
     stringify := fun q =>
       fold_right (fun kv acc => fst kv +:+ "=" +:+ snd kv +:+ "&" +:+ acc) "" q;
     baseUrl := "https://stitch.example";
     clientAppID := Some "app1" |}.

(** Tokens [A1] (expiry 100), [A2] (expiry 2000); anything else does not
    decode. *)
Definition expiry_claim (t : string) : option Z :=
  if String.eqb t "A1" then Some 100
  else if String.eqb t "A2" then Some 2000
  else None.

#[export] Instance auth : Auth SpecAuth.TokenStore :=
  SpecAuth.spec_auth expiry_claim imports.

Definition session (a : string) : SpecAuth.TokenStore :=
  {| SpecAuth.session :=
       Some {| SpecAuth.accessToken := Some a; SpecAuth.refreshToken := Some "R1";
               SpecAuth.userId := Some "u1" |};
     SpecAuth.now := 1000 |}.

Definition no_session : SpecAuth.TokenStore :=
  {| SpecAuth.session := None; SpecAuth.now := 1000 |}.

Definition ok (j : json) : FetchResult :=
  Responds {| status := 200; statusText := "OK";
              contentType := Some "application/json"; payload := Some j |}.

Definition json_error (st : Z) (code : string) : FetchResult :=
  Responds {| status := st; statusText := "Error";
              contentType := Some "application/json";
              payload := Some (JObj [("error", JStr "rejected"); ("errorCode", JStr code)]) |}.

Definition plain_error (st : Z) (txt : string) : FetchResult :=
  Responds {| status := st; statusText := txt;
              contentType := Some "text/plain"; payload := None |}.

(** A stored session of the legacy client. *)
Definition user_auth (a : string) : json :=
  JObj [("accessToken", JStr a); ("user", JObj [("_id", JStr "u1")])].

(** A text that [btoa] refuses: it holds a character above U+00FF, which
    in the UTF-8 of the text begins with a byte from 196 on. *)
Definition above_latin1 (s : string) : bool :=
  existsb (fun c => (196 <=? Ascii.nat_of_ascii c)%nat) (String.list_ascii_of_string s).

(** A codec for such sessions: the stored text is the access token after
    [ua:], and a token that [btoa] refuses is not encoded. *)
Definition codec : Baas.Codec :=
  {| Baas.encode := fun j =>
       let a := to_text (property_or_undefined "accessToken" j) in
       if above_latin1 a then None else Some ("ua:" +:+ a);
     Baas.decode := fun s =>
       if String.prefix "ua:" s
       then Some (user_auth (String.substring 3 (String.length s - 3) s))
       else None |}.

Definition localStorage (a : string) : gmap string string :=
  <[Baas.USER_AUTH_KEY := "ua:" +:+ a]>
    (<[Baas.REFRESH_TOKEN_KEY := "R1"]> ∅).

Definition invalid_session_body : json :=
  JObj [("error", JStr "rejected"); ("errorCode", JStr "InvalidSession")].

Definition invalid_session_answer : Response :=
  {| status := 401; statusText := "Error";
     contentType := Some "application/json";
     payload := Some invalid_session_body |}.

Definition bad_request_body : json :=
  JObj [("error", JStr "rejected"); ("errorCode", JStr "BadRequest")].

Definition bad_request_answer : Response :=
  {| status := 400; statusText := "Error";
     contentType := Some "application/json";
     payload := Some bad_request_body |}.

(** The answer of the token-renewal endpoint that hands out [token]. *)
Definition renewal (token : string) : FetchResult :=
  ok (JObj [("accessToken", JStr token)]).

(** Options of a caller: [{refreshOnFailure: false}], [{noAuth: true}] and
    [{noAuth: true, headers: {Authorization: 'Bearer mine'}}]. *)
Definition refresh_off : RawOptions :=
  {| raw_refreshOnFailure := Some false; raw_useRefreshToken := None;
     raw_apiVersion := None; raw_apiType := None; raw_noAuth := false;
     raw_headers := None; raw_body := None; raw_queryParams := None |}.

Definition no_auth : RawOptions :=
  {| raw_refreshOnFailure := None; raw_useRefreshToken := None;
     raw_apiVersion := None; raw_apiType := None; raw_noAuth := true;
     raw_headers := None; raw_body := None; raw_queryParams := None |}.

Definition no_auth_own_header : RawOptions :=
  {| raw_refreshOnFailure := None; raw_useRefreshToken := None;
     raw_apiVersion := None; raw_apiType := None; raw_noAuth := true;
     raw_headers := Some [("Authorization", "Bearer mine")];
     raw_body := None; raw_queryParams := None |}.

Definition legacyUrl : string := "https://baas.example".

(** A service that gives the listed answers in order and then fails. *)
Definition script (answers : list FetchResult) : nat -> FetchResult :=
  fun n => nth n answers (Fails "no answer").

Definition world {S : Type} (s : S) (answers : list FetchResult) : World S :=
  {| store := s; net := script answers; sent := 0 |}.
End Fixtures.

(** ** The current client: the calls built on the dispatcher *)

Module StitchApi.
Import Stitch.

Section Client.
Context {A : Type} `{Auth A}.
Variable I : Imports.

Local Abbreviation Task := (@M A Call).

(** [this.authUrl], as the constructor sets it. *)
Definition authUrl : string :=
  if has_clientAppID I
  then baseUrl I +:+ "/api/client/v2.0/app/" +:+ appID I +:+ "/auth"
  else baseUrl I +:+ "/api/admin/v3.0/auth".

(** [login(email, password, options)]; [options] is the object the caller
    passed, [{}] by default. *)
Definition login (email password : jsval) (options : list (string * json)) : Task jsval :=
  match email, password with
  | Some e, Some p =>
      authenticate "userpass"
                   (Some (JObj (assign [("username", e); ("password", p)] options)))
  | _, _ => authenticate "anon" (Some (JObj options))
  end.

(** [userProfile()]. *)
Definition userProfile (fuel : nat) : Task json :=
  await response <- _do I fuel "/auth/me" "GET" no_options then
  response_json response.
End Client.
End StitchApi.

(** ** The legacy client: the calls built on the dispatcher *)

Module BaasApi.
Import Baas.

(** An object literal as [JSON.stringify] sees it: a property whose value
    is [undefined] is left out. *)
Definition object (fields : list (string * jsval)) : json :=
  JObj (flat_map (fun kv => match snd kv with
                            | Some v => [(fst kv, v)]
                            | None => []
                            end) fields).

(** [o[k] = v] on an object that is then serialized. *)
Definition set_field (k : string) (v : jsval) (o : list (string * json))
  : list (string * json) :=
  match v with
  | Some j => set_key k j o
  | None => remove_key k o
  end.

(** [delete json['refreshToken']]. *)
Definition without_refreshToken (j : json) : json :=
  match j with
  | JObj fields => JObj (remove_key "refreshToken" fields)
  | _ => j
  end.

(** The [DB] and [Collection] objects, as far as the pipeline stages read
    them. *)
Record DB : Type := {
  db_service : string;
  db_name : string
}.

Record Collection : Type := {
  db : DB;
  name : string
}.

(** [MongoClient.getDb(name)] and [DB.getCollection(name)]. *)
Definition getDb (service dbName : string) : DB :=
  {| db_service := service; db_name := dbName |}.

Definition getCollection (d : DB) (collName : string) : Collection :=
  {| db := d; name := collName |}.

(** [getBaseArgs()]. *)
Definition getBaseArgs (c : Collection) : list (string * json) :=
  [("database", JStr (db_name (db c))); ("collection", JStr (name c))].

Definition stage (service action : string) (args : list (string * json)) : json :=
  JObj [("service", JStr service); ("action", JStr action); ("args", JObj args)].

(** The pipelines that [deleteOne], [deleteMany], [find] and [insert] hand
    to [executePipeline]. *)
Definition deleteOne_pipeline (c : Collection) (query : jsval) : list json :=
  [stage (db_service (db c)) "delete"
         (set_key "singleDoc" (JBool true) (set_field "query" query (getBaseArgs c)))].

Definition deleteMany_pipeline (c : Collection) (query : jsval) : list json :=
  [stage (db_service (db c)) "delete"
         (set_key "singleDoc" (JBool false) (set_field "query" query (getBaseArgs c)))].

Definition find_pipeline (c : Collection) (query project : jsval) : list json :=
  [stage (db_service (db c)) "find"
         (set_field "project" project (set_field "query" query (getBaseArgs c)))].

Definition insert_pipeline (c : Collection) (documents : jsval) : list json :=
  [JObj [("action", JStr "literal"); ("args", object [("items", documents)])];
   stage (db_service (db c)) "insert" (getBaseArgs c)].

(** [makeUpdateStage(query, update, upsert, multi)]. *)
Definition makeUpdateStage (c : Collection) (query update upsert multi : jsval) : json :=
  let args := set_field "update" update (set_field "query" query (getBaseArgs c)) in
  let args := if truthy upsert then set_key "upsert" (JBool true) args else args in
  let args := if truthy multi then set_key "multi" (JBool true) args else args in
  stage (db_service (db c)) "update" args.

(** The pipelines of [updateOne(query, update)],
    [updateMany(query, update, upsert, multi)] and [upsert(query, update)]. *)
Definition updateOne_pipeline (c : Collection) (query update : jsval) : list json :=
  [makeUpdateStage c query update (Some (JBool false)) (Some (JBool false))].

Definition updateMany_pipeline (c : Collection) (query update upsert multi : jsval)
  : list json :=
  [makeUpdateStage c query update (Some (JBool false)) (Some (JBool true))].

Definition upsert_pipeline (c : Collection) (query update : jsval) : list json :=
  [makeUpdateStage c query update (Some (JBool true)) (Some (JBool false))].

(** [stage.args[k]] of a stage as it is serialized, [undefined] when the
    stage has no arguments. *)
Definition arg (k : string) (stage : json) : jsval :=
  match property_or_undefined "args" stage with
  | Some args => property_or_undefined k args
  | None => undefined
  end.

(** The resources of the admin API and what can be asked of them: the
    chain [apps().app(a).services().service(s).rules().rule(r)] is
    [Rule a s r], and its leaves [list], [create(data)], [get], [remove],
    [update(data)] and [setConfig(data)] are the actions. *)
Inductive Resource : Type :=
| Apps
| App (a : string)
| AuthProviders (a : string)
| AuthProvider (a authType authName : string)
| Variables (a : string)
| Variable_ (a varName : string)
| Services (a : string)
| Service (a svc : string)
| Rules (a svc : string)
| Rule (a svc ruleId : string)
| Triggers (a svc : string)
| Trigger (a svc triggerId : string).

Inductive Action : Type :=
| List
| Create (data : jsval)
| Get
| Remove
| Update (data : jsval)
| SetConfig (data : jsval).

(** The URL that a leaf of the resource builds. *)
Definition path (r : Resource) : string :=
  match r with
  | Apps => "/apps"
  | App a => "/apps/" +:+ a
  | AuthProviders a => "/apps/" +:+ a +:+ "/authProviders"
  | AuthProvider a t n => "/apps/" +:+ a +:+ "/authProviders/" +:+ t +:+ "/" +:+ n
  | Variables a => "/apps/" +:+ a +:+ "/vars"
  | Variable_ a v => "/apps/" +:+ a +:+ "/vars/" +:+ v
  | Services a => "/apps/" +:+ a +:+ "/services"
  | Service a s => "/apps/" +:+ a +:+ "/services/" +:+ s
  | Rules a s => "/apps/" +:+ a +:+ "/services/" +:+ s +:+ "/rules"
  | Rule a s r => "/apps/" +:+ a +:+ "/services/" +:+ s +:+ "/rules/" +:+ r
  | Triggers a s => "/apps/" +:+ a +:+ "/services/" +:+ s +:+ "/triggers"
  | Trigger a s t => "/apps/" +:+ a +:+ "/services/" +:+ s +:+ "/triggers/" +:+ t
  end.

(** The call of [_get], [_delete] or [_post] that a leaf makes: the
    method, the URL and the data; [None] when the resource has no such
    leaf. *)
Definition leaf (r : Resource) (act : Action) : option (string * string * jsval) :=
  match r, act with
  | Apps, List => Some ("GET", path r, undefined)
  | Apps, Create data => Some ("POST", path r, data)
  | App _, Get => Some ("GET", path r, undefined)
  | App _, Remove => Some ("DELETE", path r, undefined)
  | AuthProviders _, Create data => Some ("POST", path r, data)
  | AuthProviders _, List => Some ("GET", path r, undefined)
  | AuthProvider _ _ _, Get => Some ("GET", path r, undefined)
  | AuthProvider _ _ _, Remove => Some ("DELETE", path r, undefined)
  | AuthProvider _ _ _, Update data => Some ("POST", path r, data)
  | Variables _, List => Some ("GET", path r, undefined)
  | Variables _, Create data => Some ("POST", path r, data)
  | Variable_ _ _, Get => Some ("GET", path r, undefined)
  | Variable_ _ _, Remove => Some ("DELETE", path r, undefined)
  | Variable_ _ _, Update data => Some ("POST", path r, data)
  | Services _, List => Some ("GET", path r, undefined)
  | Services _, Create data => Some ("POST", path r, data)
  | Service _ _, Get => Some ("GET", path r, undefined)
  | Service _ _, Update data => Some ("POST", path r, data)
  | Service _ _, Remove => Some ("DELETE", path r, undefined)
  | Service _ _, SetConfig data => Some ("POST", path r +:+ "/config", data)
  | Rules _ _, List => Some ("GET", path r, undefined)
  | Rules _ _, Create _ => Some ("POST", path r, undefined)
  | Rule _ _ _, Get => Some ("GET", path r, undefined)
  | Rule _ _ _, Update data => Some ("POST", path r, data)
  | Rule _ _ _, Remove => Some ("DELETE", path r, undefined)
  | Triggers _ _, List => Some ("GET", path r, undefined)
  | Triggers _ _, Create _ => Some ("POST", path r, undefined)
  | Trigger _ _ _, Get => Some ("GET", path r, undefined)
  | Trigger _ _ _, Update data => Some ("POST", path r, data)
  | Trigger _ _ _, Remove => Some ("DELETE", path r, undefined)
  | _, _ => None
  end.

Section Client.
Variable codec : Codec.
(** [JSON.stringify], on a value that is not [undefined]. *)
Variable JSON_stringify : json -> string.
Variable appUrl : string.

Local Abbreviation Task := (@M (gmap string string) Call).

(** [checkStatus(response)], as a handler of what [_doAuthed] resolved
    with: reading [status] off [undefined] is a [TypeError]. *)
Definition checkStatus (response : option Response) : Task Response :=
  match response with
  | None => reject TypeError
  | Some r =>
      if is_2xx r then ret r
      else reject (Error (statusText r) (Some r))
  end.

(** [executePipeline(stages)]. *)
Definition executePipeline (fuel : nat) (stages : list json) : Task json :=
  await response <-
    _doAuthed codec appUrl fuel "/pipeline" "POST"
              (Some (JSON_stringify (JArr stages))) None None then
  await response <- checkStatus response then
  response_json response.

(** [_setAuth(json)]: the refresh token is taken out of the object, the
    rest is stored encoded, and the token is stored as text. When [btoa]
    throws, it does so before anything is stored. *)
Definition _setAuth (j : json) : Task unit :=
  match property "refreshToken" j with
  | None => reject TypeError
  | Some rt =>
      match encode codec (without_refreshToken j) with
      | Some text =>
          write (fun localStorage : gmap string string =>
                   <[REFRESH_TOKEN_KEY := to_text rt]>
                     (<[USER_AUTH_KEY := text]> localStorage))
      | None => reject InvalidCharacterError
      end
  end.

(** [authWithLocal(username, password, cors)]. The key [cors] that it may
    add to the arguments of [fetch] is not one that a request has, and is
    not kept. *)
Definition authWithLocal (username password : jsval) : Task unit :=
  await response <-
    fetch Primary ((appUrl +:+ "/auth") +:+ "/local/userpass")
          {| fa_method := "POST";
             fa_headers := json_headers;
             fa_body := Some (JSON_stringify (object [("username", username);
                                                      ("password", password)])) |} then
  await response <- checkStatus (Some response) then
  await j <- response_json response then
  _setAuth j.

(** The collection methods. *)
Definition deleteOne (fuel : nat) (c : Collection) (query : jsval) : Task json :=
  executePipeline fuel (deleteOne_pipeline c query).

Definition deleteMany (fuel : nat) (c : Collection) (query : jsval) : Task json :=
  executePipeline fuel (deleteMany_pipeline c query).

Definition find (fuel : nat) (c : Collection) (query project : jsval) : Task json :=
  executePipeline fuel (find_pipeline c query project).

Definition insert (fuel : nat) (c : Collection) (documents : jsval) : Task json :=
  executePipeline fuel (insert_pipeline c documents).

Definition updateOne (fuel : nat) (c : Collection) (query update : jsval) : Task json :=
  executePipeline fuel (updateOne_pipeline c query update).

Definition updateMany (fuel : nat) (c : Collection) (query update upsert multi : jsval)
  : Task json :=
  executePipeline fuel (updateMany_pipeline c query update upsert multi).

Definition upsert (fuel : nat) (c : Collection) (query update : jsval) : Task json :=
  executePipeline fuel (upsert_pipeline c query update).

(** [Admin._doAuthed(url, method, data)]; [JSON.stringify(undefined)] is
    [undefined]. The admin client dispatches through a [BaasClient] of its
    base URL. *)
Definition admin_doAuthed (fuel : nat) (url method : string) (data : jsval) : Task json :=
  await response <-
    _doAuthed codec appUrl fuel url method (JSON_stringify <$> data) None None then
  await response <- checkStatus response then
  response_json response.

(** A leaf of the admin resource tree; a leaf that the resource does not
    have is not a function. *)
Definition admin (fuel : nat) (r : Resource) (act : Action) : Task json :=
  match leaf r act with
  | Some (method, url, data) => admin_doAuthed fuel url method data
  | None => reject TypeError
  end.
End Client.
End BaasApi.

(** ** Samples for the calls built on the dispatchers *)

Module Samples.
Import Fixtures BaasApi.

Definition quote : string := String (Ascii.ascii_of_nat 34) EmptyString.

(** A serializer for the values of the samples, whose texts need no
    escape. *)
Fixpoint show (j : json) : string :=
  match j with
  | JNull => "null"
  | JBool true => "true"
  | JBool false => "false"
  | JNum repr => repr
  | JStr s => quote +:+ s +:+ quote
  | JArr items =>
      "[" +:+ (fix elements (l : list json) : string :=
                 match l with
                 | [] => ""
                 | x :: rest =>
                     match rest with
                     | [] => show x
                     | _ :: _ => show x +:+ "," +:+ elements rest
                     end
                 end) items +:+ "]"
  | JObj fields =>
      "{" +:+ (fix members (l : list (string * json)) : string :=
                 match l with
                 | [] => ""
                 | (k, v) :: rest =>
                     match rest with
                     | [] => quote +:+ k +:+ quote +:+ ":" +:+ show v
                     | _ :: _ =>
                         quote +:+ k +:+ quote +:+ ":" +:+ show v +:+ "," +:+ members rest
                     end
                 end) fields +:+ "}"
  end.

(** What the service hands out on a sign-in. *)
Definition signed_in_body : json :=
  JObj [("accessToken", JStr "A1"); ("user", JObj [("_id", JStr "u1")]);
        ("refreshToken", JStr "R1")].

(** The euro sign, U+20AC, in UTF-8, and a sign-in answer whose access
    token holds it. *)
Definition euro : string :=
  String (Ascii.ascii_of_nat 226)
         (String (Ascii.ascii_of_nat 130) (String (Ascii.ascii_of_nat 172) EmptyString)).

Definition euro_body : json :=
  JObj [("accessToken", JStr ("A" +:+ euro)); ("user", JObj [("_id", JStr "u1")]);
        ("refreshToken", JStr "R1")].

Definition todos : Collection := getCollection (getDb "mdb1" "planner") "todos".

(** An error that announces JSON and whose body does not parse, and one
    whose body is [null]. *)
Definition unparsable_error : Response :=
  {| status := 502; statusText := "Bad Gateway";
     contentType := Some "application/json"; payload := None |}.

Definition null_error : Response :=
  {| status := 500; statusText := "Internal Server Error";
     contentType := Some "application/json"; payload := Some JNull |}.

(** Options of a caller: headers of their own, an [Authorization] among
    them. *)
Definition own_headers : Stitch.RawOptions :=
  {| Stitch.raw_refreshOnFailure := None; Stitch.raw_useRefreshToken := None;
     Stitch.raw_apiVersion := None; Stitch.raw_apiType := None;
     Stitch.raw_noAuth := false;
     Stitch.raw_headers := Some [("Authorization", "Bearer mine");
                                 ("Accept", "text/plain")];
     Stitch.raw_body := None; Stitch.raw_queryParams := None |}.
End Samples.

(** * Properties *)

(** ** Promise chains *)

Section PromiseFacts.
Context {S C : Type}.

Local Abbreviation Task := (@M S C).

Lemma after_nil {T : Type} (r : Outcome T * World S * list (Event C)) :
  after [] r = r.
Proof. destruct r as [[o w] t]. reflexivity. Qed.

Lemma after_after {T : Type} (t1 t2 : list (Event C))
    (r : Outcome T * World S * list (Event C)) :
  after t1 (after t2 r) = after (t1 ++ t2) r.
Proof. unfold after. simpl. now rewrite app_assoc. Qed.

Lemma outcome_after {T : Type} (t : list (Event C))
    (r : Outcome T * World S * list (Event C)) :
  outcome (after t r) = outcome r.
Proof. reflexivity. Qed.

Lemma final_after {T : Type} (t : list (Event C))
    (r : Outcome T * World S * list (Event C)) :
  final (after t r) = final r.
Proof. reflexivity. Qed.

Lemma trace_after {T : Type} (t : list (Event C))
    (r : Outcome T * World S * list (Event C)) :
  trace (after t r) = t ++ trace r.
Proof. reflexivity. Qed.

Lemma bind_emit {T : Type} (e : Event C) (k : Task T) (w : World S) :
  (wait emit e then k) w = after [e] (k w).
Proof. reflexivity. Qed.

Lemma bind_ret {T U : Type} (v : T) (k : T -> Task U) (w : World S) :
  (await x <- ret v then k x) w = k v w.
Proof. unfold bind, ret. apply after_nil. Qed.

Lemma bind_read {T U : Type} (f : S -> T) (k : T -> Task U) (w : World S) :
  (await x <- read f then k x) w = k (f (store w)) w.
Proof. unfold bind, read. apply after_nil. Qed.

Lemma bind_reject {T U : Type} (e : Err) (k : T -> Task U) (w : World S) :
  (await x <- reject e then k x) w = (Rejected e, w, []).
Proof. reflexivity. Qed.

Lemma bind_resolved {T U : Type} (m : Task T) (k : T -> Task U) (w w1 : World S)
    (v : T) (t1 : list (Event C)) :
  m w = (Resolved v, w1, t1) -> (await x <- m then k x) w = after t1 (k v w1).
Proof. intros E. unfold bind. now rewrite E. Qed.

Lemma bind_rejected {T U : Type} (m : Task T) (k : T -> Task U) (w w1 : World S)
    (e : Err) (t1 : list (Event C)) :
  m w = (Rejected e, w1, t1) -> (await x <- m then k x) w = (Rejected e, w1, t1).
Proof. intros E. unfold bind. now rewrite E. Qed.

Lemma bind_fetch {U : Type} (who : Origin) (u : string) (a : FetchArgs)
    (k : Response -> Task U) (w : World S) :
  (await response <- fetch who u a then k response) w
  = match net w (sent w) with
    | Responds r => after [Fetch who {| url := u; init := a |}] (k r (next_request w))
    | Fails reason =>
        (Rejected (TransportFailure reason), next_request w,
         [Fetch who {| url := u; init := a |}])
    end.
Proof. unfold bind, fetch. destruct (net w (sent w)); reflexivity. Qed.

Lemma bind_bind {T U V : Type} (m : Task T) (k : T -> Task U) (h : U -> Task V) (w : World S) :
  (await y <- (await x <- m then k x) then h y) w
  = (await x <- m then await y <- k x then h y) w.
Proof.
  unfold bind. destruct (m w) as [[[v | e |] w1] t1]; try reflexivity.
  unfold after. simpl.
  destruct (k v w1) as [[[u | e |] w2] t2]; simpl; try reflexivity.
  destruct (h u w2) as [[o w3] t3]. simpl. now rewrite app_assoc.
Qed.

Lemma count_app (p : Event C -> bool) (t1 t2 : list (Event C)) :
  count p (t1 ++ t2) = (count p t1 + count p t2)%nat.
Proof. unfold count. now rewrite List.filter_app, List.length_app. Qed.

Lemma count_cons (p : Event C -> bool) (e : Event C) (t : list (Event C)) :
  count p (e :: t) = ((if p e then 1 else 0) + count p t)%nat.
Proof. unfold count. simpl. now destruct (p e). Qed.

Lemma count_nil (p : Event C -> bool) : count p [] = 0%nat.
Proof. reflexivity. Qed.

Lemma count_refresh_split (t : list (Event C)) :
  count is_refresh t = (count is_proactive t + count is_reactive t)%nat.
Proof.
  induction t as [| e t IH]; [reflexivity |].
  rewrite !count_cons, IH. destruct e as [| | [|] | |]; simpl; lia.
Qed.

Lemma entries_cons (e : Event C) (t : list (Event C)) :
  entries (e :: t) = match e with Enter c => c :: entries t | _ => entries t end.
Proof. now destruct e. Qed.

Lemma entries_nil : entries ([] : list (Event C)) = [].
Proof. reflexivity. Qed.

Lemma entries_app (t1 t2 : list (Event C)) :
  entries (t1 ++ t2) = entries t1 ++ entries t2.
Proof. unfold entries. apply flat_map_app. Qed.
End PromiseFacts.

(** ** The current client, step by step *)

Section StitchSteps.
Import Stitch.
Context {A : Type} `{Auth A}.
Variable I : Imports.

Local Abbreviation Task := (@M A Call).

Lemma assign_defaults_as_raw (o : Options) : assign_defaults (as_raw o) = o.
Proof. destruct o; reflexivity. Qed.

Lemma refreshToken_then {T : Type} (why : Trigger) (k : Task T) (w : World A) :
  (wait refreshToken why then k) w
  = match auth_refreshToken w with
    | (Resolved _, w1, reqs) => after (Refresh why :: renewals reqs) (k w1)
    | (Rejected e, w1, reqs) => (Rejected e, w1, Refresh why :: renewals reqs)
    | (Pending, w1, reqs) => (Pending, w1, Refresh why :: renewals reqs)
    end.
Proof.
  unfold refreshToken, bind, emit, on_auth. simpl.
  destruct (auth_refreshToken w) as [[[u | e |] w1] reqs]; reflexivity.
Qed.

Lemma classify_ok (again : Task Response) (o : Options) (r : Response) (w : World A) :
  is_2xx r = true -> classify I again o r w = (Resolved r, w, []).
Proof. intros E. unfold classify. now rewrite E. Qed.

Lemma classify_invalid_terminal (again : Task Response) (o : Options)
    (r : Response) (j : json) (w : World A) :
  invalid_session_error I r j -> refreshOnFailure o = false ->
  classify I again o r w
  = (Rejected (service_error r j), with_store (auth_clear (store w)) w, [Store Clear]).
Proof.
  intros (E1 & E2 & E3 & E4) F. unfold classify, response_json.
  rewrite E1, E2, E3, bool_decide_eq_true_2 by reflexivity.
  rewrite bind_ret, E4, F. reflexivity.
Qed.

Lemma classify_invalid_retry (again : Task Response) (o : Options)
    (r : Response) (j : json) (w : World A) :
  invalid_session_error I r j -> refreshOnFailure o = true ->
  classify I again o r w = (wait refreshToken Reactive then again) w.
Proof.
  intros (E1 & E2 & E3 & E4) F. unfold classify, response_json.
  rewrite E1, E2, E3, bool_decide_eq_true_2 by reflexivity.
  rewrite bind_ret, E4, F. reflexivity.
Qed.

Lemma classify_other (again : Task Response) (o : Options)
    (r : Response) (j : json) (w : World A) :
  other_service_error I r j ->
  classify I again o r w = (Rejected (service_error r j), w, []).
Proof.
  intros (E1 & E2 & E3 & E4). unfold classify, response_json.
  rewrite E1, E2, E3, bool_decide_eq_true_2 by reflexivity.
  rewrite bind_ret, E4. reflexivity.
Qed.

Lemma classify_unstructured (again : Task Response) (o : Options)
    (r : Response) (w : World A) :
  unstructured_error I r ->
  classify I again o r w = (Rejected (Error (statusText r) (Some r)), w, []).
Proof.
  intros (E1 & E2). unfold classify.
  rewrite E1, bool_decide_eq_false_2 by assumption. reflexivity.
Qed.

Lemma send_eq (again : Task Response) (res meth : string) (o : Options) (w : World A) :
  send I again res meth o w
  = match net w (sent w) with
    | Responds r =>
        after (credential_trace o ++ [Fetch Primary (request I res meth o (store w))])
              (classify I again o r (next_request w))
    | Fails reason =>
        (Rejected (TransportFailure reason), next_request w,
         credential_trace o ++ [Fetch Primary (request I res meth o (store w))])
    end.
Proof.
  unfold send, authorize, credential_trace, request, bearer.
  destruct (noAuth o); simpl.
  - rewrite bind_ret. unfold bind, fetch.
    destruct (net w (sent w)); reflexivity.
  - destruct (useRefreshToken o); unfold bind, fetch, getRefreshToken, getAccessToken,
      emit, read, ret, after; simpl;
      destruct (net w (sent w)); simpl; try reflexivity;
      destruct (classify _ _ _ _ _) as [[? ?] ?]; reflexivity.
Qed.

Lemma do_unauthenticated (fuel : nat) (res meth : string) (raw : RawOptions) (w : World A) :
  let o := assign_defaults raw in
  noAuth o = false -> truthy (auth_authedId (store w)) = false ->
  _do I (S fuel) res meth raw w
  = (Rejected (must_auth_first I), w, [entry res meth o; Store AuthedId]).
Proof.
  intros o N U. subst o. cbn [_do]. rewrite bind_emit, N. cbn [negb].
  unfold authedId. rewrite bind_bind, bind_emit, bind_read, U. reflexivity.
Qed.

Lemma do_proactive (fuel : nat) (res meth : string) (raw : RawOptions) (w : World A) :
  let o := assign_defaults raw in
  noAuth o = false -> truthy (auth_authedId (store w)) = true ->
  useRefreshToken o = false -> auth_isAccessTokenExpired (store w) = true ->
  _do I (S fuel) res meth raw w
  = after [entry res meth o; Store AuthedId; Store IsAccessTokenExpired]
          ((wait refreshToken Proactive
            then _do I fuel res meth (as_raw (set_refreshOnFailure false o))) w).
Proof.
  intros o N U R E. subst o. cbn [_do]. rewrite bind_emit, N. cbn [negb].
  unfold authedId. rewrite bind_bind, bind_emit, bind_read, U. cbn [negb].
  rewrite R. cbn [negb]. unfold isAccessTokenExpired.
  rewrite bind_bind, bind_emit, bind_read, E. rewrite !after_after. reflexivity.
Qed.

Lemma do_sends (fuel : nat) (res meth : string) (raw : RawOptions) (w : World A) :
  let o := assign_defaults raw in
  sends_primary o (store w) = true ->
  _do I (S fuel) res meth raw w
  = after (entry res meth o :: guard_trace o)
          (send I (_do I fuel res meth (as_raw (set_refreshOnFailure false o)))
                res meth o w).
Proof.
  intros o P. subst o. unfold sends_primary, guard_trace in *. cbn [_do].
  rewrite bind_emit.
  destruct (noAuth (assign_defaults raw)); cbn [negb orb] in *; [reflexivity |].
  apply andb_prop in P as [U P]. unfold authedId.
  rewrite bind_bind, bind_emit, bind_read, U. cbn [negb].
  destruct (useRefreshToken (assign_defaults raw)); cbn [negb orb] in *.
  - rewrite after_after. reflexivity.
  - apply negb_true_iff in P. unfold isAccessTokenExpired.
    rewrite bind_bind, bind_emit, bind_read, P. rewrite !after_after. reflexivity.
Qed.
End StitchSteps.

(** ** The current client, run by run *)

Section StitchRuns.
Import Stitch.
Context {A : Type} `{Auth A}.
Variable I : Imports.

Local Abbreviation Task := (@M A Call).

Lemma signals_invalid_session_error (r : Response) :
  signals_invalid_session I r = true <-> exists j, invalid_session_error I r j.
Proof.
  unfold signals_invalid_session, invalid_session_error. split.
  - intros E. apply andb_prop in E as [E E3]. apply andb_prop in E as [E1 E2].
    apply negb_true_iff in E1. apply bool_decide_eq_true_1 in E2.
    destruct (payload r) as [j |]; [| discriminate]. exists j.
    destruct (invalid_session I j) as [[|] |]; try discriminate. auto.
  - intros (j & E1 & E2 & E3 & E4).
    rewrite E1, E3, E4, bool_decide_eq_true_2 by assumption. reflexivity.
Qed.

(** A call that the answer does not make retry settles on the spot. *)
Lemma classify_settles (again : Task Response) (o : Options) (r : Response) (w : World A) :
  retries I o r = false ->
  classify I again o r w = classify I pending o r w
  /\ outcome (classify I again o r w) <> Pending
  /\ (trace (classify I again o r w) = []
      \/ trace (classify I again o r w) = [Store Clear]).
Proof.
  unfold retries, signals_invalid_session, classify, response_json. intros E.
  destruct (is_2xx r); [repeat split; [discriminate | now left] |].
  destruct (bool_decide (contentType r = Some (JSONTYPE I)));
    [| repeat split; [discriminate | now left]].
  destruct (payload r) as [j |]; [| repeat split; [discriminate | now left]].
  rewrite !bind_ret.
  destruct (invalid_session I j) as [[|] |];
    try (repeat split; [discriminate | now left]).
  destruct (refreshOnFailure o); [discriminate |].
  repeat split; [discriminate | now right].
Qed.

Lemma classify_retries (again : Task Response) (o : Options) (r : Response) (w : World A) :
  retries I o r = true ->
  classify I again o r w = (wait refreshToken Reactive then again) w.
Proof.
  unfold retries. intros E. apply andb_prop in E as [F E].
  apply signals_invalid_session_error in E as [j E].
  now apply classify_invalid_retry with (j := j).
Qed.

(** One entry of [_do], by what its guard finds. *)
Lemma do_step (fuel : nat) (res meth : string) (raw : RawOptions) (w : World A) :
  let o := assign_defaults raw in
  let again := _do I fuel res meth (as_raw (set_refreshOnFailure false o)) in
  _do I (S fuel) res meth raw w
  = if sends_primary o (store w) then
      after (entry res meth o :: guard_trace o) (send I again res meth o w)
    else if truthy (auth_authedId (store w)) then
      after [entry res meth o; Store AuthedId; Store IsAccessTokenExpired]
            ((wait refreshToken Proactive then again) w)
    else (Rejected (must_auth_first I), w, [entry res meth o; Store AuthedId]).
Proof.
  intros o again.
  destruct (sends_primary o (store w)) eqn:P; [now apply do_sends |].
  unfold sends_primary in P. apply orb_false_iff in P as [N P].
  destruct (truthy (auth_authedId (store w))) eqn:U.
  - cbn [andb] in P. apply orb_false_iff in P as [R E].
    apply negb_false_iff in E. now apply do_proactive.
  - now apply do_unauthenticated.
Qed.

Lemma count_guard_trace (p : Event Call -> bool) (o : Options) :
  (forall op, p (Store op) = false) -> count p (guard_trace o) = 0%nat.
Proof.
  intros Hp. unfold guard_trace, count.
  destruct (noAuth o), (useRefreshToken o); simpl; rewrite ?Hp; reflexivity.
Qed.

Lemma count_credential_trace (p : Event Call -> bool) (o : Options) :
  (forall op, p (Store op) = false) -> count p (credential_trace o) = 0%nat.
Proof.
  intros Hp. unfold credential_trace, count.
  destruct (noAuth o); simpl; rewrite ?Hp; reflexivity.
Qed.

Lemma count_renewals (p : Event Call -> bool) (reqs : list Request) :
  (forall req, p (Fetch Renewal req) = false) -> count p (renewals reqs) = 0%nat.
Proof.
  intros Hp. unfold renewals, count.
  induction reqs as [| req reqs IH]; simpl; [reflexivity |]. now rewrite Hp.
Qed.

Lemma entries_guard_trace (o : Options) : entries (guard_trace o) = [].
Proof. unfold guard_trace. destruct (noAuth o), (useRefreshToken o); reflexivity. Qed.

Lemma entries_credential_trace (o : Options) : entries (credential_trace o) = [].
Proof. unfold credential_trace. destruct (noAuth o); reflexivity. Qed.

Lemma entries_renewals (reqs : list Request) : entries (renewals reqs) = [].
Proof. unfold renewals. induction reqs; simpl; auto. Qed.
End StitchRuns.

(** ** Every run of the current client *)

Section StitchInvariant.
Import Stitch.
Context {A : Type} `{Auth A}.
Variable I : Imports.
Variables res meth : string.

Local Abbreviation Task := (@M A Call).
Local Abbreviation call o :=
  {| call_resource := res; call_method := meth; call_options := o |}.

Ltac tally_step :=
  first
    [ rewrite trace_after
    | rewrite count_app
    | rewrite count_cons
    | rewrite count_nil
    | rewrite entries_app
    | rewrite entries_cons
    | rewrite entries_nil
    | rewrite length_app
    | rewrite count_guard_trace by (intros; reflexivity)
    | rewrite count_credential_trace by (intros; reflexivity)
    | rewrite count_renewals by (intros; reflexivity)
    | rewrite entries_guard_trace
    | rewrite entries_credential_trace
    | rewrite entries_renewals
    | progress cbn [trace snd app length is_reactive is_proactive is_refresh
                    is_primary is_enter is_store entry] ].

Ltac tally := repeat tally_step.

(** A refresh followed by the re-entry, when every run of the re-entry is
    sound. *)
Lemma sound_retry (o : Options) (again : Task Response) (why : Trigger) (w : World A) :
  refreshOnFailure o = false ->
  set_refreshOnFailure false o = o ->
  (forall w1, sound_run res meth o (trace (again w1))) ->
  let t := trace ((wait refreshToken why then again) w) in
  (exists m, entries t = repeat (call o) m)
  /\ count is_reactive t = (if why is Reactive then 1 else 0)%nat
  /\ (length (entries t) <= count is_refresh t)%nat
  /\ (useRefreshToken o || noAuth o = true ->
      count is_proactive t = (if why is Proactive then 1 else 0)%nat)
  /\ (count is_primary t <= length (entries t))%nat.
Proof.
  intros F Idem IH t. subst t. rewrite refreshToken_then.
  destruct (auth_refreshToken w) as [[[u | e |] w1] reqs].
  - destruct (IH w1) as [E R D P Pr]. rewrite F in R. rewrite Idem in E.
    tally. repeat split.
    + destruct E as [-> | [n ->]]; [now exists 0%nat | now exists (S n)].
    + destruct why; simpl; lia.
    + lia.
    + intros G. rewrite (P G). destruct why; reflexivity.
    + lia.
  - tally. repeat split;
      first [now exists 0%nat | intros; destruct why; simpl; lia].
  - tally. repeat split;
      first [now exists 0%nat | intros; destruct why; simpl; lia].
Qed.

Theorem sound_do (fuel : nat) (raw : RawOptions) (w : World A) :
  sound_run res meth (assign_defaults raw) (trace (_do I fuel res meth raw w)).
Proof.
  revert raw w. induction fuel as [| fuel IH]; intros raw w.
  - split; cbn; try lia; auto.
  - rewrite do_step. cbv zeta.
    set (o := assign_defaults raw).
    set (o' := set_refreshOnFailure false o).
    assert (IH' : forall w1,
               sound_run res meth o' (trace (_do I fuel res meth (as_raw o') w1))).
    { intros w1. specialize (IH (as_raw o') w1).
      now rewrite assign_defaults_as_raw in IH. }
    clear IH.
    pose proof (fun why w1 =>
                  sound_retry o' (_do I fuel res meth (as_raw o')) why w1
                              eq_refl eq_refl IH') as Retry.
    cbv zeta in Retry.
    change (useRefreshToken o') with (useRefreshToken o) in Retry.
    change (noAuth o') with (noAuth o) in Retry.
    destruct (sends_primary o (store w)) eqn:P.
    + rewrite send_eq. destruct (net w (sent w)) as [r | reason].
      * destruct (retries I o r) eqn:Rt.
        -- rewrite classify_retries by assumption.
           destruct (Retry Reactive (next_request w)) as ([m E] & R & D & Pa & Pr).
           apply andb_prop in Rt as [F _]. rewrite E in D, Pr.
           split; tally; rewrite ?F, ?E, ?R; try lia.
           ++ right. now exists m.
           ++ intros G. now rewrite (Pa G).
        -- rewrite !trace_after.
           destruct (classify_settles I (_do I fuel res meth (as_raw o')) o r
                       (next_request w) Rt) as (_ & _ & [-> | ->]);
             split; tally; try lia; try (right; now exists 0%nat);
             try (destruct (refreshOnFailure o); lia); try reflexivity.
      * split; tally; try lia; try (right; now exists 0%nat);
          try (destruct (refreshOnFailure o); lia); try reflexivity.
    + destruct (truthy (auth_authedId (store w))) eqn:U.
      * destruct (Retry Proactive w) as ([m E] & R & D & Pa & Pr).
        unfold sends_primary in P. rewrite U in P. cbn [andb] in P.
        apply orb_false_iff in P as [N P]. apply orb_false_iff in P as [Rf _].
        rewrite E in D, Pr.
        split; tally; rewrite ?E, ?R; try lia.
        -- right. now exists m.
        -- rewrite Rf, N. discriminate.
      * split; tally; try lia; try (right; now exists 0%nat);
          try (destruct (refreshOnFailure o); lia); try reflexivity.
Qed.
End StitchInvariant.

(** ** The current client: what one answer leads to *)

Section StitchAnswers.
Import Stitch.
Context {A : Type} `{Auth A}.
Variable I : Imports.

Local Abbreviation Task := (@M A Call).

Lemma do_answered (fuel : nat) (res meth : string) (raw : RawOptions) (w : World A)
    (r : Response) :
  let o := assign_defaults raw in
  sends_primary o (store w) = true -> net w (sent w) = Responds r ->
  _do I (S fuel) res meth raw w
  = after (entry res meth o :: guard_trace o ++ credential_trace o
             ++ [Fetch Primary (request I res meth o (store w))])
          (classify I (_do I fuel res meth (as_raw (set_refreshOnFailure false o)))
                    o r (next_request w)).
Proof.
  intros o P N. rewrite do_sends by assumption. rewrite send_eq, N, after_after.
  reflexivity.
Qed.

Lemma do_unanswered (fuel : nat) (res meth : string) (raw : RawOptions) (w : World A)
    (reason : string) :
  let o := assign_defaults raw in
  sends_primary o (store w) = true -> net w (sent w) = Fails reason ->
  _do I (S fuel) res meth raw w
  = (Rejected (TransportFailure reason), next_request w,
     entry res meth o :: guard_trace o ++ credential_trace o
       ++ [Fetch Primary (request I res meth o (store w))]).
Proof.
  intros o P N. rewrite do_sends by assumption. rewrite send_eq, N. reflexivity.
Qed.

(** An entry that sends its request and is not made to retry by the
    answer: one request, no refresh, and the promise settles. *)
Lemma do_settles (fuel : nat) (res meth : string) (raw : RawOptions) (w : World A) :
  let o := assign_defaults raw in
  let run := _do I (S fuel) res meth raw w in
  sends_primary o (store w) = true ->
  (forall r, net w (sent w) = Responds r -> retries I o r = false) ->
  exists tail,
    trace run = entry res meth o :: guard_trace o ++ credential_trace o
                  ++ [Fetch Primary (request I res meth o (store w))] ++ tail
    /\ (tail = [] \/ tail = [Store Clear])
    /\ outcome run <> Pending.
Proof.
  intros o run P N. subst run.
  destruct (net w (sent w)) as [r | reason] eqn:E.
  - rewrite (do_answered fuel res meth raw w r P E).
    destruct (classify_settles I
                (_do I fuel res meth (as_raw (set_refreshOnFailure false o))) o r
                (next_request w) (N r eq_refl)) as (_ & Np & T).
    exists (trace (classify I
              (_do I fuel res meth (as_raw (set_refreshOnFailure false o))) o r
              (next_request w))).
    rewrite trace_after, outcome_after. split; [| split; assumption].
    cbn [app]. now rewrite <- !app_assoc.
  - rewrite (do_unanswered fuel res meth raw w reason P E).
    exists []. split; [| split; [now left | discriminate]].
    cbn [trace snd]. now rewrite app_nil_r.
Qed.
End StitchAnswers.

(** ** The legacy client, step by step *)

Section BaasSteps.
Import Baas.
Variable codec : Codec.
Variable appUrl : string.

Local Abbreviation Task := (@M (gmap string string) Call).

Lemma legacy_signals_invalid_session_error (r : Response) :
  signals_invalid_session r = true <-> exists j, invalid_session_error r j.
Proof.
  unfold signals_invalid_session, invalid_session_error. split.
  - intros E. apply andb_prop in E as [E1 E2]. apply bool_decide_eq_true_1 in E1.
    destruct (payload r) as [j |]; [| discriminate]. exists j.
    destruct (invalid_session j) as [[|] |]; try discriminate. auto.
  - intros (j & E1 & E2 & E3).
    rewrite E2, E3, bool_decide_eq_true_2 by assumption. reflexivity.
Qed.

Lemma auth_signed_in (w : World (gmap string string)) (a : json) :
  signed_in codec (store w) a -> auth codec w = (Resolved a, w, []).
Proof.
  intros [E _]. unfold auth. rewrite bind_read.
  destruct (store w !! USER_AUTH_KEY) as [s |]; [| discriminate].
  cbn in E. now rewrite E.
Qed.

Lemma auth_signed_out (w : World (gmap string string)) :
  signed_out codec (store w) -> auth codec w = (Resolved JNull, w, []).
Proof.
  unfold signed_out, auth. intros E. rewrite bind_read.
  destruct (store w !! USER_AUTH_KEY) as [s |]; [now rewrite E | reflexivity].
Qed.

Lemma authorization_signed_in (useRefreshToken : bool)
    (w : World (gmap string string)) (a : json) :
  signed_in codec (store w) a ->
  authorization codec useRefreshToken w
  = (Resolved (bearer useRefreshToken (store w) a), w, []).
Proof.
  intros Hin. unfold authorization, bearer. destruct useRefreshToken.
  - unfold refresh_bearer. now rewrite bind_read.
  - rewrite (bind_resolved _ _ _ _ _ _ (auth_signed_in w a Hin)), after_nil.
    destruct Hin as [_ Hn]. destruct a; try reflexivity. contradiction.
Qed.

Lemma refreshToken_eq (w : World (gmap string string)) :
  _refreshToken codec appUrl w
  = match net w (sent w) with
    | Responds r =>
        after [Fetch Renewal (renewal_request appUrl (store w))]
              (renewed codec r (next_request w))
    | Fails reason =>
        (Rejected (TransportFailure reason), next_request w,
         [Fetch Renewal (renewal_request appUrl (store w))])
    end.
Proof.
  unfold _refreshToken, refresh_bearer. rewrite bind_bind, bind_read, bind_ret.
  unfold bind, fetch, renewal_request.
  destruct (net w (sent w)) as [r | reason]; reflexivity.
Qed.

(** The handler of the renewal leaves no trace, settles, and touches
    nothing but the store. *)
Lemma renewed_quiet (r : Response) (w : World (gmap string string)) :
  trace (renewed codec r w) = []
  /\ outcome (renewed codec r w) <> Pending
  /\ net (final (renewed codec r w)) = net w
  /\ sent (final (renewed codec r w)) = sent w.
Proof.
  unfold renewed, _setAccessToken, _clearAuth, response_json.
  destruct (negb (status r =? 200)).
  - destruct (bool_decide (contentType r = Some "application/json"));
      [| repeat split; discriminate].
    destruct (payload r) as [j |]; [| repeat split; discriminate].
    rewrite bind_ret. destruct (invalid_session j) as [[|] |]; repeat split; discriminate.
  - destruct (payload r) as [j |]; [| repeat split; discriminate].
    rewrite bind_ret. destruct (property "accessToken" j) as [token |];
      [| repeat split; discriminate].
    rewrite bind_read.
    destruct (_ ≫= decode codec) as [currAuth |]; [| repeat split; discriminate].
    destruct (assign_accessToken token currAuth) as [currAuth' |];
      [| repeat split; discriminate].
    destruct (encode codec currAuth'); repeat split; discriminate.
Qed.

(** [_refreshToken] sends one request and settles. *)
Lemma refreshToken_once (w : World (gmap string string)) :
  trace (_refreshToken codec appUrl w) = [Fetch Renewal (renewal_request appUrl (store w))]
  /\ outcome (_refreshToken codec appUrl w) <> Pending
  /\ net (final (_refreshToken codec appUrl w)) = net w
  /\ sent (final (_refreshToken codec appUrl w)) = S (sent w).
Proof.
  rewrite refreshToken_eq.
  destruct (net w (sent w)) as [r | reason]; [| repeat split; discriminate].
  destruct (renewed_quiet r (next_request w)) as (T & O & N & Se).
  rewrite trace_after, outcome_after, final_after, T, N, Se. repeat split. assumption.
Qed.

(** A call that the answer does not make retry settles on the spot. *)
Lemma legacy_classify_settles (again : Task (option Response)) (rof : bool)
    (r : Response) (w : World (gmap string string)) :
  retries rof r = false ->
  classify codec appUrl again rof r w = classify codec appUrl pending rof r w
  /\ outcome (classify codec appUrl again rof r w) <> Pending
  /\ trace (classify codec appUrl again rof r w) = [].
Proof.
  unfold retries, signals_invalid_session, classify, response_json. intros E.
  destruct (is_2xx r); [repeat split; discriminate |].
  destruct (bool_decide (contentType r = Some "application/json"));
    [| repeat split; discriminate].
  destruct (payload r) as [j |]; [| repeat split; discriminate].
  rewrite !bind_ret.
  destruct (invalid_session j) as [[|] |]; try (repeat split; discriminate).
  destruct rof; [discriminate |]. repeat split; discriminate.
Qed.

Lemma legacy_classify_retries (again : Task (option Response)) (rof : bool)
    (r : Response) (w : World (gmap string string)) :
  retries rof r = true ->
  classify codec appUrl again rof r w
  = after [Refresh Reactive] ((wait _refreshToken codec appUrl then again) w).
Proof.
  unfold retries. intros E. apply andb_prop in E as [E E3].
  apply andb_prop in E as [E1 E2]. apply negb_true_iff in E2.
  apply legacy_signals_invalid_session_error in E3 as (j & F1 & F2 & F3).
  unfold classify, response_json.
  rewrite E1, E2, F1, F2, bool_decide_eq_true_2 by reflexivity.
  rewrite bind_ret, F3. reflexivity.
Qed.

Lemma doAuthed_signed_out (fuel : nat) (res meth : string) (body : option string)
    (rof urt : option bool) (w : World (gmap string string)) :
  signed_out codec (store w) ->
  _doAuthed codec appUrl (S fuel) res meth body rof urt w
  = (Rejected (Error "Must auth first" None), w,
     [entry res meth body (default true rof) (default false urt)]).
Proof.
  intros Hout. cbn [_doAuthed]. rewrite bind_emit.
  now rewrite (bind_resolved _ _ _ _ _ _ (auth_signed_out w Hout)).
Qed.

Lemma doAuthed_sends (fuel : nat) (res meth : string) (body : option string)
    (rof urt : option bool) (w : World (gmap string string)) (a : json) :
  signed_in codec (store w) a ->
  _doAuthed codec appUrl (S fuel) res meth body rof urt w
  = match net w (sent w) with
    | Responds r =>
        after [entry res meth body (default true rof) (default false urt);
               Fetch Primary (request appUrl res meth body (default false urt) (store w) a)]
              (classify codec appUrl
                        (_doAuthed codec appUrl fuel res meth body (Some false) None)
                        (default true rof) r (next_request w))
    | Fails reason =>
        (Rejected (TransportFailure reason), next_request w,
         [entry res meth body (default true rof) (default false urt);
          Fetch Primary (request appUrl res meth body (default false urt) (store w) a)])
    end.
Proof.
  intros Hin. cbn [_doAuthed]. rewrite bind_emit.
  rewrite (bind_resolved _ _ _ _ _ _ (auth_signed_in w a Hin)), after_nil.
  assert (Hbody : forall k : Task (option Response),
             match a with JNull => reject (Error "Must auth first" None) | _ => k end = k).
  { destruct Hin as [_ Hn]. intros k. destruct a; try reflexivity. contradiction. }
  rewrite Hbody.
  rewrite (bind_resolved _ _ _ _ _ _ (authorization_signed_in _ w a Hin)), after_nil.
  rewrite bind_fetch. unfold request, entry.
  destruct (net w (sent w)) as [r | reason]; [| reflexivity].
  rewrite after_after. reflexivity.
Qed.
End BaasSteps.

(** ** Every run of the legacy client *)

Section BaasRuns.
Import Baas.
Variable codec : Codec.
Variable appUrl : string.

Local Abbreviation Task := (@M (gmap string string) Call).
Local Abbreviation call res meth body rof urt :=
  {| call_resource := res; call_method := meth; call_body := body;
     call_refreshOnFailure := rof; call_useRefreshToken := urt |}.

Ltac tally_step :=
  first
    [ rewrite trace_after
    | rewrite outcome_after
    | rewrite count_app
    | rewrite count_cons
    | rewrite count_nil
    | rewrite entries_app
    | rewrite entries_cons
    | rewrite entries_nil
    | rewrite length_app
    | progress cbn [trace outcome fst snd app length is_reactive is_proactive
                    is_refresh is_primary is_enter is_store entry] ].

Ltac tally := repeat tally_step.

Lemma auth_cases (w : World (gmap string string)) :
  signed_out codec (store w)
  \/ (exists a, signed_in codec (store w) a)
  \/ auth codec w = (Rejected SyntaxError, w, []).
Proof.
  unfold signed_out, signed_in, auth. rewrite bind_read.
  destruct (store w !! USER_AUTH_KEY) as [s |]; [| now left]. cbn.
  destruct (decode codec s) as [a |]; [| now right; right].
  destruct a; try (now left); right; left; eexists; split; try reflexivity; discriminate.
Qed.

Lemma doAuthed_corrupt (fuel : nat) (res meth : string) (body : option string)
    (rof urt : option bool) (w : World (gmap string string)) :
  auth codec w = (Rejected SyntaxError, w, []) ->
  _doAuthed codec appUrl (S fuel) res meth body rof urt w
  = (Rejected SyntaxError, w,
     [entry res meth body (default true rof) (default false urt)]).
Proof.
  intros E. cbn [_doAuthed]. rewrite bind_emit.
  now rewrite (bind_rejected _ _ _ _ _ _ E).
Qed.

(** An entry that the answer does not make retry: at most one request,
    no refresh, and the promise settles. *)
Lemma legacy_settles (fuel : nat) (res meth : string) (body : option string)
    (rof urt : option bool) (w : World (gmap string string)) :
  let run := _doAuthed codec appUrl (S fuel) res meth body rof urt w in
  (forall r, net w (sent w) = Responds r -> retries (default true rof) r = false) ->
  entries (trace run) = [call res meth body (default true rof) (default false urt)]
  /\ count is_refresh (trace run) = 0%nat
  /\ (count is_primary (trace run) <= 1)%nat
  /\ outcome run <> Pending.
Proof.
  intros run N. subst run.
  destruct (auth_cases w) as [Hout | [[a Hin] | Hbad]].
  - rewrite doAuthed_signed_out by assumption. tally. repeat split; try lia. discriminate.
  - rewrite (doAuthed_sends codec appUrl fuel res meth body rof urt w a Hin).
    destruct (net w (sent w)) as [r | reason].
    + destruct (legacy_classify_settles codec appUrl
                  (_doAuthed codec appUrl fuel res meth body (Some false) None)
                  (default true rof) r (next_request w) (N r eq_refl)) as (_ & O & T).
      tally. rewrite T. tally. repeat split; try lia. assumption.
    + tally. repeat split; try lia. discriminate.
  - rewrite doAuthed_corrupt by assumption. tally. repeat split; try lia. discriminate.
Qed.

(** The legacy dispatcher enters at most twice, refreshes at most once and
    only on an invalid session, and with fuel for two entries it settles. *)
Theorem legacy_sound (fuel : nat) (res meth : string) (body : option string)
    (rof urt : option bool) (w : World (gmap string string)) :
  let run := _doAuthed codec appUrl fuel res meth body rof urt w in
  (length (entries (trace run)) <= 2)%nat
  /\ (count is_reactive (trace run) <= if default true rof then 1 else 0)%nat
  /\ count is_proactive (trace run) = 0%nat
  /\ (length (entries (trace run)) <= 1 + count is_refresh (trace run))%nat
  /\ (count is_primary (trace run) <= length (entries (trace run)))%nat
  /\ ((2 <= fuel)%nat -> outcome run <> Pending).
Proof.
  intros run. subst run.
  assert (Hb : forall n : nat, (n <= 0 -> n <= if default true rof then 1 else 0)%nat)
    by (intros n; destruct (default true rof); lia).
  destruct fuel as [| fuel].
  { cbn. repeat split; try lia; try (now apply Hb). }
  destruct (auth_cases w) as [Hout | [[a Hin] | Hbad]].
  - rewrite doAuthed_signed_out by assumption. tally.
    repeat split; try lia; try discriminate; try (now apply Hb).
  - rewrite (doAuthed_sends codec appUrl fuel res meth body rof urt w a Hin).
    destruct (net w (sent w)) as [r | reason].
    + destruct (retries (default true rof) r) eqn:Rt.
      * rewrite legacy_classify_retries by assumption.
        apply andb_prop in Rt as [Rt _]. apply andb_prop in Rt as [-> _].
        destruct (refreshToken_once codec appUrl (next_request w)) as (T & O & _ & _).
        unfold bind.
        destruct (_refreshToken codec appUrl (next_request w)) as [[[u | e |] w1] t1];
          cbn [trace outcome fst snd] in T, O; subst t1;
          [| tally; repeat split; try lia; discriminate | contradiction].
        destruct fuel as [| fuel].
        { cbn [_doAuthed]. unfold pending. tally. repeat split; try lia. }
        destruct (legacy_settles fuel res meth body (Some false) None w1)
          as (E & R & P & Op); [reflexivity |].
        pose proof (count_refresh_split
                      (trace (_doAuthed codec appUrl (S fuel) res meth body
                                        (Some false) None w1))) as Sp.
        tally. rewrite E. tally. repeat split; try lia. intros _. assumption.
      * destruct (legacy_classify_settles codec appUrl
                    (_doAuthed codec appUrl fuel res meth body (Some false) None)
                    (default true rof) r (next_request w) Rt) as (_ & O & T).
        tally. rewrite T. tally.
        repeat split; try lia; try (intros _; assumption); try (now apply Hb).
    + tally. repeat split; try lia; try discriminate; try (now apply Hb).
  - rewrite doAuthed_corrupt by assumption. tally.
    repeat split; try lia; try discriminate; try (now apply Hb).
Qed.
End BaasRuns.

(** ** Settled runs *)

Section SettledFacts.
Context {S C T : Type}.

Lemma trace_settled (o : Outcome T) (w : World S) (t : list (Event C)) :
  trace (o, w, t) = t.
Proof. reflexivity. Qed.

Lemma outcome_settled (o : Outcome T) (w : World S) (t : list (Event C)) :
  outcome (o, w, t) = o.
Proof. reflexivity. Qed.

Lemma final_settled (o : Outcome T) (w : World S) (t : list (Event C)) :
  final (o, w, t) = w.
Proof. reflexivity. Qed.
End SettledFacts.

(** ** Objects *)

Section ObjectFacts.
Context {V : Type}.

Lemma assoc_set_key_eq (k : string) (v : V) (o : list (string * V)) :
  assoc k (set_key k v o) = Some v.
Proof.
  induction o as [| [k0 v0] o IH]; simpl.
  - now rewrite String.eqb_refl.
  - destruct (String.eqb_spec k0 k) as [-> | Hne]; simpl.
    + now rewrite String.eqb_refl.
    + destruct (String.eqb_spec k0 k); [contradiction | exact IH].
Qed.

Lemma assoc_remove_key_eq (k : string) (o : list (string * V)) :
  assoc k (remove_key k o) = None.
Proof.
  induction o as [| [k0 v0] o IH]; simpl; [reflexivity |].
  destruct (String.eqb_spec k0 k) as [-> | Hne]; simpl; [exact IH |].
  destruct (String.eqb_spec k0 k); [contradiction | exact IH].
Qed.

Lemma assoc_set_key_ne (k k' : string) (v : V) (o : list (string * V)) :
  k' <> k -> assoc k' (set_key k v o) = assoc k' o.
Proof.
  intros Hne. induction o as [| [k0 v0] o IH]; simpl.
  - destruct (String.eqb_spec k k'); [congruence | reflexivity].
  - destruct (String.eqb_spec k0 k) as [-> |]; simpl.
    + destruct (String.eqb_spec k k'); [congruence | reflexivity].
    + destruct (String.eqb_spec k0 k'); [reflexivity | exact IH].
Qed.

Lemma assoc_remove_key_ne (k k' : string) (o : list (string * V)) :
  k' <> k -> assoc k' (remove_key k o) = assoc k' o.
Proof.
  intros Hne. induction o as [| [k0 v0] o IH]; simpl; [reflexivity |].
  destruct (String.eqb_spec k0 k) as [-> |]; simpl.
  - destruct (String.eqb_spec k k'); [congruence | exact IH].
  - destruct (String.eqb_spec k0 k'); [reflexivity | exact IH].
Qed.

Lemma assoc_set_key_none (k k' : string) (v : V) (o : list (string * V)) :
  k' <> k -> assoc k' o = None -> assoc k' (set_key k v o) = None.
Proof. intros Hne E. now rewrite assoc_set_key_ne. Qed.

(** [Object.assign] brings in no key that neither object has. *)
Lemma assoc_assign_none (k : string) (target source : list (string * V)) :
  assoc k target = None -> assoc k source = None -> assoc k (assign target source) = None.
Proof.
  unfold assign. revert target.
  induction source as [| [k0 v0] source IH]; intros target Ht Hs; simpl; [exact Ht |].
  simpl in Hs. destruct (String.eqb_spec k0 k) as [-> | Hne]; [discriminate |].
  apply IH; [| exact Hs]. apply assoc_set_key_none; [congruence | exact Ht].
Qed.
End ObjectFacts.


(** * The claims *)

Section Claims.
Import Stitch.
Context {A : Type} `{Auth A}.
Variable I : Imports.
Variable codec : Baas.Codec.
Variable appUrl : string.

Local Abbreviation Storage := (gmap string string).

Ltac tally_step :=
  first
    [ rewrite trace_after
    | rewrite outcome_after
    | rewrite final_after
    | rewrite trace_settled
    | rewrite outcome_settled
    | rewrite final_settled
    | rewrite count_app
    | rewrite count_cons
    | rewrite count_nil
    | rewrite entries_app
    | rewrite entries_cons
    | rewrite entries_nil
    | rewrite length_app
    | rewrite count_guard_trace by (intros; reflexivity)
    | rewrite count_credential_trace by (intros; reflexivity)
    | rewrite count_renewals by (intros; reflexivity)
    | rewrite entries_guard_trace
    | rewrite entries_credential_trace
    | rewrite entries_renewals
    | progress cbn [app length is_reactive is_proactive
                    is_refresh is_primary is_fetch is_enter is_store
                    entry Baas.entry] ].

Ltac tally := repeat tally_step.

Ltac reassoc := cbn [app]; rewrite <- ?app_assoc; cbn [app].

(** C4. A dispatch that asks for a credential while nobody is signed in is
    rejected at once with the unauthenticated error: no request goes out,
    no refresh is asked for, and the world, the token store included, is
    left as it was. In the current client this is [_do] with [noAuth] off
    and a falsy [authedId()]; in the legacy client it is [_doAuthed] with
    no stored session. *)
Theorem C4_unauthenticated_fails_locally
    (fuel : nat) (res meth : string) (raw : RawOptions) (w : World A)
    (body : option string) (rof urt : option bool) (lw : World Storage) :
  (noAuth (assign_defaults raw) = false ->
   truthy (auth_authedId (store w)) = false ->
   let run := _do I (S fuel) res meth raw w in
   outcome run = Rejected (must_auth_first I)
   /\ final run = w
   /\ count is_fetch (trace run) = 0%nat
   /\ count is_refresh (trace run) = 0%nat)
  /\ (Baas.signed_out codec (store lw) ->
      let run := Baas._doAuthed codec appUrl (S fuel) res meth body rof urt lw in
      outcome run = Rejected (Error "Must auth first" None)
      /\ final run = lw
      /\ count is_fetch (trace run) = 0%nat
      /\ count is_refresh (trace run) = 0%nat).
Proof.
  split.
  - intros N U run. subst run. rewrite do_unauthenticated by assumption.
    repeat split.
  - intros Hout run. subst run. rewrite doAuthed_signed_out by assumption.
    repeat split.
Qed.

(** C10. [authenticate(providerType, options)], called while the store
    holds an access token, resolves with the id of the signed-in user: the
    token and the id are read, no provider is asked for, nothing is sent,
    and the world is unchanged, whatever [providerType] and [options]. *)
Theorem C10_authenticate_reuses_session
    (providerType : string) (options : jsval) (w : World A) :
  truthy (auth_getAccessToken (store w)) = true ->
  authenticate providerType options w
  = (Resolved (auth_authedId (store w)), w, [Store GetAccessToken; Store AuthedId]).
Proof.
  intros T. unfold authenticate, getAccessToken, authedId.
  rewrite bind_bind, bind_emit, bind_read, T, bind_emit. reflexivity.
Qed.


(** C1 (amended). A dispatch with [noAuth] and [useRefreshToken] off, a
    signed-in user and an expired access token begins with one refresh.
    When the refresh is rejected, so is the dispatch, with the same error
    and without any request of its own. When the refresh resolves and
    leaves a user signed in with an access token that is not expired, the
    dispatcher enters once more with [refreshOnFailure] off, whatever the
    caller passed, and all other options as they were, and sends exactly
    one request; it refreshes no further and settles. *)
Theorem C1_proactive_refresh_then_one_request
    (fuel : nat) (res meth : string) (raw : RawOptions) (w : World A) :
  let o := assign_defaults raw in
  let o' := set_refreshOnFailure false o in
  let run := _do I (S (S fuel)) res meth raw w in
  let head := [entry res meth o; Store AuthedId; Store IsAccessTokenExpired;
               Refresh Proactive] in
  noAuth o = false -> useRefreshToken o = false ->
  truthy (auth_authedId (store w)) = true ->
  auth_isAccessTokenExpired (store w) = true ->
  match auth_refreshToken w with
  | (Resolved _, w1, reqs) =>
      truthy (auth_authedId (store w1)) = true ->
      auth_isAccessTokenExpired (store w1) = false ->
      exists tail,
        trace run
        = head ++ renewals reqs
            ++ [entry res meth o'; Store AuthedId; Store IsAccessTokenExpired;
                Store GetAccessToken; Fetch Primary (request I res meth o' (store w1))]
            ++ tail
        /\ (tail = [] \/ tail = [Store Clear])
        /\ count is_refresh (trace run) = 1%nat
        /\ count is_primary (trace run) = 1%nat
        /\ outcome run <> Pending
  | (Rejected e, w1, reqs) => run = (Rejected e, w1, head ++ renewals reqs)
  | (Pending, w1, reqs) => run = (Pending, w1, head ++ renewals reqs)
  end.
Proof.
  intros o o' run head N R U E. subst run.
  rewrite do_proactive by assumption. fold o. fold o'.
  rewrite refreshToken_then.
  destruct (auth_refreshToken w) as [[[u | e |] w1] reqs]; [| reflexivity | reflexivity].
  intros U1 E1.
  assert (P : sends_primary (assign_defaults (as_raw o')) (store w1) = true).
  { rewrite assign_defaults_as_raw. unfold sends_primary.
    change (noAuth o') with (noAuth o). change (useRefreshToken o') with (useRefreshToken o).
    now rewrite N, R, U1, E1. }
  destruct (do_settles I fuel res meth (as_raw o') w1 P) as (tail & T & Ht & O).
  { intros r _. rewrite assign_defaults_as_raw. reflexivity. }
  rewrite assign_defaults_as_raw in T.
  unfold guard_trace, credential_trace in T.
  change (noAuth o') with (noAuth o) in T.
  change (useRefreshToken o') with (useRefreshToken o) in T.
  rewrite N, R in T. cbn [app] in T.
  exists tail. rewrite after_after, trace_after, outcome_after, T.
  split; [| split; [exact Ht | split; [| split; [| exact O]]]].
  - subst head. reflexivity.
  - tally. destruct Ht as [-> | ->]; reflexivity.
  - tally. destruct Ht as [-> | ->]; reflexivity.
Qed.

(** C3 (amended). When a dispatch entry with [refreshOnFailure] off sends
    its request and the answer is a structured invalid-session error, the
    session is cleared and the dispatch is rejected with no refresh and no
    second request; in the current client the error is the [StitchError]
    of the body's [error] and [errorCode], carrying the response and the
    decoded body. Under [refreshOnFailure] off no run of the current
    client ever refreshes on an answer; it may still have refreshed
    before its request, because the access token had expired. *)
Theorem C3_invalid_session_is_terminal_without_retry
    (fuel : nat) (res meth : string) (raw : RawOptions) (w : World A)
    (r : Response) (j : json)
    (body : option string) (rof urt : option bool) (lw : World Storage)
    (a : json) (lr : Response) (lj : json) :
  (let o := assign_defaults raw in
   let run := _do I (S fuel) res meth raw w in
   refreshOnFailure o = false -> sends_primary o (store w) = true ->
   net w (sent w) = Responds r -> invalid_session_error I r j ->
   run = (Rejected (StitchError (property_or_undefined "error" j)
                                (property_or_undefined "errorCode" j)
                                (Some r) (Some j)),
          with_store (auth_clear (store w)) (next_request w),
          entry res meth o :: guard_trace o ++ credential_trace o
            ++ [Fetch Primary (request I res meth o (store w)); Store Clear])
   /\ count is_refresh (trace run) = 0%nat
   /\ count is_primary (trace run) = 1%nat)
  /\ (forall fuel',
         refreshOnFailure (assign_defaults raw) = false ->
         count is_reactive (trace (_do I fuel' res meth raw w)) = 0%nat)
  /\ (let run := Baas._doAuthed codec appUrl (S fuel) res meth body rof urt lw in
      default true rof = false -> Baas.signed_in codec (store lw) a ->
      net lw (sent lw) = Responds lr -> is_2xx lr = false ->
      Baas.invalid_session_error lr lj ->
      (exists e, outcome run = Rejected e)
      /\ store (final run) = Baas.cleared (store lw)
      /\ count is_refresh (trace run) = 0%nat
      /\ count is_primary (trace run) = 1%nat).
Proof.
  split; [| split].
  - intros o run F P N E. subst run.
    rewrite (do_answered I fuel res meth raw w r P N).
    rewrite (classify_invalid_terminal I _ o r j _ E F). fold o.
    unfold after, service_error. cbn [fst snd]. reassoc.
    split; [reflexivity |]. tally. split; reflexivity.
  - intros fuel' F.
    pose proof (run_reactive _ _ _ _ (sound_do I res meth fuel' raw w)) as Hr.
    rewrite F in Hr. lia.
  - intros run F Hin N X E. subst run.
    rewrite (doAuthed_sends codec appUrl fuel res meth body rof urt lw a Hin), N, F.
    destruct E as (E1 & E2 & E3).
    unfold Baas.classify, response_json.
    rewrite X, E1, E2, bool_decide_eq_true_2 by reflexivity.
    rewrite bind_ret, E3. cbn [negb].
    unfold Baas._clearAuth. tally.
    repeat split. eexists. reflexivity.
Qed.

(** C2 (amended). When a dispatch entry with [refreshOnFailure] on sends
    its request and the answer is a structured invalid-session error, one
    refresh follows. When the refresh is rejected, so is the dispatch, with
    the same error and without a retry. When it resolves and the re-entry
    (a signed-in user; in the current client also an access token that is
    not expired, unless [useRefreshToken] or [noAuth] is on) sends its
    request, that is the one retried request: one refresh and two requests
    in all. If the retried request is answered by an invalid session
    again, the session is cleared and the dispatch is rejected, in the
    current client with that answer's error; nothing follows. *)
Theorem C2_reactive_refresh_retries_once
    (fuel : nat) (res meth : string) (raw : RawOptions) (w : World A)
    (r : Response) (j : json)
    (body : option string) (rof urt : option bool) (lw : World Storage)
    (a : json) (lr : Response) (lj : json) :
  (let o := assign_defaults raw in
   let o' := set_refreshOnFailure false o in
   let run := _do I (S (S fuel)) res meth raw w in
   let head := entry res meth o :: guard_trace o ++ credential_trace o
                 ++ [Fetch Primary (request I res meth o (store w)); Refresh Reactive] in
   refreshOnFailure o = true -> sends_primary o (store w) = true ->
   net w (sent w) = Responds r -> invalid_session_error I r j ->
   match auth_refreshToken (next_request w) with
   | (Resolved _, w1, reqs) =>
       sends_primary o' (store w1) = true ->
       exists tail,
         trace run
         = head ++ renewals reqs
             ++ entry res meth o' :: guard_trace o' ++ credential_trace o'
             ++ [Fetch Primary (request I res meth o' (store w1))] ++ tail
         /\ count is_refresh (trace run) = 1%nat
         /\ count is_primary (trace run) = 2%nat
         /\ outcome run <> Pending
         /\ (forall r2 j2,
                net w1 (sent w1) = Responds r2 -> invalid_session_error I r2 j2 ->
                outcome run = Rejected (service_error r2 j2)
                /\ store (final run) = auth_clear (store w1)
                /\ tail = [Store Clear])
   | (Rejected e, w1, reqs) => run = (Rejected e, w1, head ++ renewals reqs)
   | (Pending, w1, reqs) => run = (Pending, w1, head ++ renewals reqs)
   end)
  /\ (let urt' := default false urt in
      let run := Baas._doAuthed codec appUrl (S (S fuel)) res meth body rof urt lw in
      let head := [Baas.entry res meth body true urt';
                   Fetch Primary (Baas.request appUrl res meth body urt' (store lw) a);
                   Refresh Reactive;
                   Fetch Renewal (Baas.renewal_request appUrl (store lw))] in
      default true rof = true -> Baas.signed_in codec (store lw) a ->
      net lw (sent lw) = Responds lr -> is_2xx lr = false ->
      Baas.invalid_session_error lr lj ->
      match Baas._refreshToken codec appUrl (next_request lw) with
      | (Resolved _, lw1, _) =>
          forall a1, Baas.signed_in codec (store lw1) a1 ->
          trace run
          = head ++ [Baas.entry res meth body false false;
                     Fetch Primary (Baas.request appUrl res meth body false (store lw1) a1)]
          /\ count is_refresh (trace run) = 1%nat
          /\ count is_primary (trace run) = 2%nat
          /\ outcome run <> Pending
          /\ (forall r2 j2,
                 net lw1 (sent lw1) = Responds r2 -> is_2xx r2 = false ->
                 Baas.invalid_session_error r2 j2 ->
                 (exists e, outcome run = Rejected e)
                 /\ store (final run) = Baas.cleared (store lw1))
      | (Rejected e, lw1, _) => run = (Rejected e, lw1, head)
      | (Pending, _, _) => False
      end).
Proof.
  split.
  - intros o o' run head F P N E. subst run.
    rewrite (do_answered I (S fuel) res meth raw w r P N). fold o. fold o'.
    rewrite (classify_invalid_retry I _ o r j _ E F), refreshToken_then.
    destruct (auth_refreshToken (next_request w)) as [[[u | e |] w1] reqs].
    + intros P1.
      assert (P' : sends_primary (assign_defaults (as_raw o')) (store w1) = true)
        by now rewrite assign_defaults_as_raw.
      destruct (do_settles I fuel res meth (as_raw o') w1 P') as (tail & T & Ht & O).
      { intros r2 _. rewrite assign_defaults_as_raw. reflexivity. }
      rewrite assign_defaults_as_raw in T.
      exists tail. rewrite after_after, trace_after, outcome_after, final_after, T.
      split; [| split; [| split; [| split; [exact O |]]]].
      * subst head. reassoc. reflexivity.
      * tally. destruct Ht as [-> | ->]; reflexivity.
      * tally. destruct Ht as [-> | ->]; reflexivity.
      * intros r2 j2 N2 E2.
        assert (F' : refreshOnFailure (assign_defaults (as_raw o')) = false)
          by now rewrite assign_defaults_as_raw.
        rewrite (do_answered I fuel res meth (as_raw o') w1 r2 P' N2) in T |- *.
        rewrite (classify_invalid_terminal I _ _ r2 j2 _ E2 F') in T |- *.
        rewrite assign_defaults_as_raw in T.
        cbn [after trace outcome final fst snd store with_store] in T |- *.
        repeat split.
        destruct Ht as [-> | ->]; [| reflexivity].
        apply (f_equal (@length _)) in T. cbn [length app] in T.
        rewrite !length_app in T. cbn [length] in T. lia.
    + subst head. unfold after. cbn [fst snd]. reassoc. reflexivity.
    + subst head. unfold after. cbn [fst snd]. reassoc. reflexivity.
  - intros urt' run head F Hin N X E. subst run.
    rewrite (doAuthed_sends codec appUrl (S fuel) res meth body rof urt lw a Hin), N, F.
    assert (Rt : Baas.retries true lr = true).
    { unfold Baas.retries. rewrite X. cbn [negb andb].
      apply legacy_signals_invalid_session_error. now exists lj. }
    rewrite (legacy_classify_retries codec appUrl _ true lr _ Rt).
    destruct (refreshToken_once codec appUrl (next_request lw)) as (T & O & _ & _).
    unfold bind.
    destruct (Baas._refreshToken codec appUrl (next_request lw)) as [[[u | e |] lw1] t1];
      cbn [trace outcome fst snd] in T, O; subst t1; [| reflexivity | contradiction].
    intros a1 Hin1.
    rewrite (doAuthed_sends codec appUrl fuel res meth body (Some false) None lw1 a1 Hin1).
    change (default true (Some false)) with false.
    change (default false (@None bool)) with false.
    destruct (net lw1 (sent lw1)) as [r2 | reason] eqn:N2.
    + destruct (legacy_classify_settles codec appUrl
                  (Baas._doAuthed codec appUrl fuel res meth body (Some false) None)
                  false r2 (next_request lw1) eq_refl) as (_ & O2 & T2).
      tally. rewrite T2.
      split; [reflexivity | split; [reflexivity | split; [reflexivity |
        split; [assumption |]]]].
      intros r3 j3 N3 X3 (E1 & E2 & E3). injection N3 as <-.
      unfold Baas.classify, response_json.
      rewrite X3, E1, E2, bool_decide_eq_true_2 by reflexivity.
      rewrite bind_ret, E3. cbn [negb]. unfold Baas._clearAuth.
      split; [eexists |]; reflexivity.
    + tally. repeat split; try discriminate.
Qed.

(** A call under [useRefreshToken] or [noAuth] whose answer cannot make it
    retry settles whenever it has fuel for one entry. *)
Lemma do_settles_without_proactive
    (fuel : nat) (res meth : string) (raw : RawOptions) (w : World A) :
  let o := assign_defaults raw in
  useRefreshToken o || noAuth o = true -> refreshOnFailure o = false ->
  outcome (_do I (S fuel) res meth raw w) <> Pending.
Proof.
  intros o G F.
  destruct (sends_primary o (store w)) eqn:P.
  - destruct (do_settles I fuel res meth raw w P) as (tail & _ & _ & O); [| exact O].
    intros r _. unfold retries. fold o. now rewrite F.
  - rewrite do_step. fold o. rewrite P.
    destruct (truthy (auth_authedId (store w))) eqn:U; [| discriminate].
    unfold sends_primary in P. rewrite U in P.
    destruct (noAuth o), (useRefreshToken o); discriminate.
Qed.

(** C5 (amended). A dispatch with [noAuth] on does not use the token
    store before its request: the entry is followed at once by the
    request, whose headers are those of [makeFetchArgs] with the caller's
    headers assigned over them and nothing added, so it carries an
    [Authorization] header only if one of the two supplies it. Unless the
    answer is a structured invalid-session error, nothing else happens and
    the store is as before. *)
Theorem C5_no_auth_request_is_unsigned
    (fuel : nat) (res meth : string) (raw : RawOptions) (w : World A) :
  let o := assign_defaults raw in
  let run := _do I (S fuel) res meth raw w in
  let defaults := fa_headers (makeFetchArgs I meth (body o)) in
  noAuth o = true ->
  exists rest,
    trace run
    = entry res meth o
        :: Fetch Primary {| url := target_url I res o; init := shaped_args I meth o |}
        :: rest
    /\ fa_headers (shaped_args I meth o)
       = match headers o with Some h => assign defaults h | None => defaults end
    /\ (assoc "Authorization" defaults = None ->
        match headers o with Some h => assoc "Authorization" h = None | None => True end ->
        assoc "Authorization" (fa_headers (shaped_args I meth o)) = None)
    /\ (match net w (sent w) with
        | Responds r => signals_invalid_session I r = false
        | Fails _ => True
        end ->
        rest = [] /\ store (final run) = store w).
Proof.
  intros o run defaults N. subst run.
  assert (P : sends_primary o (store w) = true) by (unfold sends_primary; now rewrite N).
  assert (Hreq : request I res meth o (store w)
                 = {| url := target_url I res o; init := shaped_args I meth o |})
    by (unfold request; now rewrite N).
  assert (Hh : fa_headers (shaped_args I meth o)
               = match headers o with Some h => assign defaults h | None => defaults end)
    by (unfold shaped_args; destruct (headers o); reflexivity).
  assert (Ha : assoc "Authorization" defaults = None ->
               match headers o with
               | Some h => assoc "Authorization" h = None
               | None => True
               end ->
               assoc "Authorization" (fa_headers (shaped_args I meth o)) = None).
  { intros D C. rewrite Hh. destruct (headers o); [| exact D].
    now apply assoc_assign_none. }
  rewrite do_sends by exact P. fold o. rewrite send_eq, Hreq.
  unfold guard_trace, credential_trace. rewrite N.
  destruct (net w (sent w)) as [r | reason].
  - eexists. rewrite after_after, trace_after, final_after. cbn [app].
    split; [reflexivity | split; [exact Hh | split; [exact Ha |]]].
    intros Sg.
    assert (Rt : retries I o r = false) by (unfold retries; rewrite Sg; apply andb_false_r).
    unfold classify, signals_invalid_session, response_json in *.
    destruct (is_2xx r); [now split |]. cbn [negb andb] in Sg.
    destruct (bool_decide (contentType r = Some (JSONTYPE I))); [| now split].
    cbn [andb] in Sg. destruct (payload r) as [j |]; [| now split].
    rewrite bind_ret. destruct (invalid_session I j) as [[|] |];
      [discriminate | now split | now split].
  - exists []. cbn [trace final fst snd app].
    split; [reflexivity | split; [exact Hh | split; [exact Ha |]]]. now split.
Qed.

(** C9 (amended). In every run of the dispatcher, whatever the service
    answers, a refresh on an invalid-session answer happens at most once,
    and never under [refreshOnFailure] off, which is what every re-entry
    runs with. The legacy client therefore enters at most twice and, with
    fuel for two entries, settles. In the current client each entry after
    the first follows a refresh, proactive or reactive; the proactive one
    does not look at [refreshOnFailure], so the depth is at most two when
    no proactive refresh can happen, under [useRefreshToken] or [noAuth],
    where the run also settles unless a refresh stays pending. *)
Theorem C9_reactive_retry_is_bounded
    (fuel : nat) (res meth : string) (raw : RawOptions) (w : World A)
    (body : option string) (rof urt : option bool) (lw : World Storage) :
  (let o := assign_defaults raw in
   let o' := set_refreshOnFailure false o in
   let run := _do I fuel res meth raw w in
   let t := trace run in
   (count is_reactive t <= 1)%nat
   /\ (refreshOnFailure o = false -> count is_reactive t = 0%nat)
   /\ (entries t = []
       \/ exists n,
            entries t
            = {| call_resource := res; call_method := meth; call_options := o |}
              :: repeat {| call_resource := res; call_method := meth;
                           call_options := o' |} n)
   /\ (length (entries t) <= 1 + count is_proactive t + count is_reactive t)%nat
   /\ (useRefreshToken o || noAuth o = true ->
       count is_proactive t = 0%nat
       /\ (length (entries t) <= 2)%nat
       /\ ((2 <= fuel)%nat ->
           (forall w1 : World A, fst (fst (auth_refreshToken w1)) <> Pending) ->
           outcome run <> Pending)))
  /\ (let run := Baas._doAuthed codec appUrl fuel res meth body rof urt lw in
      (length (entries (trace run)) <= 2)%nat
      /\ (count is_refresh (trace run) <= 1)%nat
      /\ (default true rof = false -> count is_refresh (trace run) = 0%nat)
      /\ ((2 <= fuel)%nat -> outcome run <> Pending)).
Proof.
  split.
  - intros o o' run t.
    destruct (sound_do I res meth fuel raw w) as [E R D Pa Pr]. fold o in E, R, D, Pa, Pr.
    fold run in E, R, D, Pa, Pr. fold t in E, R, D, Pa, Pr.
    pose proof (count_refresh_split t) as Sp.
    split; [destruct (refreshOnFailure o); lia |].
    split; [intros F; rewrite F in R; lia |].
    split; [exact E |]. split; [lia |].
    intros G. specialize (Pa G).
    split; [exact Pa |]. split; [destruct (refreshOnFailure o); lia |].
    intros Hf Hp. subst t run. destruct fuel as [| [| fuel]]; try lia.
    rewrite do_step. fold o. fold o'.
    assert (Inner : forall w1, outcome (_do I (S fuel) res meth (as_raw o') w1) <> Pending).
    { intros w1. apply do_settles_without_proactive; now rewrite assign_defaults_as_raw. }
    destruct (sends_primary o (store w)) eqn:P.
    + rewrite send_eq. destruct (net w (sent w)) as [r | reason]; [| discriminate].
      rewrite !outcome_after.
      destruct (retries I o r) eqn:Rt.
      * rewrite classify_retries by exact Rt. rewrite refreshToken_then.
        specialize (Hp (next_request w)).
        destruct (auth_refreshToken (next_request w)) as [[[u | e |] w1] reqs];
          [rewrite outcome_after; apply Inner | discriminate | now cbn in Hp].
      * now destruct (classify_settles I (_do I (S fuel) res meth (as_raw o')) o r
                        (next_request w) Rt) as (_ & O & _).
    + destruct (truthy (auth_authedId (store w))) eqn:U; [| discriminate].
      unfold sends_primary in P. rewrite U in P.
      destruct (noAuth o), (useRefreshToken o); discriminate.
  - intros run.
    destruct (legacy_sound codec appUrl fuel res meth body rof urt lw)
      as (L & R & Pa & D & Pr & O). fold run in L, R, Pa, D, Pr, O.
    pose proof (count_refresh_split (trace run)) as Sp.
    split; [exact L |]. split; [destruct (default true rof); lia |].
    split; [intros F; rewrite F in R; lia | exact O].
Qed.

(** The current client passes an error answer on: a structured error of
    another code as the [StitchError] of its body, carrying the response
    and the decoded body; an error without a structured body as an
    [Error] of the status text, carrying the response. Neither is
    retried and the store is left alone. *)
Theorem current_client_surfaces_other_errors
    (fuel : nat) (res meth : string) (raw : RawOptions) (w : World A)
    (r : Response) (j : json) :
  let o := assign_defaults raw in
  let run := _do I (S fuel) res meth raw w in
  let sent_once := entry res meth o :: guard_trace o ++ credential_trace o
                     ++ [Fetch Primary (request I res meth o (store w))] in
  sends_primary o (store w) = true -> net w (sent w) = Responds r ->
  (other_service_error I r j ->
   run = (Rejected (StitchError (property_or_undefined "error" j)
                                (property_or_undefined "errorCode" j)
                                (Some r) (Some j)),
          next_request w, sent_once))
  /\ (unstructured_error I r ->
      run = (Rejected (Error (statusText r) (Some r)), next_request w, sent_once)).
Proof.
  intros o run sent_once P N. subst run. split; intros E.
  - rewrite (do_answered I fuel res meth raw w r P N).
    rewrite classify_other with (j := j) by exact E.
    unfold after, service_error. cbn [fst snd]. now rewrite app_nil_r.
  - rewrite (do_answered I fuel res meth raw w r P N).
    rewrite classify_unstructured by exact E.
    unfold after. cbn [fst snd]. now rewrite app_nil_r.
Qed.

(** The current client re-enters with the options it had, but for
    [refreshOnFailure], which is off: the resource, the method and every
    other option are those of the first entry, on both refresh paths. *)
Theorem current_client_retry_keeps_options
    (fuel : nat) (res meth : string) (raw : RawOptions) (w : World A) (c : Call) :
  let o := assign_defaults raw in
  In c (tail (entries (trace (_do I fuel res meth raw w)))) ->
  c = {| call_resource := res; call_method := meth;
         call_options := set_refreshOnFailure false o |}.
Proof.
  intros o Hc.
  destruct (run_entries _ _ _ _ (sound_do I res meth fuel raw w)) as [E | [n E]];
    rewrite E in Hc; cbn [tail] in Hc; [contradiction |].
  now apply repeat_spec in Hc.
Qed.
End Claims.

(** * The claims on concrete runs *)

(** The store modelled after the specification never leaves a refresh
    pending. *)
Lemma spec_refresh_settles (I : Stitch.Imports) (w : World SpecAuth.TokenStore) :
  fst (fst (SpecAuth.refreshAccessToken I w)) <> Pending.
Proof.
  unfold SpecAuth.refreshAccessToken.
  destruct (net w (sent w)) as [r | reason]; [| discriminate].
  destruct (is_2xx r); [destruct (payload r); discriminate |].
  destruct (bool_decide (contentType r = Some (Stitch.JSONTYPE I))); [| discriminate].
  destruct (payload r) as [j |]; [| discriminate].
  destruct (Stitch.invalid_session I j) as [[|] |]; discriminate.
Qed.

Section Runs.
Import Stitch Fixtures.

(** C4, witness: with no session, a call of a function and a legacy
    pipeline call are rejected on the spot. *)
Lemma C4_witness :
  (let run := _do imports 1 "/functions/call" "POST" no_options (world no_session []) in
   outcome run = Rejected (must_auth_first imports)
   /\ final run = world no_session []
   /\ count is_fetch (trace run) = 0%nat
   /\ count is_refresh (trace run) = 0%nat)
  /\ (let run := Baas._doAuthed codec legacyUrl 1 "/functions/call" "POST" None None None
                                (world (∅ : gmap string string) []) in
      outcome run = Rejected (Error "Must auth first" None)
      /\ final run = world (∅ : gmap string string) []
      /\ count is_fetch (trace run) = 0%nat
      /\ count is_refresh (trace run) = 0%nat).
Proof.
  destruct (C4_unauthenticated_fails_locally
              imports codec legacyUrl 0 "/functions/call" "POST" no_options
              (world no_session []) None None None
              (world (∅ : gmap string string) [])) as [HS HB].
  split; [apply HS; reflexivity | apply HB; exact Logic.I].
Defined.

(** C10, witness: signed in with token [A2], asking for a provider that
    does not exist still resolves with the user's id. *)
Lemma C10_witness :
  authenticate "no-such-provider" undefined (world (session "A2") [])
  = (Resolved (Some (JStr "u1")), world (session "A2") [],
     [Store GetAccessToken; Store AuthedId]).
Proof.
  exact (C10_authenticate_reuses_session "no-such-provider" undefined
           (world (session "A2") []) eq_refl).
Defined.

(** C1, counterexample: the access token [A1] has expired and the renewal
    endpoint answers 500. The dispatch asks for its one refresh and is
    rejected; no request of its own goes out. *)
Lemma C1_counterexample :
  let w := world (session "A1") [plain_error 500 "Internal Server Error"] in
  let o := assign_defaults no_options in
  let run := _do imports 5 "/auth/me" "GET" no_options w in
  noAuth o = false /\ useRefreshToken o = false
  /\ truthy (auth_authedId (store w)) = true
  /\ auth_isAccessTokenExpired (store w) = true
  /\ count is_refresh (trace run) = 1%nat
  /\ count is_primary (trace run) = 0%nat
  /\ count is_primary (trace run) <> 1%nat.
Proof. vm_compute. repeat split; discriminate. Qed.

(** C1, witness: the scenario of the specification. Token [A1] has
    expired, the renewal hands out [A2], and the one request for
    [/auth/me] goes out under [refreshOnFailure] off. *)
Lemma C1_witness :
  let w := world (session "A1") [renewal "A2"; ok (JObj [("_id", JStr "u1")])] in
  let run := _do imports 2 "/auth/me" "GET" no_options w in
  count is_refresh (trace run) = 1%nat
  /\ count is_primary (trace run) = 1%nat
  /\ outcome run <> Pending.
Proof.
  intros w run.
  pose proof (C1_proactive_refresh_then_one_request
                imports 0 "/auth/me" "GET" no_options w
                eq_refl eq_refl eq_refl eq_refl) as Hc.
  cbv zeta in Hc.
  change (auth_refreshToken w) with (SpecAuth.refreshAccessToken imports w) in Hc.
  vm_compute SpecAuth.refreshAccessToken in Hc. cbv beta iota in Hc.
  destruct (Hc eq_refl eq_refl) as (tail & _ & _ & R & P & O).
  exact (conj R (conj P O)).
Defined.

(** C3, counterexample: the caller turned [refreshOnFailure] off, the
    access token [A1] has expired, the renewal hands out [A2] and the
    request is then answered by an invalid session. The session is cleared
    and the error raised, and one refresh was made. *)
Lemma C3_counterexample :
  let w := world (session "A1") [renewal "A2"; Responds invalid_session_answer] in
  let run := _do imports 5 "/auth/me" "GET" refresh_off w in
  refreshOnFailure (assign_defaults refresh_off) = false
  /\ invalid_session_error imports invalid_session_answer invalid_session_body
  /\ outcome run = Rejected (service_error invalid_session_answer invalid_session_body)
  /\ store (final run) = SpecAuth.clear (session "A2")
  /\ count is_primary (trace run) = 1%nat
  /\ count is_refresh (trace run) = 1%nat
  /\ count is_refresh (trace run) <> 0%nat.
Proof. vm_compute. repeat split; discriminate. Qed.

(** C3, witness: [refreshOnFailure] off, a token that has not expired,
    and an invalid-session answer, in both clients. *)
Lemma C3_witness :
  (let run := _do imports 1 "/auth/me" "GET" refresh_off
                  (world (session "A2") [Responds invalid_session_answer]) in
   outcome run = Rejected (service_error invalid_session_answer invalid_session_body)
   /\ store (final run) = SpecAuth.clear (session "A2")
   /\ count is_refresh (trace run) = 0%nat)
  /\ (let run := Baas._doAuthed codec legacyUrl 1 "/auth/me" "GET" None (Some false) None
                                (world (localStorage "A1") [Responds invalid_session_answer]) in
      (exists e, outcome run = Rejected e)
      /\ store (final run) = Baas.cleared (localStorage "A1")
      /\ count is_refresh (trace run) = 0%nat).
Proof.
  destruct (C3_invalid_session_is_terminal_without_retry
              imports codec legacyUrl 0 "/auth/me" "GET" refresh_off
              (world (session "A2") [Responds invalid_session_answer])
              invalid_session_answer invalid_session_body
              None (Some false) None
              (world (localStorage "A1") [Responds invalid_session_answer])
              (user_auth "A1") invalid_session_answer invalid_session_body)
    as (HS & _ & HB).
  split.
  - destruct HS as (E & R & _); [reflexivity | reflexivity | reflexivity | |].
    { repeat split. }
    cbv zeta. rewrite E. repeat split; exact R.
  - destruct HB as (E & C & R & _); [reflexivity | | reflexivity | reflexivity | |].
    { split; [reflexivity | discriminate]. }
    { repeat split. }
    repeat split; assumption.
Defined.

(** C2, counterexample: [refreshOnFailure] is on, the request is answered
    by an invalid session and the renewal endpoint answers 500. There is
    the one refresh, and the dispatch is rejected without a retried
    request: one request went out in all. *)
Lemma C2_counterexample :
  let w := world (session "A2")
                 [Responds invalid_session_answer;
                  plain_error 500 "Internal Server Error"] in
  let run := _do imports 5 "/auth/me" "GET" no_options w in
  refreshOnFailure (assign_defaults no_options) = true
  /\ net w (sent w) = Responds invalid_session_answer
  /\ invalid_session_error imports invalid_session_answer invalid_session_body
  /\ count is_refresh (trace run) = 1%nat
  /\ count is_primary (trace run) = 1%nat
  /\ count is_primary (trace run) <> 2%nat
  /\ length (entries (trace run)) = 1%nat.
Proof. vm_compute. repeat split; discriminate. Qed.

(** C2, witness: the request is answered by an invalid session, the
    renewal hands out [A2], and the retried request is answered by an
    invalid session again, in both clients. *)
Lemma C2_witness :
  (let run := _do imports 2 "/auth/me" "GET" no_options
                  (world (session "A2")
                         [Responds invalid_session_answer; renewal "A2";
                          Responds invalid_session_answer]) in
   count is_refresh (trace run) = 1%nat
   /\ count is_primary (trace run) = 2%nat
   /\ outcome run = Rejected (service_error invalid_session_answer invalid_session_body)
   /\ store (final run) = SpecAuth.clear (session "A2"))
  /\ (let run := Baas._doAuthed codec legacyUrl 2 "/auth/me" "GET" None None None
                                (world (localStorage "A1")
                                       [Responds invalid_session_answer; renewal "A2";
                                        Responds invalid_session_answer]) in
      count is_refresh (trace run) = 1%nat
      /\ count is_primary (trace run) = 2%nat
      /\ (exists e, outcome run = Rejected e)
      /\ store (final run) = Baas.cleared (localStorage "A2")).
Proof.
  destruct (C2_reactive_refresh_retries_once
              imports codec legacyUrl 0 "/auth/me" "GET" no_options
              (world (session "A2")
                     [Responds invalid_session_answer; renewal "A2";
                      Responds invalid_session_answer])
              invalid_session_answer invalid_session_body
              None None None
              (world (localStorage "A1")
                     [Responds invalid_session_answer; renewal "A2";
                      Responds invalid_session_answer])
              (user_auth "A1") invalid_session_answer invalid_session_body)
    as (HS & HB).
  split.
  - specialize (HS eq_refl eq_refl eq_refl).
    assert (E : invalid_session_error imports invalid_session_answer invalid_session_body)
      by (repeat split).
    specialize (HS E). cbv zeta in HS.
    match type of HS with
    | context [auth_refreshToken ?w] =>
        change (auth_refreshToken w) with (SpecAuth.refreshAccessToken imports w) in HS
    end.
    vm_compute SpecAuth.refreshAccessToken in HS. cbv beta iota in HS.
    destruct (HS eq_refl) as (tail & _ & R & P & _ & Again).
    destruct (Again invalid_session_answer invalid_session_body eq_refl E) as (O & C & _).
    exact (conj R (conj P (conj O C))).
  - assert (Hin : Baas.signed_in codec (store (world (localStorage "A1")
                     [Responds invalid_session_answer; renewal "A2";
                      Responds invalid_session_answer])) (user_auth "A1"))
      by (split; [reflexivity | discriminate]).
    assert (E : Baas.invalid_session_error invalid_session_answer invalid_session_body)
      by (repeat split).
    specialize (HB eq_refl Hin eq_refl eq_refl E). cbv zeta in HB.
    vm_compute Baas._refreshToken in HB. cbv beta iota in HB.
    destruct (HB (user_auth "A2")) as (_ & R & P & _ & Again).
    { split; [vm_compute; reflexivity | discriminate]. }
    destruct (Again invalid_session_answer invalid_session_body eq_refl eq_refl E)
      as (O & C).
    split; [exact R | split; [exact P | split; [exact O |]]].
    rewrite C. vm_compute. reflexivity.
Defined.

(** C5, counterexample: with [noAuth] on, an invalid-session answer still
    makes the dispatcher refresh and enter again, and the headers of the
    caller may well carry an [Authorization] of their own, which goes
    out. *)
Lemma C5_counterexample :
  (let w := world (session "A2")
                  [Responds invalid_session_answer; renewal "A2";
                   ok (JObj [("ok", JBool true)])] in
   let run := _do imports 5 "/auth/providers" "GET" no_auth w in
   noAuth (assign_defaults no_auth) = true
   /\ count is_refresh (trace run) = 1%nat
   /\ count is_refresh (trace run) <> 0%nat)
  /\ (let w := world no_session [ok (JObj [("ok", JBool true)])] in
      let run := _do imports 5 "/auth/providers" "GET" no_auth_own_header w in
      noAuth (assign_defaults no_auth_own_header) = true
      /\ map (fun req => assoc "Authorization" (fa_headers (init req)))
              (flat_map (fun e => match e with Fetch Primary req => [req] | _ => [] end)
                        (trace run))
         = [Some "Bearer mine"]).
Proof.
  split.
  - vm_compute. repeat split; discriminate.
  - vm_compute. split; reflexivity.
Qed.

(** C5, witness: signing in through a provider with [noAuth] on and no
    session: the request is the second event and carries no
    [Authorization]. *)
Lemma C5_witness :
  let w := world no_session [ok (JObj [("ok", JBool true)])] in
  let run := _do imports 1 "/auth/providers" "GET" no_auth w in
  exists rest,
    trace run
    = entry "/auth/providers" "GET" (assign_defaults no_auth)
        :: Fetch Primary
             {| url := target_url imports "/auth/providers" (assign_defaults no_auth);
                init := shaped_args imports "GET" (assign_defaults no_auth) |}
        :: rest
    /\ assoc "Authorization"
             (fa_headers (shaped_args imports "GET" (assign_defaults no_auth))) = None
    /\ rest = []
    /\ store (final run) = no_session.
Proof.
  intros w run.
  destruct (C5_no_auth_request_is_unsigned
              imports 0 "/auth/providers" "GET" no_auth w eq_refl)
    as (rest & T & _ & Ha & Hr).
  exists rest. destruct (Hr eq_refl) as [Hrest Hs].
  split; [exact T | split; [apply Ha; [reflexivity | exact Logic.I] |]].
  split; [exact Hrest | exact Hs].
Defined.

(** C9, counterexample: the request is answered by an invalid session, the
    renewal hands out a token that has already expired ([A1]), so the
    re-entry refreshes again before its request: three entries and two
    refresh-triggered re-invocations. *)
Lemma C9_counterexample :
  let w := world (session "A2")
                 [Responds invalid_session_answer; renewal "A1"; renewal "A2";
                  ok (JObj [("_id", JStr "u1")])] in
  let run := _do imports 5 "/auth/me" "GET" no_options w in
  length (entries (trace run)) = 3%nat
  /\ count is_refresh (trace run) = 2%nat
  /\ count is_reactive (trace run) = 1%nat
  /\ count is_proactive (trace run) = 1%nat
  /\ ~ (length (entries (trace run)) <= 2)%nat
  /\ outcome run = Resolved {| status := 200; statusText := "OK";
                               contentType := Some "application/json";
                               payload := Some (JObj [("_id", JStr "u1")]) |}.
Proof. vm_compute. repeat split; try reflexivity. lia. Qed.

(** C9, witness: a session post (refresh token as bearer,
    [refreshOnFailure] off) answered by an invalid session, and a legacy
    call answered so twice. *)
Lemma C9_witness :
  (let run := _do imports 2 "/auth/session" "POST" (session_options)
                  (world (session "A2") [Responds invalid_session_answer]) in
   count is_reactive (trace run) = 0%nat
   /\ count is_proactive (trace run) = 0%nat
   /\ (length (entries (trace run)) <= 2)%nat
   /\ outcome run <> Pending)
  /\ (let run := Baas._doAuthed codec legacyUrl 2 "/auth/session" "POST" None None None
                                (world (localStorage "A1")
                                       [Responds invalid_session_answer; renewal "A2";
                                        Responds invalid_session_answer]) in
      (length (entries (trace run)) <= 2)%nat
      /\ (count is_refresh (trace run) <= 1)%nat
      /\ outcome run <> Pending).
Proof.
  pose proof (C9_reactive_retry_is_bounded
                imports codec legacyUrl 2 "/auth/session" "POST" session_options
                (world (session "A2") [Responds invalid_session_answer])
                None None None
                (world (localStorage "A1")
                       [Responds invalid_session_answer; renewal "A2";
                        Responds invalid_session_answer])) as Hc.
  cbv zeta in Hc |- *.
  destruct Hc as ((_ & R & _ & _ & G) & (L & Rf & _ & O)).
  split.
  - destruct (G eq_refl) as (Pa & Le & Op).
    split; [exact (R eq_refl) | split; [exact Pa | split; [exact Le |]]].
    apply Op; [lia |]. intros w1. apply spec_refresh_settles.
  - split; [exact L | split; [exact Rf | apply O; lia]].
Defined.

(** C6: the legacy client, signed in, gets a 400 with the JSON error code
    [BadRequest] for a pipeline call. The promise resolves, with
    [undefined]: no error reaches the caller. *)
Theorem C6_legacy_client_swallows_service_error :
  let w := world (localStorage "A1") [Responds bad_request_answer] in
  let run := Baas._doAuthed codec legacyUrl 2 "/pipeline" "POST" (Some "[]") None None w in
  is_2xx bad_request_answer = false
  /\ Baas.other_service_error bad_request_answer bad_request_body
  /\ outcome run = Resolved None
  /\ store (final run) = localStorage "A1"
  /\ count is_primary (trace run) = 1%nat.
Proof.
  cbv zeta. split; [reflexivity |]. split; [repeat split |].
  split; [vm_compute; reflexivity |]. split; vm_compute; reflexivity.
Qed.

(** C7: the legacy client is called with both [refreshOnFailure] and
    [useRefreshToken] on and is answered by an invalid session. The first
    entry sends the refresh token, the re-entry has [useRefreshToken] off
    and sends the access token. *)
Theorem C7_legacy_client_retry_drops_useRefreshToken :
  let w := world (localStorage "A1")
                 [Responds invalid_session_answer; renewal "A2";
                  ok (JObj [("ok", JBool true)])] in
  let run := Baas._doAuthed codec legacyUrl 2 "/auth" "DELETE" None (Some true) (Some true) w in
  entries (trace run)
  = [ {| Baas.call_resource := "/auth"; Baas.call_method := "DELETE";
         Baas.call_body := None; Baas.call_refreshOnFailure := true;
         Baas.call_useRefreshToken := true |};
      {| Baas.call_resource := "/auth"; Baas.call_method := "DELETE";
         Baas.call_body := None; Baas.call_refreshOnFailure := false;
         Baas.call_useRefreshToken := false |} ]
  /\ map (fun req => assoc "Authorization" (fa_headers (init req)))
         (flat_map (fun e => match e with Fetch Primary req => [req] | _ => [] end)
                   (trace run))
     = [Some "Bearer R1"; Some "Bearer A2"].
Proof. vm_compute. split; reflexivity. Qed.
End Runs.

(** * Further properties *)

(** ** Objects and texts *)

Section ObjectLookups.
Context {V : Type}.

Lemma assoc_absent (k : string) (o : list (string * V)) :
  ~ List.In k (map fst o) -> assoc k o = None.
Proof.
  induction o as [| [k0 v0] o IH]; simpl; [reflexivity |]. intros Hn.
  destruct (String.eqb_spec k0 k) as [-> | Hne]; [exfalso; apply Hn; now left |].
  apply IH. intros Hin. apply Hn. now right.
Qed.

(** [Object.assign(target, source)]: a key of the source wins. *)
Lemma assoc_assign (k : string) (target source : list (string * V)) :
  List.NoDup (map fst source) ->
  assoc k (assign target source)
  = match assoc k source with Some v => Some v | None => assoc k target end.
Proof.
  unfold assign. revert target.
  induction source as [| [k0 v0] source IH]; intros target Hnd; simpl; [reflexivity |].
  inversion Hnd as [| ? ? Hnotin Hnd']; subst. rewrite IH by assumption.
  destruct (String.eqb_spec k0 k) as [-> | Hne].
  - rewrite assoc_absent by assumption. apply assoc_set_key_eq.
  - destruct (assoc k source); [reflexivity |]. apply assoc_set_key_ne. congruence.
Qed.
End ObjectLookups.

Lemma append_assoc (a b c : string) : (a +:+ b) +:+ c = a +:+ (b +:+ c).
Proof.
  induction a as [| ch a IH]; [reflexivity |].
  change (String ch ((a +:+ b) +:+ c) = String ch (a +:+ (b +:+ c))). now rewrite IH.
Qed.

(** ** The current client: answers, headers and the session calls *)

Section StitchRequests.
Import Stitch StitchApi.
Context {A : Type} `{Auth A}.
Variable I : Imports.

Local Abbreviation Task := (@M A Call).
Local Abbreviation sent_once res meth o w :=
  (entry res meth o :: guard_trace o ++ credential_trace o
     ++ [Fetch Primary (request I res meth o (store w))]).

Lemma settled_after {T : Type} (t : list (Event Call)) (o : Outcome T) (w : World A) :
  after t (o, w, []) = (o, w, t).
Proof. unfold after. cbn [fst snd]. now rewrite app_nil_r. Qed.

(** An entry that sends its request and is answered without a retry does
    not depend on the fuel that is left. *)
Lemma do_answered_once (fuel : nat) (res meth : string) (raw : RawOptions) (w : World A)
    (r : Response) :
  let o := assign_defaults raw in
  sends_primary o (store w) = true -> net w (sent w) = Responds r ->
  retries I o r = false ->
  _do I (S fuel) res meth raw w
  = after (sent_once res meth o w) (classify I pending o r (next_request w)).
Proof.
  intros o P N Rt. rewrite (do_answered I fuel res meth raw w r P N).
  destruct (classify_settles I
              (_do I fuel res meth (as_raw (set_refreshOnFailure false o))) o r
              (next_request w) Rt) as (E & _).
  fold o. now rewrite E.
Qed.

Lemma no_primary_in_guard (o : Options) (req : Request) :
  ~ List.In (Fetch Primary req) (guard_trace o).
Proof.
  unfold guard_trace. destruct (noAuth o), (useRefreshToken o); simpl;
    intuition discriminate.
Qed.

Lemma no_primary_in_credential (o : Options) (req : Request) :
  ~ List.In (Fetch Primary req) (credential_trace o).
Proof. unfold credential_trace. destruct (noAuth o); simpl; intuition discriminate. Qed.

Lemma no_primary_in_renewals (reqs : list Request) (req : Request) :
  ~ List.In (Fetch Primary req) (renewals reqs : list (Event Call)).
Proof.
  unfold renewals. intros Hin. apply in_map_iff in Hin as (x & E & _). discriminate.
Qed.

(** X1. A success and a failure of the transport both end the dispatch as
    they are: a 2xx answer resolves it with the response itself, whatever
    its content type and body, and a request that the transport fails
    rejects it with that failure. One request went out, nothing was
    refreshed, and the token store was not written. *)
Theorem X1_success_and_transport_failure_pass_through
    (fuel : nat) (res meth : string) (raw : RawOptions) (w : World A) :
  let o := assign_defaults raw in
  let run := _do I (S fuel) res meth raw w in
  sends_primary o (store w) = true ->
  match net w (sent w) with
  | Responds r =>
      is_2xx r = true -> run = (Resolved r, next_request w, sent_once res meth o w)
  | Fails reason =>
      run = (Rejected (TransportFailure reason), next_request w, sent_once res meth o w)
  end.
Proof.
  intros o run P. subst run.
  destruct (net w (sent w)) as [r | reason] eqn:N.
  - intros E. rewrite (do_answered I fuel res meth raw w r P N).
    rewrite classify_ok by exact E. apply settled_after.
  - apply (do_unanswered I fuel res meth raw w reason P N).
Qed.

(** X2. An error answer that announces JSON and carries no JSON object
    rejects the dispatch with the error of the decoding: a [SyntaxError]
    when the body does not parse, a [TypeError] when it parses to
    something that is neither an object nor an array, so that
    ['errorCode' in json] throws. Nothing is refreshed or retried and the
    session is kept, whatever [refreshOnFailure]. *)
Theorem X2_malformed_error_body_is_rejected
    (fuel : nat) (res meth : string) (raw : RawOptions) (w : World A) (r : Response) :
  let o := assign_defaults raw in
  let run := _do I (S fuel) res meth raw w in
  sends_primary o (store w) = true -> net w (sent w) = Responds r ->
  is_2xx r = false -> contentType r = Some (JSONTYPE I) ->
  match payload r with
  | None => run = (Rejected SyntaxError, next_request w, sent_once res meth o w)
  | Some (JObj _) | Some (JArr _) => True
  | Some _ => run = (Rejected TypeError, next_request w, sent_once res meth o w)
  end.
Proof.
  intros o run P N E Ct. subst run.
  rewrite (do_answered I fuel res meth raw w r P N).
  unfold classify, response_json.
  rewrite E, bool_decide_eq_true_2 by exact Ct.
  destruct (payload r) as [[| b | n | s | items | fields] |];
    try exact Logic.I; try (rewrite bind_ret); cbn [invalid_session has_property];
    try rewrite bind_reject; apply settled_after.
Qed.

(** X3. The headers of the request: with [noAuth] off the [Authorization]
    that goes out is the bearer of the dispatcher, the refresh token under
    [useRefreshToken] and the access token otherwise, also when the caller
    passed an [Authorization] of their own; any other header is the
    caller's when they passed it and the default of [makeFetchArgs]
    otherwise. *)
Theorem X3_bearer_replaces_caller_authorization
    (fuel : nat) (res meth : string) (raw : RawOptions) (w : World A) (k : string) :
  let o := assign_defaults raw in
  let req := request I res meth o (store w) in
  let defaults := fa_headers (makeFetchArgs I meth (body o)) in
  sends_primary o (store w) = true ->
  List.NoDup (map fst (default [] (headers o))) ->
  List.In (Fetch Primary req) (trace (_do I (S fuel) res meth raw w))
  /\ (noAuth o = false ->
      assoc "Authorization" (fa_headers (init req)) = Some (bearer o (store w)))
  /\ (k <> "Authorization" \/ noAuth o = true ->
      assoc k (fa_headers (init req))
      = match headers o ≫= assoc k with
        | Some v => Some v
        | None => assoc k defaults
        end).
Proof.
  intros o req defaults P Hnd. subst req defaults. split; [| split].
  - rewrite do_sends by exact P. rewrite send_eq, trace_after. fold o.
    apply in_or_app. right.
    destruct (net w (sent w)) as [r | reason];
      [rewrite trace_after |]; rewrite <- ?app_assoc; apply in_or_app; right;
      now left.
  - intros N. unfold request. rewrite N. cbn [init fa_headers with_headers].
    apply assoc_set_key_eq.
  - intros Hk.
    assert (E : assoc k (fa_headers (shaped_args I meth o))
                = match headers o ≫= assoc k with
                  | Some v => Some v
                  | None => assoc k (fa_headers (makeFetchArgs I meth (body o)))
                  end).
    { unfold shaped_args. destruct (headers o) as [h |]; [| reflexivity].
      cbn [with_headers fa_headers mbind option_bind]. cbn [default] in Hnd.
      now apply assoc_assign. }
    unfold request. destruct (noAuth o) eqn:N; [exact E |].
    destruct Hk as [Hk | Hk]; [| discriminate].
    cbn [init with_headers fa_headers]. now rewrite assoc_set_key_ne.
Qed.

(** X4. Every request that one dispatch sends, the retried ones included,
    goes to the same URL with the same method and body, and with the same
    headers but for [Authorization]. *)
Theorem X4_retry_resends_the_same_request
    (fuel : nat) (res meth : string) (raw : RawOptions) (w : World A) (req : Request) :
  let o := assign_defaults raw in
  List.In (Fetch Primary req) (trace (_do I fuel res meth raw w)) ->
  url req = target_url I res o
  /\ fa_method (init req) = fa_method (shaped_args I meth o)
  /\ fa_body (init req) = fa_body (shaped_args I meth o)
  /\ (forall k, k <> "Authorization" ->
                assoc k (fa_headers (init req))
                = assoc k (fa_headers (shaped_args I meth o))).
Proof.
  cbv zeta. revert raw w. induction fuel as [| fuel IH]; intros raw w; [intros [] |].
  rewrite do_step. cbv zeta.
  set (o := assign_defaults raw). set (o' := set_refreshOnFailure false o).
  assert (Here : forall s,
             url (request I res meth o s) = target_url I res o
             /\ fa_method (init (request I res meth o s)) = fa_method (shaped_args I meth o)
             /\ fa_body (init (request I res meth o s)) = fa_body (shaped_args I meth o)
             /\ (forall k, k <> "Authorization" ->
                           assoc k (fa_headers (init (request I res meth o s)))
                           = assoc k (fa_headers (shaped_args I meth o)))).
  { intros s. unfold request. destruct (noAuth o); cbn [url init]; repeat split.
    intros k Hk. cbn [with_headers fa_headers]. now apply assoc_set_key_ne. }
  assert (Retry : forall why w0,
             List.In (Fetch Primary req)
                     (trace ((wait refreshToken why
                              then _do I fuel res meth (as_raw o')) w0)) ->
             url req = target_url I res o
             /\ fa_method (init req) = fa_method (shaped_args I meth o)
             /\ fa_body (init req) = fa_body (shaped_args I meth o)
             /\ (forall k, k <> "Authorization" ->
                           assoc k (fa_headers (init req))
                           = assoc k (fa_headers (shaped_args I meth o)))).
  { intros why w0. rewrite refreshToken_then.
    destruct (auth_refreshToken w0) as [[[u | e |] w1] reqs];
      rewrite ?trace_after, ?trace_settled; cbn [app];
      intros [Hin | Hin]; try discriminate;
      try (apply in_app_or in Hin as [Hin | Hin]);
      try (now apply no_primary_in_renewals in Hin).
    apply IH in Hin. now rewrite assign_defaults_as_raw in Hin. }
  destruct (sends_primary o (store w)) eqn:P.
  - rewrite send_eq, trace_after.
    assert (Sent : forall tail,
               List.In (Fetch Primary req)
                       ((entry res meth o :: guard_trace o)
                          ++ (credential_trace o
                                ++ [Fetch Primary (request I res meth o (store w))])
                          ++ tail) ->
               req = request I res meth o (store w) \/ List.In (Fetch Primary req) tail).
    { intros tail Hin. cbn [app] in Hin. destruct Hin as [Hin | Hin]; [discriminate |].
      apply in_app_or in Hin as [Hin | Hin]; [now apply no_primary_in_guard in Hin |].
      apply in_app_or in Hin as [Hin | Hin]; [| now right].
      apply in_app_or in Hin as [Hin | Hin]; [now apply no_primary_in_credential in Hin |].
      destruct Hin as [Hin | []]. left. now injection Hin. }
    destruct (net w (sent w)) as [r | reason].
    + rewrite trace_after. intros Hin. apply Sent in Hin as [-> | Hin]; [apply Here |].
      destruct (retries I o r) eqn:Rt.
      * rewrite classify_retries in Hin by exact Rt. now apply Retry in Hin.
      * destruct (classify_settles I (_do I fuel res meth (as_raw o')) o r
                    (next_request w) Rt) as (_ & _ & [T | T]);
          rewrite T in Hin; simpl in Hin; intuition discriminate.
    + rewrite trace_settled. intros Hin.
      rewrite <- (app_nil_r (credential_trace o ++ _)) in Hin.
      apply Sent in Hin as [-> | []]. apply Here.
  - destruct (truthy (auth_authedId (store w))).
    + rewrite trace_after. cbn [app]. intros [Hin | [Hin | [Hin | Hin]]]; try discriminate.
      now apply Retry in Hin.
    + rewrite trace_settled. simpl. intuition discriminate.
Qed.
End StitchRequests.

Section StitchSessionCalls.
Import Stitch StitchApi.
Context {A : Type} `{Auth A}.
Variable I : Imports.

Local Abbreviation Task := (@M A Call).
Local Abbreviation session := (assign_defaults session_options).
Local Abbreviation sent_once res meth o w :=
  (entry res meth o :: guard_trace o ++ credential_trace o
     ++ [Fetch Primary (request I res meth o (store w))]).

(** A call on [/auth/session]: the refresh token is the credential and
    [refreshOnFailure] is off, so that one entry settles it. *)
Lemma session_call (fuel : nat) (meth : string) (w : World A) :
  _do I (S fuel) "/auth/session" meth session_options w
  = if truthy (auth_authedId (store w)) then
      match net w (sent w) with
      | Responds r =>
          after [entry "/auth/session" meth session; Store AuthedId; Store GetRefreshToken;
                 Fetch Primary (request I "/auth/session" meth session (store w))]
                (classify I pending session r (next_request w))
      | Fails reason =>
          (Rejected (TransportFailure reason), next_request w,
           [entry "/auth/session" meth session; Store AuthedId; Store GetRefreshToken;
            Fetch Primary (request I "/auth/session" meth session (store w))])
      end
    else (Rejected (must_auth_first I), w,
          [entry "/auth/session" meth session; Store AuthedId]).
Proof.
  destruct (truthy (auth_authedId (store w))) eqn:U.
  - assert (P : sends_primary session (store w) = true).
    { unfold sends_primary. now rewrite U. }
    destruct (net w (sent w)) as [r | reason] eqn:N.
    + now rewrite (do_answered_once I fuel "/auth/session" meth session_options w r P N).
    + now rewrite (do_unanswered I fuel "/auth/session" meth session_options w reason P N).
  - now rewrite do_unauthenticated.
Qed.

Lemma session_classify_rejects (r : Response) (w : World A) :
  is_2xx r = false ->
  forall v, outcome (classify I pending session r w) <> Resolved v.
Proof.
  intros E v. unfold classify, response_json. rewrite E.
  destruct (bool_decide (contentType r = Some (JSONTYPE I))); [| discriminate].
  destruct (payload r) as [j |]; [| discriminate].
  rewrite bind_ret. destruct (invalid_session I j) as [[|] |]; discriminate.
Qed.

Ltac quiet :=
  split; [discriminate |];
  split; [reflexivity |];
  split; [reflexivity |];
  split; [intros ? Hin; simpl in Hin; intuition discriminate | reflexivity].

Lemma session_classify_quiet (r : Response) (w : World A) :
  outcome (classify I pending session r w) <> Pending
  /\ count is_refresh (trace (classify I pending session r w)) = 0%nat
  /\ count is_primary (trace (classify I pending session r w)) = 0%nat
  /\ (forall req, ~ List.In (Fetch Primary req) (trace (classify I pending session r w)))
  /\ store (final (classify I pending session r w))
     = if negb (is_2xx r) && signals_invalid_session I r
       then auth_clear (store w) else store w.
Proof.
  unfold classify, signals_invalid_session, response_json.
  destruct (is_2xx r); cbn [negb andb]; [quiet |].
  destruct (bool_decide (contentType r = Some (JSONTYPE I))); cbn [andb]; [| quiet].
  destruct (payload r) as [j |]; [| quiet].
  rewrite bind_ret. destruct (invalid_session I j) as [[|] |]; quiet.
Qed.

(** X5. [logout()] sends one [DELETE] for [/auth/session] bearing the
    refresh token, never refreshes, and settles. The local session is
    cleared exactly when somebody was signed in and the service answered
    with a success or with an invalid session; on any other answer and on
    a failure of the transport it is kept. The promise resolves exactly
    on a success. *)
Theorem X5_logout_clears_when_the_service_ended_the_session (fuel : nat) (w : World A) :
  let run := logout I (S fuel) w in
  let signed_in := truthy (auth_authedId (store w)) in
  let ended :=
    signed_in
    && match net w (sent w) with
       | Responds r => is_2xx r || signals_invalid_session I r
       | Fails _ => false
       end in
  count is_refresh (trace run) = 0%nat
  /\ outcome run <> Pending
  /\ count is_primary (trace run) = (if signed_in then 1 else 0)%nat
  /\ (forall req, List.In (Fetch Primary req) (trace run) ->
        req = request I "/auth/session" "DELETE" session (store w)
        /\ assoc "Authorization" (fa_headers (init req))
           = Some ("Bearer " +:+ to_text (auth_getRefreshToken (store w))))
  /\ store (final run) = (if ended then auth_clear (store w) else store w)
  /\ (outcome run = Resolved tt
      <-> signed_in = true /\ exists r, net w (sent w) = Responds r /\ is_2xx r = true).
Proof.
  intros run signed_in ended. subst run signed_in ended.
  assert (Hb : forall s,
             assoc "Authorization"
                   (fa_headers (init (request I "/auth/session" "DELETE" session s)))
             = Some ("Bearer " +:+ to_text (auth_getRefreshToken s))).
  { intros s. unfold request. cbn [noAuth assign_defaults session_options raw_noAuth
                                   init with_headers fa_headers].
    rewrite assoc_set_key_eq. reflexivity. }
  unfold logout, bind. rewrite session_call. unfold signals_invalid_session.
  destruct (truthy (auth_authedId (store w))); cbn [andb];
    [| split; [reflexivity |]; split; [discriminate |]; split; [reflexivity |];
       split; [intros ? Hin; simpl in Hin; intuition discriminate |];
       split; [reflexivity |]; split; [discriminate | intros (? & _); discriminate]].
  destruct (net w (sent w)) as [r | reason];
    [| split; [reflexivity |]; split; [discriminate |]; split; [reflexivity |];
       split; [intros ? [Hin | [Hin | [Hin | [Hin | []]]]]; try discriminate;
               injection Hin as <-; split; [reflexivity | apply Hb] |];
       split; [reflexivity |];
       split; [discriminate | intros (_ & ? & ? & _); discriminate]].
  unfold classify, response_json.
  assert (Only : forall (req : Request) (tail : list (Event Call)),
             (forall req', ~ List.In (Fetch Primary req') tail) ->
             List.In (Fetch Primary req)
                     ([entry "/auth/session" "DELETE" session; Store AuthedId;
                       Store GetRefreshToken;
                       Fetch Primary (request I "/auth/session" "DELETE" session (store w))]
                        ++ tail) ->
             req = request I "/auth/session" "DELETE" session (store w)
             /\ assoc "Authorization" (fa_headers (init req))
                = Some ("Bearer " +:+ to_text (auth_getRefreshToken (store w)))).
  { intros req tail Ht Hin. apply in_app_or in Hin as [Hin | Hin];
      [| now apply Ht in Hin].
    destruct Hin as [Hin | [Hin | [Hin | [Hin | []]]]]; try discriminate.
    injection Hin as <-. split; [reflexivity | apply Hb]. }
  destruct (is_2xx r) eqn:E; cbn [negb andb orb].
  { split; [reflexivity |]. split; [discriminate |]. split; [reflexivity |].
    split; [| split; [reflexivity |]; split; [intros _; split; [reflexivity |]; now exists r
                                             | reflexivity]].
    intros req Hin. apply (Only req [Store Clear]); [| exact Hin].
    intros ? [Hc | []]. discriminate. }
  assert (Rejects : forall (e : Err) (w1 : World A) (tail : list (Event Call)),
             (forall req', ~ List.In (Fetch Primary req') tail) ->
             count is_refresh tail = 0%nat -> count is_primary tail = 0%nat ->
             let run :=
               match after [entry "/auth/session" "DELETE" session; Store AuthedId;
                            Store GetRefreshToken;
                            Fetch Primary
                              (request I "/auth/session" "DELETE" session (store w))]
                           ((Rejected e, w1, tail)
                            : Outcome Response * World A * list (Event Call)) with
               | (Resolved v, w2, t2) => after t2 (clear w2)
               | (Rejected e', w2, t2) => (Rejected e', w2, t2)
               | (Pending, w2, t2) => (Pending, w2, t2)
               end in
             count is_refresh (trace run) = 0%nat
             /\ outcome run <> Pending
             /\ count is_primary (trace run) = 1%nat
             /\ (forall req, List.In (Fetch Primary req) (trace run) ->
                   req = request I "/auth/session" "DELETE" session (store w)
                   /\ assoc "Authorization" (fa_headers (init req))
                      = Some ("Bearer " +:+ to_text (auth_getRefreshToken (store w))))
             /\ store (final run) = store w1
             /\ (outcome run = Resolved tt
                 <-> true = true /\ exists r0, Responds r = Responds r0 /\ is_2xx r0 = true)).
  { intros e w1 tail Ht Rf Pr run. subst run. cbn [after fst snd].
    rewrite !trace_settled, outcome_settled, final_settled.
    split; [cbn [app]; rewrite !count_cons, Rf; reflexivity |].
    split; [discriminate |].
    split; [cbn [app]; rewrite !count_cons, Pr; reflexivity |].
    split; [intros req Hin; now apply (Only req tail) |].
    split; [reflexivity |].
    split; [discriminate |]. intros (_ & r0 & Er & E0). injection Er as <-. congruence. }
  destruct (bool_decide (contentType r = Some (JSONTYPE I))); cbn [andb];
    [| apply (Rejects _ (next_request w) []); auto; intros ? []].
  destruct (payload r) as [j |];
    [| apply (Rejects _ (next_request w) []); auto; intros ? []].
  rewrite bind_ret.
  destruct (invalid_session I j) as [[|] |];
    [| apply (Rejects _ (next_request w) []); auto; intros ? []
     | apply (Rejects _ (next_request w) []); auto; intros ? []].
  apply (Rejects _ (with_store (auth_clear (store (next_request w))) (next_request w))
                 [Store Clear]); auto.
  intros ? [Hc | []]. discriminate.
Qed.

(** X6. [doSessionPost()] sends one [POST] for [/auth/session] bearing the
    refresh token, never refreshes, and settles. It resolves with [j]
    exactly when somebody is signed in and the answer is a success whose
    body decodes to [j]. *)
Theorem X6_doSessionPost_resolves_with_the_decoded_success
    (fuel : nat) (w : World A) (j : json) :
  let run := doSessionPost I (S fuel) w in
  count is_refresh (trace run) = 0%nat
  /\ outcome run <> Pending
  /\ (forall req, List.In (Fetch Primary req) (trace run) ->
        req = request I "/auth/session" "POST" session (store w)
        /\ assoc "Authorization" (fa_headers (init req))
           = Some ("Bearer " +:+ to_text (auth_getRefreshToken (store w))))
  /\ (outcome run = Resolved j
      <-> truthy (auth_authedId (store w)) = true
          /\ exists r, net w (sent w) = Responds r /\ is_2xx r = true
                       /\ payload r = Some j).
Proof.
  intros run. subst run.
  assert (Hb : forall s,
             assoc "Authorization"
                   (fa_headers (init (request I "/auth/session" "POST" session s)))
             = Some ("Bearer " +:+ to_text (auth_getRefreshToken s))).
  { intros s. unfold request. cbn [noAuth assign_defaults session_options raw_noAuth
                                   init with_headers fa_headers].
    rewrite assoc_set_key_eq. reflexivity. }
  unfold doSessionPost, bind. rewrite session_call.
  destruct (truthy (auth_authedId (store w)));
    [| split; [reflexivity |]; split; [discriminate |];
       split; [intros ? Hin; simpl in Hin; intuition discriminate |];
       split; [discriminate | intros (? & _); discriminate]].
  assert (Only : forall (req : Request) (tail : list (Event Call)),
             (forall req', ~ List.In (Fetch Primary req') tail) ->
             List.In (Fetch Primary req)
                     ([entry "/auth/session" "POST" session; Store AuthedId;
                       Store GetRefreshToken;
                       Fetch Primary (request I "/auth/session" "POST" session (store w))]
                        ++ tail) ->
             req = request I "/auth/session" "POST" session (store w)
             /\ assoc "Authorization" (fa_headers (init req))
                = Some ("Bearer " +:+ to_text (auth_getRefreshToken (store w)))).
  { intros req tail Ht Hin. apply in_app_or in Hin as [Hin | Hin];
      [| now apply Ht in Hin].
    destruct Hin as [Hin | [Hin | [Hin | [Hin | []]]]]; try discriminate.
    injection Hin as <-. split; [reflexivity | apply Hb]. }
  destruct (net w (sent w)) as [r | reason];
    [| split; [reflexivity |]; split; [discriminate |];
       split; [intros req Hin; apply (Only req []); [intros ? [] | exact Hin] |];
       split; [discriminate | intros (_ & ? & ? & _); discriminate]].
  destruct (is_2xx r) eqn:E.
  - rewrite classify_ok by exact E. cbn [after fst snd app]. unfold response_json.
    destruct (payload r) as [j0 |] eqn:Ep; unfold ret, reject, after; cbn [fst snd app];
      rewrite !trace_settled, outcome_settled;
      (split; [reflexivity |]); (split; [discriminate |]);
      (split; [intros req Hin; apply (Only req []); [intros ? [] | exact Hin] |]).
    + split.
      * intros Ej. injection Ej as <-. split; [reflexivity |]. now exists r.
      * intros (_ & r0 & Er & _ & Ep0). injection Er as <-. congruence.
    + split; [discriminate |]. intros (_ & r0 & Er & _ & Ep0). injection Er as <-.
      congruence.
  - destruct (session_classify_quiet r (next_request w)) as (O & R & _ & F & _).
    pose proof (session_classify_rejects r (next_request w) E) as Rej.
    destruct (classify I pending session r (next_request w)) as [[[v | e |] w1] t1];
      cbn [outcome trace fst snd] in O, R, F, Rej;
      [now contradiction (Rej v) | | contradiction].
    cbn [after fst snd]. rewrite !trace_settled, outcome_settled.
    split; [cbn [app]; rewrite !count_cons, R; reflexivity |].
    split; [discriminate |].
    split; [intros req Hin; now apply (Only req t1) |].
    split; [discriminate |]. intros (_ & r0 & Er & E0 & _). injection Er as <-. congruence.
Qed.

(** X7. [userProfile()] asks for [/auth/me] with a [GET] bearing the
    access token. Nobody signed in: it is rejected on the spot. Signed in
    with a token that has not expired and answered by a success: it
    settles with what [response.json()] gives, the decoded body or the
    [SyntaxError] of a body that does not parse. *)
Theorem X7_userProfile_decodes_the_success (fuel : nat) (w : World A) :
  let o := assign_defaults no_options in
  let run := userProfile I (S fuel) w in
  let req := request I "/auth/me" "GET" o (store w) in
  assoc "Authorization" (fa_headers (init req))
  = Some ("Bearer " +:+ to_text (auth_getAccessToken (store w)))
  /\ (truthy (auth_authedId (store w)) = false ->
      run = (Rejected (must_auth_first I), w, [entry "/auth/me" "GET" o; Store AuthedId]))
  /\ (truthy (auth_authedId (store w)) = true ->
      auth_isAccessTokenExpired (store w) = false ->
      forall r, net w (sent w) = Responds r -> is_2xx r = true ->
      run = (match payload r with
             | Some j => Resolved j
             | None => Rejected SyntaxError
             end, next_request w,
             [entry "/auth/me" "GET" o; Store AuthedId; Store IsAccessTokenExpired;
              Store GetAccessToken; Fetch Primary req])).
Proof.
  intros o run req. subst o run req. split.
  { unfold request. cbn [noAuth assign_defaults no_options raw_noAuth
                         init with_headers fa_headers].
    rewrite assoc_set_key_eq. reflexivity. }
  split.
  - intros U. unfold userProfile, bind. now rewrite do_unauthenticated.
  - intros U E r N Ok. unfold userProfile, bind.
    assert (P : sends_primary (assign_defaults no_options) (store w) = true).
    { unfold sends_primary. now rewrite U, E. }
    rewrite (do_answered I fuel "/auth/me" "GET" no_options w r P N).
    rewrite classify_ok by exact Ok. cbn [after fst snd app]. unfold response_json.
    destruct (payload r); reflexivity.
Qed.

(** X8. The session endpoint that [logout()] and [doSessionPost()] call.
    For a client of an app it is [authUrl] followed by [/session]. For a
    client without an app id it is on the public API, version 2, while
    [authUrl] is on the admin API, version 3: the two differ. *)
Theorem X8_session_endpoint_is_under_authUrl_for_apps (meth : string) (s : A) :
  let u := url (request I "/auth/session" meth session s) in
  if has_clientAppID I
  then u = authUrl I +:+ "/session"
  else u = baseUrl I +:+ "/api/public/v2.0/auth/session"
       /\ u <> authUrl I +:+ "/session".
Proof.
  cbv zeta. unfold request, target_url, authUrl. cbn [url].
  cbn [apiVersion apiType queryParams assign_defaults session_options raw_apiVersion
       raw_apiType raw_queryParams default rootURLsByAPIVersion].
  change (String.eqb "app" "public") with false.
  change (String.eqb "app" "client") with false.
  change (String.eqb "app" "private") with false.
  change (String.eqb "app" "app") with true.
  cbv iota. unfold default, id.
  destruct (has_clientAppID I).
  - now rewrite !append_assoc.
  - rewrite !append_assoc. split; [reflexivity |].
    intros E. apply String.app_inj in E. discriminate.
Qed.

(** X9. [login(email, password, options)]. Somebody signed in: it resolves
    with their id and asks no provider, whatever the credentials. Nobody
    signed in: the provider is [anon], with the options as they are, when
    the email or the password is [undefined], and [userpass] otherwise,
    with the email as [username] and the password next to the options;
    an option of either name replaces the argument. *)
Theorem X9_login_chooses_the_provider
    (email password : jsval) (options : list (string * json)) (w : World A) (k : string) :
  let anon := match email, password with Some _, Some _ => false | _, _ => true end in
  let providerType := if anon then "anon" else "userpass" in
  let run := login email password options w in
  List.NoDup (map fst options) ->
  if truthy (auth_getAccessToken (store w)) then
    run = (Resolved (auth_authedId (store w)), w, [Store GetAccessToken; Store AuthedId])
  else
    exists credentials,
      run = after [Store GetAccessToken; Provider providerType]
                  ((wait on_auth (auth_provider providerType (Some (JObj credentials)))
                    then authedId) w)
      /\ assoc k credentials
         = match assoc k options with
           | Some v => Some v
           | None =>
               if anon then None
               else if String.eqb k "username" then email
               else if String.eqb k "password" then password
               else None
           end.
Proof.
  intros anon providerType run Hnd. subst anon providerType run.
  assert (Eq : forall p o,
             authenticate p o w
             = if truthy (auth_getAccessToken (store w)) then
                 (Resolved (auth_authedId (store w)), w, [Store GetAccessToken; Store AuthedId])
               else after [Store GetAccessToken; Provider p]
                          ((wait on_auth (auth_provider p o) then authedId) w)).
  { intros p o. unfold authenticate, getAccessToken.
    rewrite bind_bind, bind_emit, bind_read.
    destruct (truthy (auth_getAccessToken (store w))).
    - unfold authedId. rewrite bind_emit. reflexivity.
    - rewrite bind_emit, after_after. reflexivity. }
  unfold login.
  destruct email as [e |], password as [p |]; rewrite Eq;
    destruct (truthy (auth_getAccessToken (store w))); try reflexivity;
    eexists; (split; [reflexivity |]).
  - rewrite assoc_assign by exact Hnd. destruct (assoc k options); [reflexivity |].
    cbn [assoc]. rewrite !(String.eqb_sym k).
    destruct (String.eqb "username" k); [reflexivity |].
    destruct (String.eqb "password" k); reflexivity.
  - destruct (assoc k options); reflexivity.
  - destruct (assoc k options); reflexivity.
  - destruct (assoc k options); reflexivity.
Qed.
End StitchSessionCalls.

(** ** The legacy client: what it resolves with, and the calls built on it *)

Section LegacyCalls.
Import Baas BaasApi.
Variable codec : Codec.
Variable JSON_stringify : json -> string.
Variable appUrl : string.

Local Abbreviation Storage := (gmap string string).
Local Abbreviation Task := (@M Storage Call).

Lemma bind_pending {T U : Type} (m : Task T) (k : T -> Task U) (w w1 : World Storage)
    (t1 : list (Event Call)) :
  m w = (Pending, w1, t1) -> (await x <- m then k x) w = (Pending, w1, t1).
Proof. intros E. unfold bind. now rewrite E. Qed.

Lemma bind_write {U : Type} (f : Storage -> Storage) (k : Task U) (w : World Storage) :
  (wait write f then k) w = k (with_store (f (store w)) w).
Proof. unfold bind, write. apply after_nil. Qed.

(** What [_doAuthed] resolves with, and the answer that made it. *)
Lemma doAuthed_resolved (fuel : nat) (res meth : string) (body : option string)
    (rof urt : option bool) (w : World Storage) (v : option Response) :
  let run := _doAuthed codec appUrl fuel res meth body rof urt w in
  outcome run = Resolved v ->
  exists r,
    net w (pred (sent (final run))) = Responds r
    /\ match v with
       | Some r' => r' = r /\ is_2xx r = true
       | None => is_2xx r = false /\ exists j, other_service_error r j
       end.
Proof.
  cbv zeta. revert rof urt w.
  induction fuel as [| fuel IH]; intros rof urt w; [discriminate |].
  destruct (auth_cases codec w) as [Hout | [[a Hin] | Hbad]].
  - rewrite doAuthed_signed_out by assumption. discriminate.
  - rewrite (doAuthed_sends codec appUrl fuel res meth body rof urt w a Hin).
    destruct (net w (sent w)) as [r0 | reason] eqn:N; [| discriminate].
    rewrite outcome_after, final_after. unfold classify, response_json.
    destruct (is_2xx r0) eqn:E.
    { intros Ev. injection Ev as <-. exists r0. cbn. now rewrite N. }
    destruct (bool_decide (contentType r0 = Some "application/json")) eqn:Ct;
      [| discriminate].
    apply bool_decide_eq_true_1 in Ct.
    destruct (payload r0) as [j |] eqn:Ep; [| discriminate].
    rewrite bind_ret.
    destruct (invalid_session j) as [[|] |] eqn:Ei; [| | discriminate].
    + destruct (default true rof); cbn [negb]; [| discriminate].
      rewrite bind_emit, outcome_after, final_after. unfold bind.
      destruct (refreshToken_once codec appUrl (next_request w)) as (_ & _ & Nn & _).
      destruct (_refreshToken codec appUrl (next_request w)) as [[[u | e |] w1] t1];
        [| discriminate | discriminate].
      cbn [final fst snd] in Nn. rewrite outcome_after, final_after.
      intros Ev. apply IH in Ev as (r & Er & Hv). exists r. split; [| exact Hv].
      rewrite <- Er, Nn. reflexivity.
    + intros Ev. injection Ev as <-. exists r0. cbn. rewrite N.
      split; [reflexivity |]. split; [exact E |]. exists j. now repeat split.
  - rewrite doAuthed_corrupt by assumption. discriminate.
Qed.

(** X10. The legacy dispatcher never resolves with an error response:
    the response it resolves with is the last answer and has a 2xx
    status. When it resolves with [undefined], the last answer was an
    error with a JSON body that is not an invalid session: the error
    itself does not reach the caller. *)
Theorem X10_legacy_resolves_with_a_success_or_nothing
    (fuel : nat) (res meth : string) (body : option string)
    (rof urt : option bool) (w : World Storage) :
  let run := _doAuthed codec appUrl fuel res meth body rof urt w in
  let last := net w (pred (sent (final run))) in
  match outcome run with
  | Resolved (Some r) => last = Responds r /\ is_2xx r = true
  | Resolved None =>
      exists r j, last = Responds r /\ is_2xx r = false /\ other_service_error r j
  | Rejected _ | Pending => True
  end.
Proof.
  intros run last. subst last.
  pose proof (doAuthed_resolved fuel res meth body rof urt w) as Hr. cbv zeta in Hr.
  fold run in Hr. destruct (outcome run) as [[r |] | e |]; try exact Logic.I.
  - destruct (Hr (Some r) eq_refl) as (r0 & E & <- & Ok). now split.
  - destruct (Hr None eq_refl) as (r0 & E & Ne & j & Hj). now exists r0, j.
Qed.

(** [checkStatus] after the dispatcher: a response that arrives is a
    success already. *)
Lemma checkStatus_of_dispatch (fuel : nat) (res meth : string) (body : option string)
    (rof urt : option bool) (w : World Storage) :
  (await response <- _doAuthed codec appUrl fuel res meth body rof urt
   then checkStatus response) w
  = (await response <- _doAuthed codec appUrl fuel res meth body rof urt
     then match response with
          | Some r => ret r
          | None => reject TypeError
          end) w.
Proof.
  pose proof (doAuthed_resolved fuel res meth body rof urt w) as Hr. cbv zeta in Hr.
  unfold bind.
  destruct (_doAuthed codec appUrl fuel res meth body rof urt w)
    as [[[v | e |] w1] t1] eqn:Run; try reflexivity.
  destruct v as [r |]; [| reflexivity].
  destruct (Hr (Some r) eq_refl) as (r0 & _ & <- & Ok). unfold checkStatus.
  now rewrite Ok.
Qed.

(** X11. [executePipeline(stages)] never rejects with the status error of
    [checkStatus]: the dispatcher has passed on a success, or nothing. It
    sends what the dispatcher sends for the serialized stages and leaves
    the world as the dispatcher leaves it; it settles with the decoded
    body of the success, with a [TypeError] when the dispatcher resolved
    with [undefined], and with the dispatcher's own rejection. *)
Theorem X11_executePipeline_follows_the_dispatcher
    (fuel : nat) (stages : list json) (w : World Storage) :
  let run := executePipeline codec JSON_stringify appUrl fuel stages w in
  let sent := _doAuthed codec appUrl fuel "/pipeline" "POST"
                        (Some (JSON_stringify (JArr stages))) None None w in
  trace run = trace sent
  /\ final run = final sent
  /\ outcome run
     = match outcome sent with
       | Resolved (Some r) =>
           match payload r with
           | Some j => Resolved j
           | None => Rejected SyntaxError
           end
       | Resolved None => Rejected TypeError
       | Rejected e => Rejected e
       | Pending => Pending
       end.
Proof.
  intros run sent. subst run sent. unfold executePipeline.
  pose proof (doAuthed_resolved fuel "/pipeline" "POST"
                (Some (JSON_stringify (JArr stages))) None None w) as Hr.
  cbv zeta in Hr.
  destruct (_doAuthed codec appUrl fuel "/pipeline" "POST"
                      (Some (JSON_stringify (JArr stages))) None None w)
    as [[[[r |] | e |] w1] t1] eqn:Run.
  - rewrite (bind_resolved _ _ _ _ _ _ Run).
    destruct (Hr (Some r) eq_refl) as (r0 & _ & <- & Ok).
    unfold checkStatus. rewrite Ok, bind_ret. unfold response_json.
    rewrite trace_after, final_after, outcome_after.
    cbn [outcome fst]. destruct (payload r); cbn; rewrite app_nil_r; now repeat split.
  - rewrite (bind_resolved _ _ _ _ _ _ Run). unfold checkStatus.
    rewrite bind_reject. cbn. rewrite app_nil_r. now repeat split.
  - rewrite (bind_rejected _ _ _ _ _ _ Run). now repeat split.
  - rewrite (bind_pending _ _ _ _ _ Run). now repeat split.
Qed.

(** X12. The legacy [logout()] sends one [DELETE] for [/auth] bearing the
    stored refresh token and does not refresh. Both keys of the session
    are removed when the answer is a success and when it is an error
    with a JSON body that decodes to an object or an array, whatever its
    code: the promise even resolves on such an error when it is not an
    invalid session. On any other answer and on a failure of the
    transport the storage is kept and the promise is rejected. *)
Theorem X12_legacy_logout_clears_on_any_structured_answer
    (fuel : nat) (w : World Storage) (a : json) :
  let run := logout codec appUrl (S fuel) w in
  let structured (r : Response) :=
    bool_decide (contentType r = Some "application/json")
    && match payload r ≫= invalid_session with Some _ => true | None => false end in
  signed_in codec (store w) a ->
  trace run = [entry "/auth" "DELETE" None false true;
               Fetch Primary (request appUrl "/auth" "DELETE" None true (store w) a)]
  /\ outcome run <> Pending
  /\ store (final run)
     = match net w (sent w) with
       | Responds r => if is_2xx r || structured r then cleared (store w) else store w
       | Fails _ => store w
       end
  /\ (outcome run = Resolved tt
      <-> exists r, net w (sent w) = Responds r
                    /\ (is_2xx r = true \/ exists j, other_service_error r j)).
Proof.
  intros run structured Hin. subst run structured. unfold logout, bind.
  rewrite (doAuthed_sends codec appUrl fuel "/auth" "DELETE" None (Some false) (Some true)
                          w a Hin).
  change (default true (Some false)) with false.
  change (default false (Some true)) with true.
  destruct (net w (sent w)) as [r | reason];
    [| cbv beta iota; rewrite trace_settled, outcome_settled, final_settled;
       split; [reflexivity |]; split; [discriminate |]; split; [reflexivity |];
       split; [discriminate | intros (? & ? & _); discriminate]].
  unfold classify, response_json, other_service_error.
  destruct (is_2xx r) eqn:E; cbn [orb].
  { split; [reflexivity |]. split; [discriminate |]. split; [reflexivity |].
    split; [intros _; exists r; split; [reflexivity | now left] | reflexivity]. }
  destruct (bool_decide (contentType r = Some "application/json")) eqn:Ct; cbn [andb];
    [apply bool_decide_eq_true_1 in Ct | apply bool_decide_eq_false_1 in Ct].
  2:{ split; [reflexivity |]. split; [discriminate |]. split; [reflexivity |].
      split; [discriminate |]. intros (r0 & Er & [Ok | (j & C0 & _)]);
        injection Er as <-; congruence. }
  destruct (payload r) as [j |] eqn:Ep; cbn [mbind option_bind].
  2:{ split; [reflexivity |]. split; [discriminate |]. split; [reflexivity |].
      split; [discriminate |]. intros (r0 & Er & [Ok | (j & _ & P0 & _)]);
        injection Er as <-; congruence. }
  rewrite bind_ret.
  destruct (invalid_session j) as [[|] |] eqn:Ei; cbn [negb].
  - split; [reflexivity |]. split; [discriminate |]. split; [reflexivity |].
    split; [discriminate |]. intros (r0 & Er & [Ok | (j0 & _ & P0 & I0)]);
      injection Er as <-; congruence.
  - split; [reflexivity |]. split; [discriminate |]. split; [reflexivity |].
    split; [| reflexivity]. intros _. exists r. split; [reflexivity |]. right.
    exists j. now repeat split.
  - split; [reflexivity |]. split; [discriminate |]. split; [reflexivity |].
    split; [discriminate |]. intros (r0 & Er & [Ok | (j0 & _ & P0 & I0)]);
      injection Er as <-; congruence.
Qed.

(** X13. [_setAuth(json)] and [auth()] round-trip: what [auth()] then
    gives is the object without its [refreshToken], every other property
    as it was, provided the codec decodes what it encoded. The refresh
    token is stored apart, as text, the text [undefined] when the object
    has none, and that text is the bearer of the next renewal. Every
    other key of the storage is left alone. *)
Theorem X13_setAuth_then_auth_round_trip (j : json) (rt : jsval) (w : World Storage) :
  let run := (wait _setAuth codec j then auth codec) w in
  property "refreshToken" j = Some rt ->
  encode codec (without_refreshToken j) ≫= decode codec = Some (without_refreshToken j) ->
  outcome run = Resolved (without_refreshToken j)
  /\ property_or_undefined "refreshToken" (without_refreshToken j) = undefined
  /\ (forall k, k <> "refreshToken" ->
                property k (without_refreshToken j) = property k j)
  /\ store (final run) !! REFRESH_TOKEN_KEY = Some (to_text rt)
  /\ assoc "Authorization"
           (fa_headers (init (renewal_request appUrl (store (final run)))))
     = Some ("Bearer " +:+ to_text rt)
  /\ (forall key, key <> USER_AUTH_KEY -> key <> REFRESH_TOKEN_KEY ->
                  store (final run) !! key = store w !! key).
Proof.
  intros run Hrt Hcodec. subst run. unfold _setAuth. rewrite Hrt.
  destruct (encode codec (without_refreshToken j)) as [text |]; [| discriminate].
  cbn [mbind option_bind] in Hcodec. rewrite bind_write.
  unfold auth. rewrite bind_read. cbn [store with_store].
  rewrite lookup_insert_ne by discriminate. rewrite lookup_insert_eq, Hcodec.
  cbn [outcome final trace ret fst snd store].
  split; [reflexivity |]. split; [| split; [| split; [| split]]].
  - destruct j; try reflexivity. cbn. apply assoc_remove_key_eq.
  - intros k Hk. destruct j; try reflexivity. cbn. f_equal.
    now apply assoc_remove_key_ne.
  - apply lookup_insert_eq.
  - unfold renewal_request. cbn [init fa_headers store with_store].
    rewrite lookup_insert_eq. reflexivity.
  - intros key Hu Hr. cbn [store with_store].
    rewrite !lookup_insert_ne by congruence. reflexivity.
Qed.

(** X14. [_setAuth(json)] on [null] throws a [TypeError], and on an
    object that [btoa] refuses an [InvalidCharacterError]: either way
    nothing is stored and [_clearAuth()] after it does not run. On
    anything else, [_clearAuth()] after it signs out again: both keys are
    gone, [auth()] gives [null], the next dispatch is rejected before any
    request, and every other key of the storage is as it was before the
    two. *)
Theorem X14_setAuth_then_clearAuth_signs_out
    (j : json) (w : World Storage)
    (fuel : nat) (res meth : string) (body : option string) (rof urt : option bool) :
  let run := (wait _setAuth codec j then _clearAuth) w in
  match j with
  | JNull => run = (Rejected TypeError, w, [])
  | _ =>
      match encode codec (without_refreshToken j) with
      | None => run = (Rejected InvalidCharacterError, w, [])
      | Some _ =>
          outcome run = Resolved tt
          /\ store (final run) !! USER_AUTH_KEY = None
          /\ store (final run) !! REFRESH_TOKEN_KEY = None
          /\ (forall key, key <> USER_AUTH_KEY -> key <> REFRESH_TOKEN_KEY ->
                          store (final run) !! key = store w !! key)
          /\ auth codec (final run) = (Resolved JNull, final run, [])
          /\ _doAuthed codec appUrl (S fuel) res meth body rof urt (final run)
             = (Rejected (Error "Must auth first" None), final run,
                [entry res meth body (default true rof) (default false urt)])
      end
  end.
Proof.
  intros run. subst run.
  assert (Hset : forall rt,
             property "refreshToken" j = Some rt ->
             let run := (wait _setAuth codec j then _clearAuth) w in
             match encode codec (without_refreshToken j) with
             | None => run = (Rejected InvalidCharacterError, w, [])
             | Some _ =>
                 outcome run = Resolved tt
                 /\ store (final run) !! USER_AUTH_KEY = None
                 /\ store (final run) !! REFRESH_TOKEN_KEY = None
                 /\ (forall key, key <> USER_AUTH_KEY -> key <> REFRESH_TOKEN_KEY ->
                                 store (final run) !! key = store w !! key)
                 /\ auth codec (final run) = (Resolved JNull, final run, [])
                 /\ _doAuthed codec appUrl (S fuel) res meth body rof urt (final run)
                    = (Rejected (Error "Must auth first" None), final run,
                       [entry res meth body (default true rof) (default false urt)])
             end).
  { intros rt Hrt run. subst run. unfold _setAuth. rewrite Hrt.
    destruct (encode codec (without_refreshToken j)) as [text |]; [| reflexivity].
    rewrite bind_write.
    unfold _clearAuth, write. cbn [outcome final fst snd store with_store].
    assert (Hu : delete REFRESH_TOKEN_KEY
                   (delete USER_AUTH_KEY
                      (<[REFRESH_TOKEN_KEY:=to_text rt]>
                         (<[USER_AUTH_KEY:=text]> (store w)))) !! USER_AUTH_KEY = None).
    { rewrite lookup_delete_ne by discriminate. apply lookup_delete_eq. }
    split; [reflexivity |]. split; [exact Hu |]. split; [apply lookup_delete_eq |].
    split.
    { intros key Hk Hr. rewrite !lookup_delete_ne by congruence.
      rewrite !lookup_insert_ne by congruence. reflexivity. }
    assert (Hout : forall w' : World Storage,
               store w' !! USER_AUTH_KEY = None -> signed_out codec (store w')).
    { intros w' E. unfold signed_out. now rewrite E. }
    split.
    - apply auth_signed_out. apply Hout. exact Hu.
    - apply doAuthed_signed_out. apply Hout. exact Hu. }
  destruct j; try (apply (Hset undefined); reflexivity).
  - reflexivity.
  - apply (Hset (assoc "refreshToken" fields)). reflexivity.
Qed.

(** X15. [authWithLocal(username, password)] sends one [POST] of the
    credentials, without an [Authorization], to [/auth/local/userpass].
    It resolves only on a success whose body decodes to something other
    than [null] and is encoded by [btoa], and then the storage holds that
    session. When it is rejected the storage is as it was, and the error
    is the failure of the transport, the [Error] of the status text for
    an answer that is not a success, and for a success the [SyntaxError]
    of a body that does not parse, the [TypeError] of a [null] body or
    the [InvalidCharacterError] of [btoa]. *)
Theorem X15_authWithLocal_stores_the_session_of_a_success
    (username password : jsval) (w : World Storage) :
  let run := authWithLocal codec JSON_stringify appUrl username password w in
  let req :=
    {| url := (appUrl +:+ "/auth") +:+ "/local/userpass";
       init := {| fa_method := "POST";
                  fa_headers := json_headers;
                  fa_body := Some (JSON_stringify (object [("username", username);
                                                           ("password", password)])) |} |} in
  trace run = [Fetch Primary req]
  /\ assoc "Authorization" (fa_headers (init req)) = None
  /\ match outcome run with
     | Resolved _ =>
         exists r j rt text,
           net w (sent w) = Responds r /\ is_2xx r = true
           /\ payload r = Some j /\ property "refreshToken" j = Some rt
           /\ encode codec (without_refreshToken j) = Some text
           /\ store (final run)
              = <[REFRESH_TOKEN_KEY := to_text rt]> (<[USER_AUTH_KEY := text]> (store w))
     | Rejected e =>
         store (final run) = store w
         /\ match net w (sent w) with
            | Responds r =>
                e = if is_2xx r then
                      match payload r with
                      | Some j =>
                          match property "refreshToken" j with
                          | Some _ => InvalidCharacterError
                          | None => TypeError
                          end
                      | None => SyntaxError
                      end
                    else Error (statusText r) (Some r)
            | Fails reason => e = TransportFailure reason
            end
     | Pending => False
     end.
Proof.
  intros run req. subst run req. unfold authWithLocal. rewrite bind_fetch.
  destruct (net w (sent w)) as [r | reason]; [| now repeat split].
  unfold checkStatus. destruct (is_2xx r) eqn:E.
  - rewrite bind_ret. unfold response_json.
    destruct (payload r) as [j |] eqn:Ep.
    + rewrite bind_ret. unfold _setAuth.
      destruct (property "refreshToken" j) as [rt |] eqn:Et.
      * destruct (encode codec (without_refreshToken j)) as [text |] eqn:Ee.
        -- split; [reflexivity |]. split; [reflexivity |].
           exists r, j, rt, text. now repeat split.
        -- split; [reflexivity |]. split; [reflexivity |]. now split.
      * split; [reflexivity |]. split; [reflexivity |]. now split.
    + rewrite bind_reject. split; [reflexivity |]. split; [reflexivity |]. now split.
  - rewrite bind_reject. now repeat split.
Qed.

(** X16. Signing in and then dispatching: after [authWithLocal] was
    answered by a success with an object, a call of [_doAuthed] sends its
    request bearing the [accessToken] of that object, provided the codec
    decodes what it encoded. *)
Theorem X16_authWithLocal_then_dispatch_bears_the_access_token
    (username password : jsval) (fuel : nat) (res meth : string) (body : option string)
    (rof : option bool) (w : World Storage) (r : Response) (fields : list (string * json)) :
  let session := JObj (remove_key "refreshToken" fields) in
  let run := (wait authWithLocal codec JSON_stringify appUrl username password
              then _doAuthed codec appUrl (S fuel) res meth body rof None) w in
  net w (sent w) = Responds r -> is_2xx r = true -> payload r = Some (JObj fields) ->
  encode codec session ≫= decode codec = Some session ->
  exists login req tail,
    trace run = [Fetch Primary login; entry res meth body (default true rof) false;
                 Fetch Primary req] ++ tail
    /\ url req = appUrl +:+ res
    /\ fa_method (init req) = meth
    /\ assoc "Authorization" (fa_headers (init req))
       = Some ("Bearer " +:+ to_text (assoc "accessToken" fields)).
Proof.
  intros session run N Ok Ep Hcodec. subst run.
  unfold authWithLocal. rewrite !bind_bind, bind_fetch, N.
  unfold checkStatus. rewrite Ok, bind_bind, bind_ret.
  unfold response_json. rewrite Ep, bind_bind, bind_ret.
  unfold _setAuth. cbn [property without_refreshToken]. fold session.
  destruct (encode codec session) as [text |]; [| discriminate].
  cbn [mbind option_bind] in Hcodec. rewrite bind_write.
  set (w1 := with_store _ (next_request w)).
  assert (Hin : signed_in codec (store w1) session).
  { subst w1. unfold signed_in. cbn [store with_store].
    rewrite lookup_insert_ne by discriminate. rewrite lookup_insert_eq.
    cbn [mbind option_bind]. rewrite Hcodec.
    split; [reflexivity | discriminate]. }
  rewrite (doAuthed_sends codec appUrl fuel res meth body rof None w1 session Hin).
  change (default false None) with false.
  assert (Hb : assoc "Authorization"
                     (fa_headers (init (request appUrl res meth body false (store w1)
                                                session)))
               = Some ("Bearer " +:+ to_text (assoc "accessToken" fields))).
  { unfold request, bearer, session. cbn [init fa_headers property_or_undefined property].
    rewrite assoc_remove_key_ne by discriminate. reflexivity. }
  eexists _, (request appUrl res meth body false (store w1) session).
  destruct (net w1 (sent w1)) as [r' | reason].
  - eexists. rewrite !trace_after. cbn [app].
    split; [reflexivity |]. split; [reflexivity |]. split; [reflexivity | exact Hb].
  - exists []. rewrite trace_after, trace_settled. cbn [app].
    split; [reflexivity |]. split; [reflexivity |]. split; [reflexivity | exact Hb].
Qed.
End LegacyCalls.

Section LegacyBuilders.
Import Baas BaasApi.
Variable codec : Codec.
Variable JSON_stringify : json -> string.
Variable appUrl : string.

Local Abbreviation Storage := (gmap string string).
Local Abbreviation Task := (@M Storage Call).

Lemma bind_trace_extends {T U : Type} (m : Task T) (k : T -> Task U) (w : World Storage) :
  exists tail, trace ((await x <- m then k x) w) = trace (m w) ++ tail.
Proof.
  unfold bind. destruct (m w) as [[[v | e |] w1] t1].
  - exists (trace (k v w1)). reflexivity.
  - exists []. cbn. now rewrite app_nil_r.
  - exists []. cbn. now rewrite app_nil_r.
Qed.

(** X17. The retry of the legacy dispatcher bears the renewed token: when
    the first answer is an invalid session and the renewal hands out an
    access token, the session is stored again with that token, and the
    second request goes to the same URL with the same method and body,
    bearing the new token, provided the codec decodes what it encoded. *)
Theorem X17_legacy_retry_bears_the_renewed_token
    (fuel : nat) (res meth : string) (body : option string) (urt : option bool)
    (w : World Storage) (fields : list (string * json))
    (r1 : Response) (j1 : json) (r2 : Response) (j2 : json) (token : json) :
  let renewed := JObj (set_key "accessToken" token fields) in
  let run := _doAuthed codec appUrl (S (S fuel)) res meth body None urt w in
  signed_in codec (store w) (JObj fields) ->
  net w (sent w) = Responds r1 -> is_2xx r1 = false -> invalid_session_error r1 j1 ->
  net w (S (sent w)) = Responds r2 -> status r2 = 200 -> payload r2 = Some j2 ->
  property "accessToken" j2 = Some (Some token) ->
  encode codec renewed ≫= decode codec = Some renewed ->
  exists first again tail,
    trace run
    = [entry res meth body true (default false urt); Fetch Primary first;
       Refresh Reactive; Fetch Renewal (renewal_request appUrl (store w));
       entry res meth body false false; Fetch Primary again] ++ tail
    /\ assoc "Authorization" (fa_headers (init again))
       = Some ("Bearer " +:+ js_toString token)
    /\ url again = url first
    /\ fa_method (init again) = fa_method (init first)
    /\ fa_body (init again) = fa_body (init first).
Proof.
  intros renewed run Hin N1 E1 Inv N2 St Ep Et Hcodec. subst run.
  rewrite (doAuthed_sends codec appUrl (S fuel) res meth body None urt w (JObj fields) Hin).
  rewrite N1. change (default true None) with true.
  assert (Rt : retries true r1 = true).
  { unfold retries. rewrite E1. cbn [negb andb].
    apply legacy_signals_invalid_session_error. now exists j1. }
  rewrite legacy_classify_retries by exact Rt.
  destruct (encode codec renewed) as [text |] eqn:Ee; [| discriminate].
  cbn [mbind option_bind] in Hcodec.
  set (w2 := with_store (<[USER_AUTH_KEY := text]> (store w))
                        (next_request (next_request w))).
  assert (Eref : _refreshToken codec appUrl (next_request w)
                 = (Resolved tt, w2, [Fetch Renewal (renewal_request appUrl (store w))])).
  { rewrite refreshToken_eq. cbn [next_request net sent store]. rewrite N2.
    unfold Baas.renewed. rewrite St. cbn [Z.eqb Pos.eqb negb].
    unfold response_json. rewrite Ep, bind_ret, Et.
    unfold _setAccessToken. rewrite bind_read. cbn [store next_request].
    destruct Hin as [Hs _]. rewrite Hs. cbn [assign_accessToken]. fold renewed.
    rewrite Ee. unfold write, after. cbn [fst snd store app]. reflexivity. }
  rewrite (bind_resolved _ _ _ _ _ _ Eref).
  assert (Hin2 : signed_in codec (store w2) renewed).
  { subst w2. unfold signed_in. cbn [store with_store]. rewrite lookup_insert_eq.
    cbn [mbind option_bind]. rewrite Hcodec. split; [reflexivity | discriminate]. }
  rewrite (doAuthed_sends codec appUrl fuel res meth body (Some false) None w2 renewed Hin2).
  change (default true (Some false)) with false.
  change (default false None) with false.
  assert (Hb : assoc "Authorization"
                     (fa_headers (init (request appUrl res meth body false (store w2)
                                                renewed)))
               = Some ("Bearer " +:+ js_toString token)).
  { unfold request, bearer, renewed. cbn [init fa_headers property_or_undefined property].
    rewrite assoc_set_key_eq. reflexivity. }
  exists (request appUrl res meth body (default false urt) (store w) (JObj fields)),
         (request appUrl res meth body false (store w2) renewed).
  destruct (net w2 (sent w2)) as [r' | reason].
  - eexists. rewrite !trace_after. cbn [app].
    split; [reflexivity |]. split; [exact Hb |]. now repeat split.
  - exists []. rewrite !trace_after, trace_settled. cbn [app].
    split; [reflexivity |]. split; [exact Hb |]. now repeat split.
Qed.

(** X18. Every pipeline that a collection method builds ends with a
    stage for the service of the collection that names its database and
    the collection. Each of the seven methods passes the query, the
    projection, the update and the documents on as they are given, the
    documents as the [items] of a [literal] stage before the [insert];
    what is [undefined] is left out. The actions are [delete], [find],
    [insert] and [update]. *)
Theorem X18_collection_stages_name_their_collection
    (c : Collection) (query project update documents upsert multi : jsval) :
  Forall (fun pipeline =>
            let s := List.last pipeline JNull in
            property_or_undefined "service" s = Some (JStr (db_service (db c)))
            /\ arg "database" s = Some (JStr (db_name (db c)))
            /\ arg "collection" s = Some (JStr (name c)))
         [deleteOne_pipeline c query; deleteMany_pipeline c query;
          find_pipeline c query project; insert_pipeline c documents;
          updateOne_pipeline c query update;
          updateMany_pipeline c query update upsert multi;
          upsert_pipeline c query update]
  /\ map (arg "query") (deleteOne_pipeline c query) = [query]
  /\ map (arg "query") (deleteMany_pipeline c query) = [query]
  /\ map (fun s => (arg "query" s, arg "project" s)) (find_pipeline c query project)
     = [(query, project)]
  /\ map (arg "items") (insert_pipeline c documents) = [documents; undefined]
  /\ map (fun s => (arg "query" s, arg "update" s)) (updateOne_pipeline c query update)
     = [(query, update)]
  /\ map (fun s => (arg "query" s, arg "update" s))
         (updateMany_pipeline c query update upsert multi)
     = [(query, update)]
  /\ map (fun s => (arg "query" s, arg "update" s)) (upsert_pipeline c query update)
     = [(query, update)]
  /\ map (map (property_or_undefined "action"))
         [deleteOne_pipeline c query; deleteMany_pipeline c query;
          find_pipeline c query project; insert_pipeline c documents;
          updateOne_pipeline c query update;
          updateMany_pipeline c query update upsert multi;
          upsert_pipeline c query update]
     = [[Some (JStr "delete")]; [Some (JStr "delete")]; [Some (JStr "find")];
        [Some (JStr "literal"); Some (JStr "insert")];
        [Some (JStr "update")]; [Some (JStr "update")]; [Some (JStr "update")]].
Proof.
  split; [| destruct query, project, update, documents; repeat split; reflexivity].
  repeat (apply List.Forall_cons); try apply List.Forall_nil;
    destruct query, project, update, documents; repeat split; reflexivity.
Qed.

(** X19. The flags of the stages. [deleteOne] asks for a single document
    and [deleteMany] does not. [updateOne] sets neither [upsert] nor
    [multi]; [updateMany] sets [multi] and never [upsert], whatever is
    passed as its [upsert] and [multi]; [upsert] sets [upsert] and not
    [multi]. *)
Theorem X19_collection_stages_carry_fixed_flags
    (c : Collection) (query update upsert multi : jsval) :
  map (arg "singleDoc") (deleteOne_pipeline c query) = [Some (JBool true)]
  /\ map (arg "singleDoc") (deleteMany_pipeline c query) = [Some (JBool false)]
  /\ map (fun s => (arg "upsert" s, arg "multi" s)) (updateOne_pipeline c query update)
     = [(undefined, undefined)]
  /\ map (fun s => (arg "upsert" s, arg "multi" s))
         (updateMany_pipeline c query update upsert multi)
     = [(undefined, Some (JBool true))]
  /\ map (fun s => (arg "upsert" s, arg "multi" s)) (upsert_pipeline c query update)
     = [(Some (JBool true), undefined)].
Proof. destruct query, update; repeat split; reflexivity. Qed.

(** X20. A leaf of the admin resource tree: [list] and [get] send a
    [GET] and [remove] a [DELETE] to the path of the resource, without a
    body; [create], [update] and [setConfig] send a [POST] of the
    serialized data, [setConfig] to the path followed by [/config];
    except [create] on the rules and on the triggers of a service, which
    drops the data and sends no body. *)
Theorem X20_admin_leaf_sends_the_data_but_for_rules_and_triggers
    (fuel : nat) (r : Resource) (act : Action) (w : World Storage) (a : json)
    (method target : string) (data : jsval) :
  let run := admin codec JSON_stringify appUrl (S fuel) r act w in
  let expected :=
    match act with
    | List | Get => ("GET", path r, undefined)
    | Remove => ("DELETE", path r, undefined)
    | Create d =>
        ("POST", path r, match r with Rules _ _ | Triggers _ _ => undefined | _ => d end)
    | Update d => ("POST", path r, d)
    | SetConfig d => ("POST", path r +:+ "/config", d)
    end in
  signed_in codec (store w) a ->
  leaf r act = Some (method, target, data) ->
  (method, target, data) = expected
  /\ exists req tail,
       trace run = [entry target method (JSON_stringify <$> data) true false;
                    Fetch Primary req] ++ tail
       /\ url req = appUrl +:+ target
       /\ fa_method (init req) = method
       /\ fa_body (init req) = init_body (JSON_stringify <$> data).
Proof.
  intros run expected Hin Hleaf. subst run expected. split.
  - destruct r, act; cbn [leaf] in Hleaf; try discriminate;
      injection Hleaf as <- <- <-; reflexivity.
  - unfold admin. rewrite Hleaf. unfold admin_doAuthed.
    exists (request appUrl target method (JSON_stringify <$> data) false (store w) a).
    match goal with
    | |- context [trace (bind ?m ?k w)] =>
        destruct (bind_trace_extends m k w) as [tail1 ->]
    end.
    rewrite (doAuthed_sends codec appUrl fuel target method (JSON_stringify <$> data)
                            None None w a Hin).
    change (default true None) with true. change (default false None) with false.
    destruct (net w (sent w)) as [r0 | reason].
    + rewrite trace_after, <- app_assoc. eexists.
      split; [reflexivity | now repeat split].
    + rewrite trace_settled. exists tail1. now repeat split.
Qed.

(** X21. Who is signed in after [_setAuth(json)]: [authedId()] gives the
    [_id] of the [user] of the object, and throws when the object has no
    user, provided the codec decodes what it encoded. *)
Theorem X21_setAuth_then_authedId (j : json) (rt : jsval) (w : World Storage) :
  let run := (wait _setAuth codec j then authedId codec) w in
  property "refreshToken" j = Some rt ->
  encode codec (without_refreshToken j) ≫= decode codec = Some (without_refreshToken j) ->
  outcome run
  = match property_or_undefined "user" j with
    | None | Some JNull => Rejected TypeError
    | Some user => Resolved (property_or_undefined "_id" user)
    end.
Proof.
  intros run Hrt Hcodec. subst run. unfold _setAuth. rewrite Hrt.
  destruct (encode codec (without_refreshToken j)) as [text |]; [| discriminate].
  cbn [mbind option_bind] in Hcodec. rewrite bind_write.
  unfold authedId, auth. rewrite bind_bind, bind_read. cbn [store with_store].
  rewrite lookup_insert_ne by discriminate. rewrite lookup_insert_eq, Hcodec, bind_ret.
  destruct j as [| b | n | s | items | fields]; try discriminate; try reflexivity.
  cbn [without_refreshToken property_or_undefined property].
  rewrite assoc_remove_key_ne by discriminate.
  destruct (assoc "user" fields) as [[] |]; reflexivity.
Qed.

(** The renewal writes nothing but the two keys of the session. *)
Lemma refreshToken_frame (w : World Storage) (key : string) :
  key <> USER_AUTH_KEY -> key <> REFRESH_TOKEN_KEY ->
  store (final (_refreshToken codec appUrl w)) !! key = store w !! key.
Proof.
  intros Hu Hr. rewrite refreshToken_eq.
  destruct (net w (sent w)) as [r | reason]; [| reflexivity].
  rewrite final_after. unfold Baas.renewed, _setAccessToken, _clearAuth, response_json.
  destruct (negb (status r =? 200)).
  - destruct (bool_decide (contentType r = Some "application/json")); [| reflexivity].
    destruct (payload r) as [j |]; [| reflexivity].
    rewrite bind_ret. destruct (invalid_session j) as [[|] |]; try reflexivity.
    cbn. rewrite !lookup_delete_ne by congruence. reflexivity.
  - destruct (payload r) as [j |]; [| reflexivity].
    rewrite bind_ret. destruct (property "accessToken" j) as [token |]; [| reflexivity].
    rewrite bind_read. destruct (_ ≫= decode codec) as [currAuth |]; [| reflexivity].
    destruct (assign_accessToken token currAuth) as [currAuth' |]; [| reflexivity].
    destruct (encode codec currAuth'); [| reflexivity].
    cbn. now rewrite lookup_insert_ne by congruence.
Qed.

(** X22. Whatever the answers, a dispatch of the legacy client, its
    renewal and its retry included, leaves every key of [localStorage]
    other than the two of the session as it was. *)
Theorem X22_legacy_dispatch_writes_only_the_session_keys
    (fuel : nat) (res meth : string) (body : option string) (rof urt : option bool)
    (w : World Storage) (key : string) :
  key <> USER_AUTH_KEY -> key <> REFRESH_TOKEN_KEY ->
  store (final (_doAuthed codec appUrl fuel res meth body rof urt w)) !! key
  = store w !! key.
Proof.
  intros Hu Hr. revert rof urt w.
  induction fuel as [| fuel IH]; intros rof urt w; [reflexivity |].
  destruct (auth_cases codec w) as [Hout | [[a Hin] | Hbad]].
  - now rewrite doAuthed_signed_out.
  - rewrite (doAuthed_sends codec appUrl fuel res meth body rof urt w a Hin).
    destruct (net w (sent w)) as [r | reason]; [| reflexivity].
    rewrite final_after. unfold classify, response_json.
    destruct (is_2xx r); [reflexivity |].
    destruct (bool_decide (contentType r = Some "application/json")); [| reflexivity].
    destruct (payload r) as [j |]; [| reflexivity].
    rewrite bind_ret. destruct (invalid_session j) as [[|] |]; try reflexivity.
    destruct (default true rof); cbn [negb].
    + rewrite bind_emit, final_after. unfold bind.
      pose proof (refreshToken_frame (next_request w) key Hu Hr) as Hf.
      destruct (_refreshToken codec appUrl (next_request w)) as [[[u | e |] w1] t1];
        cbn [final fst snd] in Hf; rewrite ?final_after, ?final_settled;
        [rewrite IH | |]; exact Hf.
    + unfold _clearAuth, bind, write. cbn.
      rewrite !lookup_delete_ne by congruence. reflexivity.
  - now rewrite doAuthed_corrupt.
Qed.
End LegacyBuilders.

(** * The further properties on concrete runs *)

Section FurtherRuns.
Import Stitch StitchApi Fixtures Samples.

Local Abbreviation Storage := (gmap string string).

(** X1, witness: signed in with token [A2], which has not expired, and
    answered by a success. *)
Lemma X1_witness :
  let answer := {| status := 200; statusText := "OK";
                   contentType := Some "application/json";
                   payload := Some (JObj [("_id", JStr "u1")]) |} in
  let w := world (session "A2") [Responds answer] in
  let run := _do imports 1 "/auth/me" "GET" no_options w in
  sends_primary (assign_defaults no_options) (store w) = true
  /\ outcome run = Resolved answer
  /\ store (final run) = session "A2".
Proof.
  intros answer w run.
  pose proof (X1_success_and_transport_failure_pass_through
                imports 0 "/auth/me" "GET" no_options w eq_refl) as Hc.
  cbv zeta in Hc. change (net w (sent w)) with (Responds answer) in Hc.
  cbv beta iota in Hc. subst run. rewrite (Hc eq_refl).
  split; [reflexivity |]. split; reflexivity.
Defined.

(** X2, witness: a 502 that announces JSON with a body that does not
    parse, and a 500 whose body is [null]. *)
Lemma X2_witness :
  let run r := _do imports 1 "/auth/me" "GET" no_options
                   (world (session "A2") [Responds r]) in
  outcome (run unparsable_error) = Rejected SyntaxError
  /\ outcome (run null_error) = Rejected TypeError
  /\ store (final (run null_error)) = session "A2".
Proof.
  intros run.
  pose proof (X2_malformed_error_body_is_rejected
                imports 0 "/auth/me" "GET" no_options
                (world (session "A2") [Responds unparsable_error]) unparsable_error
                eq_refl eq_refl eq_refl eq_refl) as H1.
  pose proof (X2_malformed_error_body_is_rejected
                imports 0 "/auth/me" "GET" no_options
                (world (session "A2") [Responds null_error]) null_error
                eq_refl eq_refl eq_refl eq_refl) as H2.
  cbv zeta in H1, H2. cbn [payload unparsable_error null_error] in H1, H2.
  subst run. cbv beta. rewrite H1, H2. split; [reflexivity |]. split; reflexivity.
Defined.

(** X3, witness: the caller passes an [Authorization] and an [Accept] of
    their own; the first is replaced by the bearer, the second goes
    out. *)
Lemma X3_witness :
  let w := world (session "A2") [ok (JObj [])] in
  let req := request imports "/auth/me" "GET" (assign_defaults own_headers) (store w) in
  List.In (Fetch Primary req) (trace (_do imports 1 "/auth/me" "GET" own_headers w))
  /\ assoc "Authorization" (fa_headers (init req)) = Some "Bearer A2"
  /\ assoc "Accept" (fa_headers (init req)) = Some "text/plain"
  /\ assoc "Content-Type" (fa_headers (init req)) = Some "application/json".
Proof.
  intros w req.
  assert (Hnd : List.NoDup
                  (map fst (default [] (headers (assign_defaults own_headers))))).
  { repeat (constructor; [simpl; intuition discriminate |]). constructor. }
  destruct (X3_bearer_replaces_caller_authorization
              (H := auth) imports 0 "/auth/me" "GET" own_headers w "Accept" eq_refl Hnd)
    as (Hin & Ha & Hk).
  destruct (X3_bearer_replaces_caller_authorization
              (H := auth) imports 0 "/auth/me" "GET" own_headers w "Content-Type"
              eq_refl Hnd)
    as (_ & _ & Hc).
  split; [exact Hin |]. split; [exact (Ha eq_refl) |].
  split; [apply Hk | apply Hc]; left; discriminate.
Defined.

(** X4, witness: an invalid session, a renewal and the retry: the two
    requests are one and the same. *)
Lemma X4_witness :
  let w := world (session "A2")
                 [Responds invalid_session_answer; renewal "A2"; ok (JObj [])] in
  let req := request imports "/auth/me" "GET" (assign_defaults no_options) (session "A2") in
  count is_primary (trace (_do imports 2 "/auth/me" "GET" no_options w)) = 2%nat
  /\ List.In (Fetch Primary req) (trace (_do imports 2 "/auth/me" "GET" no_options w))
  /\ url req = "https://stitch.example/api/client/v2.0/app/app1/auth/me".
Proof.
  intros w req.
  assert (Hin : List.In (Fetch Primary req)
                        (trace (_do imports 2 "/auth/me" "GET" no_options w))).
  { vm_compute. do 4 right. left. reflexivity. }
  destruct (X4_retry_resends_the_same_request
              (H := auth) imports 2 "/auth/me" "GET" no_options w req Hin)
    as (Hu & _).
  split; [vm_compute; reflexivity |]. split; [exact Hin | exact Hu].
Defined.

(** X9, witness: nobody is signed in, and the options bring a [username]
    of their own. *)
Lemma X9_witness :
  exists credentials,
    login (Some (JStr "ada@example.org")) (Some (JStr "secret"))
          [("username", JStr "lovelace")] (world no_session [])
    = after [Store GetAccessToken; Provider "userpass"]
            ((wait on_auth (auth_provider "userpass" (Some (JObj credentials)))
              then authedId) (world no_session []))
    /\ assoc "username" credentials = Some (JStr "lovelace").
Proof.
  assert (Hnd : List.NoDup (map fst [("username", JStr "lovelace")])).
  { repeat (constructor; [simpl; intuition discriminate |]). constructor. }
  pose proof (X9_login_chooses_the_provider
                (H := auth) (Some (JStr "ada@example.org")) (Some (JStr "secret"))
                [("username", JStr "lovelace")] (world no_session []) "username" Hnd)
    as Hc.
  cbv zeta in Hc.
  change (truthy (auth_getAccessToken (store (world no_session [])))) with false in Hc.
  cbv beta iota in Hc. destruct Hc as (credentials & E & Hk).
  exists credentials. split; [exact E | exact Hk].
Defined.

(** X12, witness: the service refuses the logout with a 400 and a JSON
    body; the promise resolves and the session is gone. *)
Lemma X12_witness :
  let w := world (localStorage "A1") [Responds bad_request_answer] in
  let run := Baas.logout codec legacyUrl 1 w in
  outcome run = Resolved tt
  /\ store (final run) = Baas.cleared (localStorage "A1").
Proof.
  intros w run.
  assert (Hin : Baas.signed_in codec (store w) (user_auth "A1")).
  { split; [reflexivity | discriminate]. }
  destruct (X12_legacy_logout_clears_on_any_structured_answer
              codec legacyUrl 0 w (user_auth "A1") Hin) as (_ & _ & Hs & Hr).
  split.
  - apply Hr. exists bad_request_answer. split; [reflexivity |]. right.
    exists bad_request_body. repeat split.
  - subst run. rewrite Hs. reflexivity.
Defined.

(** X13, witness: the sign-in answer of the samples. *)
Lemma X13_witness :
  let run := (wait BaasApi._setAuth codec signed_in_body then Baas.auth codec)
               (world (∅ : Storage) []) in
  outcome run = Resolved (user_auth "A1")
  /\ store (final run) !! Baas.REFRESH_TOKEN_KEY = Some "R1".
Proof.
  intros run.
  destruct (X13_setAuth_then_auth_round_trip
              codec legacyUrl signed_in_body (Some (JStr "R1"))
              (world (∅ : Storage) []) eq_refl eq_refl) as (Ho & _ & _ & Hr & _).
  split; [exact Ho | exact Hr].
Defined.

(** X14, witness: the sign-in answer holds a euro sign in its access
    token: [_setAuth] throws out of [btoa], nothing is stored and
    nothing is cleared. *)
Lemma X14_witness :
  (wait BaasApi._setAuth codec euro_body then Baas._clearAuth)
    (world (localStorage "A1") [])
  = (Rejected InvalidCharacterError, world (localStorage "A1") [], []).
Proof.
  exact (X14_setAuth_then_clearAuth_signs_out
           codec legacyUrl euro_body (world (localStorage "A1") [])
           0 "/pipeline" "POST" None None None).
Defined.

(** X15, witness: the same answer to [authWithLocal]: the promise is
    rejected with the error of [btoa] and the storage stays empty. *)
Lemma X15_witness :
  let w := world (∅ : Storage) [ok euro_body] in
  let run := BaasApi.authWithLocal codec show legacyUrl
                                   (Some (JStr "ada")) (Some (JStr "secret")) w in
  outcome run = Rejected InvalidCharacterError
  /\ store (final run) = ∅.
Proof.
  intros w run.
  pose proof (X15_authWithLocal_stores_the_session_of_a_success
                codec show legacyUrl (Some (JStr "ada")) (Some (JStr "secret")) w) as Hc.
  cbv zeta in Hc. destruct Hc as (_ & _ & Hc). fold run in Hc.
  destruct (outcome run) as [u | e |] eqn:Eo;
    [vm_compute in Eo; discriminate | | contradiction].
  destruct Hc as [Hs He]. vm_compute in He. split; [now rewrite He | exact Hs].
Defined.

(** X16, witness: the sign-in is answered by the session of the samples,
    and the pipeline call that follows bears [A1]. *)
Lemma X16_witness :
  let w := world (∅ : Storage) [ok signed_in_body; ok (JArr [])] in
  let run := (wait BaasApi.authWithLocal codec show legacyUrl
                     (Some (JStr "ada")) (Some (JStr "secret"))
              then Baas._doAuthed codec legacyUrl 1 "/pipeline" "POST" (Some "[]")
                                  None None) w in
  exists login req tail,
    trace run = [Fetch Primary login; Baas.entry "/pipeline" "POST" (Some "[]") true false;
                 Fetch Primary req] ++ tail
    /\ assoc "Authorization" (fa_headers (init req)) = Some "Bearer A1".
Proof.
  intros w run.
  destruct (X16_authWithLocal_then_dispatch_bears_the_access_token
              codec show legacyUrl (Some (JStr "ada")) (Some (JStr "secret"))
              0 "/pipeline" "POST" (Some "[]") None w
              {| status := 200; statusText := "OK";
                 contentType := Some "application/json";
                 payload := Some signed_in_body |}
              [("accessToken", JStr "A1"); ("user", JObj [("_id", JStr "u1")]);
               ("refreshToken", JStr "R1")]
              eq_refl eq_refl eq_refl eq_refl)
    as (login & req & tail & T & _ & _ & Ha).
  exists login, req, tail. split; [exact T | exact Ha].
Defined.

(** X17, witness: token [A1] is refused as an invalid session, the
    renewal hands out [A2], and the retry bears it. *)
Lemma X17_witness :
  let w := world (localStorage "A1")
                 [Responds invalid_session_answer; renewal "A2"; ok (JArr [])] in
  let run := Baas._doAuthed codec legacyUrl 2 "/pipeline" "POST" (Some "[]") None None w in
  exists first again tail,
    trace run
    = [Baas.entry "/pipeline" "POST" (Some "[]") true false; Fetch Primary first;
       Refresh Reactive; Fetch Renewal (Baas.renewal_request legacyUrl (store w));
       Baas.entry "/pipeline" "POST" (Some "[]") false false; Fetch Primary again] ++ tail
    /\ assoc "Authorization" (fa_headers (init again)) = Some "Bearer A2".
Proof.
  intros w run.
  assert (Hin : Baas.signed_in codec (store w)
                  (JObj [("accessToken", JStr "A1"); ("user", JObj [("_id", JStr "u1")])])).
  { split; [reflexivity | discriminate]. }
  assert (Hinv : Baas.invalid_session_error invalid_session_answer invalid_session_body).
  { repeat split. }
  destruct (X17_legacy_retry_bears_the_renewed_token
              codec legacyUrl 0 "/pipeline" "POST" (Some "[]") None w
              [("accessToken", JStr "A1"); ("user", JObj [("_id", JStr "u1")])]
              invalid_session_answer invalid_session_body
              {| status := 200; statusText := "OK";
                 contentType := Some "application/json";
                 payload := Some (JObj [("accessToken", JStr "A2")]) |}
              (JObj [("accessToken", JStr "A2")]) (JStr "A2")
              Hin eq_refl eq_refl Hinv eq_refl eq_refl eq_refl eq_refl eq_refl)
    as (first & again & tail & T & Ha & _).
  exists first, again, tail. split; [exact T | exact Ha].
Defined.

(** X20, witness: creating a rule with data: the [POST] has no body. *)
Lemma X20_witness :
  let w := world (localStorage "A1") [ok (JObj [])] in
  let data := Some (JObj [("name", JStr "readers")]) in
  let run := BaasApi.admin codec show legacyUrl 1 (BaasApi.Rules "planner" "mdb1")
                           (BaasApi.Create data) w in
  exists req tail,
    trace run = [Baas.entry "/apps/planner/services/mdb1/rules" "POST" None true false;
                 Fetch Primary req] ++ tail
    /\ fa_body (init req) = None.
Proof.
  intros w data run.
  assert (Hin : Baas.signed_in codec (store w) (user_auth "A1")).
  { split; [reflexivity | discriminate]. }
  destruct (X20_admin_leaf_sends_the_data_but_for_rules_and_triggers
              codec show legacyUrl 0 (BaasApi.Rules "planner" "mdb1") (BaasApi.Create data)
              w (user_auth "A1") "POST" "/apps/planner/services/mdb1/rules" undefined
              Hin eq_refl) as (_ & req & tail & T & _ & _ & Hb).
  exists req, tail. split; [exact T | exact Hb].
Defined.

(** X21, witness: after the sign-in answer of the samples, [u1] is
    signed in. *)
Lemma X21_witness :
  outcome ((wait BaasApi._setAuth codec signed_in_body then Baas.authedId codec)
             (world (∅ : Storage) []))
  = Resolved (Some (JStr "u1")).
Proof.
  exact (X21_setAuth_then_authedId codec signed_in_body (Some (JStr "R1"))
           (world (∅ : Storage) []) eq_refl eq_refl).
Defined.

(** X22, witness: the session is cleared on an invalid session, and the
    theme that the page keeps next to it stays. *)
Lemma X22_witness :
  let w := world (<["theme" := "dark"]> (localStorage "A1"))
                 [Responds invalid_session_answer] in
  let run := Baas._doAuthed codec legacyUrl 1 "/pipeline" "POST" (Some "[]")
                            (Some false) None w in
  store (final run) !! Baas.USER_AUTH_KEY = None
  /\ store (final run) !! "theme" = Some "dark".
Proof.
  intros w run. split; [vm_compute; reflexivity |].
  subst run.
  rewrite (X22_legacy_dispatch_writes_only_the_session_keys
             codec legacyUrl 1 "/pipeline" "POST" (Some "[]") (Some false) None w "theme");
    [vm_compute; reflexivity | discriminate | discriminate].
Defined.
End FurtherRuns.
